(** * SkipList: a doubly linked list with a sparse fast lane

    Shallow embedding of [src/python/SkipList/skiplist.py].

    Python objects live in two stores, one per class: a [ListNode] or a
    [FastNode] is the index of its record in the store, a reference is an
    [option nat] ([None] is Python's [None]), and [is] / [==] on nodes is
    equality of indices (neither class defines [__eq__]).  Every method is a
    computation in a state-and-exception monad over the container; a raised
    exception keeps the mutations made before it, as in Python.  The loops
    that follow links take a step budget, the counted loops recurse on
    their count. *)

From Stdlib Require Import ZArith Lia.
From stdpp Require Import prelude.

Local Open Scope Z_scope.

(** Element values: Python's [None] or an integer. *)
Definition value : Type := option Z.

Module ListNode.
Record t : Type := mk
  { data : value; prev : option nat; next : option nat; fast : option nat }.

(** [ListNode.__init__] *)
Definition init (d : value) : t := mk d None None None.

Definition set_prev (v : option nat) (n : t) : t := mk (data n) v (next n) (fast n).
Definition set_next (v : option nat) (n : t) : t := mk (data n) (prev n) v (fast n).
Definition set_fast (v : option nat) (n : t) : t := mk (data n) (prev n) (next n) v.
End ListNode.

Module FastNode.
Record t : Type := mk
  { target : option nat; prev : option nat; next : option nat; gap : Z }.

Definition set_target (v : option nat) (f : t) : t := mk v (prev f) (next f) (gap f).
Definition set_prev (v : option nat) (f : t) : t := mk (target f) v (next f) (gap f).
Definition set_next (v : option nat) (f : t) : t := mk (target f) (prev f) v (gap f).
Definition set_gap (v : Z) (f : t) : t := mk (target f) (prev f) (next f) v.
End FastNode.

Module SkipList.

(** ** Container state *)

Record t : Type := mk
  { nodes : list ListNode.t;       (* store of the ListNode objects *)
    fnodes : list FastNode.t;      (* store of the FastNode objects *)
    head : option nat;
    tail : option nat;
    size : Z;
    fast_head : option nat;
    fast_tail : option nat;
    fast_count : Z;
    pending_gap : Z;
    current_skip : Z;
    ops_since_rebalance : Z }.

Definition MIN_SKIP : Z := 25.
Definition REBALANCE_THRESHOLD : Z := 100.
(** [SKIP_GROWTH_FACTOR = 1.5] appears below as the exact ratio 3/2; see
    [float_exact] for the range on which this is the program's arithmetic. *)

(** [SkipList.__init__] *)
Definition __init__ : t :=
  mk [] [] None None 0 None None 0 0 MIN_SKIP 0.

Definition set_nodes v s := mk v (fnodes s) (head s) (tail s) (size s) (fast_head s)
  (fast_tail s) (fast_count s) (pending_gap s) (current_skip s) (ops_since_rebalance s).
Definition set_fnodes v s := mk (nodes s) v (head s) (tail s) (size s) (fast_head s)
  (fast_tail s) (fast_count s) (pending_gap s) (current_skip s) (ops_since_rebalance s).
Definition set_head v s := mk (nodes s) (fnodes s) v (tail s) (size s) (fast_head s)
  (fast_tail s) (fast_count s) (pending_gap s) (current_skip s) (ops_since_rebalance s).
Definition set_tail v s := mk (nodes s) (fnodes s) (head s) v (size s) (fast_head s)
  (fast_tail s) (fast_count s) (pending_gap s) (current_skip s) (ops_since_rebalance s).
Definition set_size v s := mk (nodes s) (fnodes s) (head s) (tail s) v (fast_head s)
  (fast_tail s) (fast_count s) (pending_gap s) (current_skip s) (ops_since_rebalance s).
Definition set_fast_head v s := mk (nodes s) (fnodes s) (head s) (tail s) (size s) v
  (fast_tail s) (fast_count s) (pending_gap s) (current_skip s) (ops_since_rebalance s).
Definition set_fast_tail v s := mk (nodes s) (fnodes s) (head s) (tail s) (size s)
  (fast_head s) v (fast_count s) (pending_gap s) (current_skip s) (ops_since_rebalance s).
Definition set_fast_count v s := mk (nodes s) (fnodes s) (head s) (tail s) (size s)
  (fast_head s) (fast_tail s) v (pending_gap s) (current_skip s) (ops_since_rebalance s).
Definition set_pending_gap v s := mk (nodes s) (fnodes s) (head s) (tail s) (size s)
  (fast_head s) (fast_tail s) (fast_count s) v (current_skip s) (ops_since_rebalance s).
Definition set_current_skip v s := mk (nodes s) (fnodes s) (head s) (tail s) (size s)
  (fast_head s) (fast_tail s) (fast_count s) (pending_gap s) v (ops_since_rebalance s).
Definition set_ops_since_rebalance v s := mk (nodes s) (fnodes s) (head s) (tail s) (size s)
  (fast_head s) (fast_tail s) (fast_count s) (pending_gap s) (current_skip s) v.

(** Reading and updating an object of a store.  Every reference the code
    holds was returned by an allocation, so the default is never read. *)
Definition lnode (s : t) (a : nat) : ListNode.t :=
  default (ListNode.init None) (nodes s !! a).
Definition fnode (s : t) (a : nat) : FastNode.t :=
  default (FastNode.mk None None None 0) (fnodes s !! a).
Definition upd_lnode (a : nat) (f : ListNode.t → ListNode.t) (s : t) : t :=
  set_nodes (alter f a (nodes s)) s.
Definition upd_fnode (a : nat) (f : FastNode.t → FastNode.t) (s : t) : t :=
  set_fnodes (alter f a (fnodes s)) s.

(** ** The monad of the methods *)

Inductive exn : Type := IndexError | ValueError | AttributeError | TypeError.

Inductive result (A : Type) : Type :=
  | Ok (a : A) (s : t)          (* normal return *)
  | Raise (e : exn) (s : t)     (* exception, with the state it leaves behind *)
  | OutOfFuel.                  (* step budget of a link-following loop exhausted *)
Arguments Ok {A} a s.
Arguments Raise {A} e s.
Arguments OutOfFuel {A}.

Definition M (A : Type) : Type := t → result A.

Definition ret {A} (a : A) : M A := λ s, Ok a s.
Definition bind {A B} (m : M A) (k : A → M B) : M B :=
  λ s, match m s with
       | Ok a s' => k a s'
       | Raise e s' => Raise e s'
       | OutOfFuel => OutOfFuel
       end.
Definition gets {A} (f : t → A) : M A := λ s, Ok (f s) s.
Definition modify (f : t → t) : M unit := λ s, Ok tt (f s).
Definition raise {A} (e : exn) : M A := λ s, Raise e s.
Definition out_of_fuel {A} : M A := λ _, OutOfFuel.
(** [try: body / except: handler] (a bare [except]). *)
Definition try_except {A} (body handler : M A) : M A :=
  λ s, match body s with
       | Raise _ s' => handler s'
       | r => r
       end.

Declare Scope skip_scope.
Delimit Scope skip_scope with skip.
Notation "'let!' x ':=' m 'in' k" := (bind m (λ x, k))
  (at level 10, x name, m at level 100, k at level 200) : skip_scope.
Notation "m >> k" := (bind m (λ _, k))
  (at level 65, right associativity) : skip_scope.
Local Open Scope skip_scope.

(** Attribute access through a reference: [None.attr] raises. *)
Definition deref {A} (p : option A) : M A :=
  match p with Some a => ret a | None => raise AttributeError end.
Definition lget {A} (f : ListNode.t → A) (a : nat) : M A := gets (λ s, f (lnode s a)).
Definition fget {A} (f : FastNode.t → A) (a : nat) : M A := gets (λ s, f (fnode s a)).
Definition lset (a : nat) (f : ListNode.t → ListNode.t) : M unit := modify (upd_lnode a f).
Definition fset (a : nat) (f : FastNode.t → FastNode.t) : M unit := modify (upd_fnode a f).

(** Constructors: the new object goes at the end of its store. *)
Definition new_ListNode (d : value) : M nat :=
  λ s, Ok (length (nodes s)) (set_nodes (nodes s ++ [ListNode.init d]) s).
Definition new_FastNode (tg pv nx : option nat) (g : Z) : M nat :=
  λ s, Ok (length (fnodes s)) (set_fnodes (fnodes s ++ [FastNode.mk tg pv nx g]) s).

(** An [if] on a reference: run the body when it is not [None]. *)
Definition if_some {A} (p : option A) (k : A → M unit) : M unit :=
  match p with Some a => k a | None => ret tt end.

(** ** Core helpers *)

(** The code computes [current_skip * 1.5] and [size ** 0.5] in double
    precision and truncates them with [int].  On the range below both are
    exact: [current_skip * 1.5] is a multiple of 1/2 of magnitude under 2^53,
    so the comparison with [size] and the truncation toward zero are those of
    the ratio 3/2; and the correctly rounded square root of an integer under
    2^52 lies under 2^26 and truncates to the integer square root.  Past this
    range the program's numbers are rounded ones (at [size = 2^52 + 2^27] the
    code's root is [2^26 + 1], the integer square root [2^26]), and the
    functions below no longer give them. *)
Definition float_exact (sz cs : Z) : Prop :=
  sz < 2 ^ 52 ∧ - 2 ^ 51 ≤ cs ≤ 2 ^ 51.

(** [_get_dynamic_skip], in exact integer arithmetic: the program's result
    for every [size] and [current_skip] that are [float_exact].  A statement
    about the distance returned holds of the program on that range only, and
    says so in a hypothesis. *)
Definition _get_dynamic_skip : M Z :=
  let! sz := gets size in
  if sz <=? 1 then ret MIN_SKIP else
  let! cs := gets current_skip in
  (if 2 * sz >? 3 * cs
   then modify (set_current_skip (Z.min (Z.quot (3 * cs) 2) (Z.sqrt sz)))
   else ret tt) >>
  let! cs' := gets current_skip in
  ret (Z.max MIN_SKIP cs').

Definition _clear_fast_layer : M unit :=
  modify (set_fast_head None) >>
  modify (set_fast_tail None) >>
  modify (set_fast_count 0) >>
  (let! h := gets head in if_some h (λ h, lset h (ListNode.set_fast None))) >>
  (let! tl := gets tail in if_some tl (λ tl, lset tl (ListNode.set_fast None))).

Definition _update_tail_fast : M unit :=
  let! ft := gets fast_tail in
  if_some ft (λ ft,
    let! tl := gets tail in
    fset ft (FastNode.set_target tl) >>
    if_some tl (λ tl, lset tl (ListNode.set_fast (Some ft)))).

Definition _init_fast_layer : M unit :=
  let! h := gets head in
  let! fh0 := gets fast_head in
  match h, fh0 with
  | None, _ | _, Some _ => ret tt
  | Some h, None =>
    try_except
      (let! fh := new_FastNode (Some h) None None 0 in
       modify (set_fast_head (Some fh)) >>
       lset h (ListNode.set_fast (Some fh)) >>
       let! tl := gets tail in
       let! sz := gets size in
       let! ft := new_FastNode tl (Some fh) None
                    (if decide (Some h = tl) then 0 else Z.max 1 (sz - 1)) in
       modify (set_fast_tail (Some ft)) >>
       _update_tail_fast >>
       fset fh (FastNode.set_next (Some ft)) >>
       fset ft (FastNode.set_prev (Some fh)) >>
       modify (set_fast_count 2) >>
       (* Verify initialization *)
       let! fht := fget FastNode.target fh in
       let! ftt := fget FastNode.target ft in
       if bool_decide (fht = None) || bool_decide (ftt = None)
       then _clear_fast_layer else ret tt)
      _clear_fast_layer
  end.

Definition _append_fast (node : option nat) (gap : Z) : M unit :=
  let! ft := gets fast_tail in
  match ft with
  | None => ret tt
  | Some ft =>
    let! ftp := fget FastNode.prev ft in
    match ftp, node with
    | None, _ | _, None => ret tt
    | Some ftp, Some node =>
      let! fn := new_FastNode (Some node) (Some ftp) (Some ft) gap in
      fset ftp (FastNode.set_next (Some fn)) >>
      fset ft (FastNode.set_prev (Some fn)) >>
      lset node (ListNode.set_fast (Some fn)) >>
      let! fc := gets fast_count in
      modify (set_fast_count (fc + 1))
    end
  end.

Definition _remove_fast (fn : option nat) : M unit :=
  let! fh := gets fast_head in
  let! ft := gets fast_tail in
  match fn with
  | None => ret tt
  | Some f =>
    if bool_decide (fn = fh) || bool_decide (fn = ft) then ret tt else
    (* Update gap - merge with previous *)
    (let! p := fget FastNode.prev f in
     let! n := fget FastNode.next f in
     match p, n with
     | Some _, Some n =>
       let! ng := fget FastNode.gap n in
       let! g := fget FastNode.gap f in
       fset n (FastNode.set_gap (Z.max 1 (ng + g)))
     | _, _ => ret tt
     end) >>
    (* Update fast layer links *)
    (let! p := fget FastNode.prev f in
     if_some p (λ p, let! n := fget FastNode.next f in fset p (FastNode.set_next n))) >>
    (let! n := fget FastNode.next f in
     if_some n (λ n, let! p := fget FastNode.prev f in fset n (FastNode.set_prev p))) >>
    (* Clear main list node's fast link *)
    (let! tg := fget FastNode.target f in
     if_some tg (λ tg, lset tg (ListNode.set_fast None))) >>
    (* Clear removed node's references *)
    fset f (FastNode.set_prev None) >>
    fset f (FastNode.set_next None) >>
    fset f (FastNode.set_target None) >>
    let! fc := gets fast_count in
    if fc >? 2 then modify (set_fast_count (fc - 1)) else ret tt
  end.

(** [fast_count < (size ** 0.5) / 2]: the power of a negative number is a
    complex number, which [<] rejects. *)
Definition below_half_sqrt (fc sz : Z) : M bool :=
  if sz <? 0 then raise TypeError
  else ret ((fc <? 0) || (4 * fc * fc <? sz)).

(** First loop of [_rebalance]: clear the back-references of the anchors
    between the sentinels. *)
Fixpoint rebalance_clear (fuel : nat) (current : option nat) : M unit :=
  let! ft := gets fast_tail in
  match current with
  | None => ret tt
  | Some c =>
    if bool_decide (current = ft) then ret tt else
    match fuel with
    | O => out_of_fuel
    | S fuel =>
      (let! tg := fget FastNode.target c in
       if_some tg (λ tg, lset tg (ListNode.set_fast None))) >>
      let! nx := fget FastNode.next c in
      rebalance_clear fuel nx
    end
  end.

(** Second loop of [_rebalance]: walk the primary list and append an
    anchor every [skip] nodes. *)
Fixpoint rebalance_build (fuel : nat) (skip : Z) (main_cur : option nat)
    (counter gap : Z) : M unit :=
  let! tl := gets tail in
  match main_cur with
  | None => ret tt
  | Some c =>
    if bool_decide (main_cur = tl) then ret tt else
    match fuel with
    | O => out_of_fuel
    | S fuel =>
      let gap := gap + 1 in
      let! nx := lget ListNode.next c in
      let! gap := (if (counter >? 0) && (counter mod skip =? 0) && bool_decide (nx ≠ None)
                   then _append_fast main_cur gap >> ret 0
                   else ret gap) in
      let! nx := lget ListNode.next c in
      rebalance_build fuel skip nx (counter + 1) gap
    end
  end.

Definition _rebalance (fuel : nat) : M unit :=
  let! fh := gets fast_head in
  let! ft := gets fast_tail in
  let! h := gets head in
  match fh, ft, h with
  | Some fh, Some ft, Some _ =>
    (* Adjust skip distance if density is suboptimal *)
    (let! fc := gets fast_count in
     let! sz := gets size in
     let! sparse := below_half_sqrt fc sz in
     if sparse
     then let! cs := gets current_skip in
          modify (set_current_skip (Z.max MIN_SKIP (cs / 2)))
     else ret tt) >>
    (* Clear existing fast nodes (except sentinels) *)
    (let! current := fget FastNode.next fh in rebalance_clear fuel current) >>
    (* Reset to just sentinels *)
    fset fh (FastNode.set_next (Some ft)) >>
    fset ft (FastNode.set_prev (Some fh)) >>
    modify (set_fast_count 2) >>
    (* Rebuild with optimal spacing *)
    let! skip := _get_dynamic_skip in
    let! h := gets head in
    rebalance_build fuel skip h 0 0 >>
    _update_tail_fast
  | _, _, _ => ret tt
  end.

Definition _check_and_rebalance (fuel : nat) : M unit :=
  (let! ops := gets ops_since_rebalance in modify (set_ops_since_rebalance (ops + 1))) >>
  let! ops := gets ops_since_rebalance in
  let! fc := gets fast_count in
  let! sz := gets size in
  let! due := (if ops >=? REBALANCE_THRESHOLD then ret true
               else if fc >? 2 then below_half_sqrt fc sz
               else ret false) in
  if due
  then _rebalance fuel >> modify (set_ops_since_rebalance 0)
  else ret tt.

(** ** Core operations *)

Definition add (v : value) : M unit :=
  let! node := new_ListNode v in
  let! h := gets head in
  match h with
  | None =>
    modify (set_head (Some node)) >>
    modify (set_tail (Some node)) >>
    modify (set_size 1) >>
    _init_fast_layer >>
    modify (set_pending_gap 0)
  | Some _ =>
    (* Append to tail *)
    let! tl := gets tail in
    lset node (ListNode.set_prev tl) >>
    (let! tl := deref tl in lset tl (ListNode.set_next (Some node))) >>
    modify (set_tail (Some node)) >>
    (let! sz := gets size in modify (set_size (sz + 1))) >>
    _update_tail_fast >>
    (let! pg := gets pending_gap in modify (set_pending_gap (pg + 1))) >>
    (* Check if we need a new fast node before tail *)
    let! pg := gets pending_gap in
    let! skip := _get_dynamic_skip in
    if pg >=? skip
    then
      let! tl := gets tail in
      let! tl := deref tl in
      let! before_tail := lget ListNode.prev tl in
      let! pg := gets pending_gap in
      _append_fast before_tail (pg - 1) >>
      (let! ft := gets fast_tail in
       let! ft := deref ft in
       fset ft (FastNode.set_gap 1)) >>
      modify (set_pending_gap 1)
    else
      let! ft := gets fast_tail in
      let! ft := deref ft in
      let! pg := gets pending_gap in
      fset ft (FastNode.set_gap pg)
  end.

(** The [for _ in range(n)] and [while walked < index and cur] loops: at
    most [n] steps along [next] (or [prev]), stopping at [None]. *)
Fixpoint steps (link : ListNode.t → option nat) (n : nat) (cur : option nat)
    : M (option nat) :=
  match n, cur with
  | S n, Some c => let! nx := lget link c in steps link n nx
  | _, _ => ret cur
  end.

Definition _get_node_normal (index : Z) : M (option nat) :=
  let! sz := gets size in
  if (index <? 0) || (index >=? sz) then raise IndexError else
  if index <=? sz / 2
  then let! h := gets head in steps ListNode.next (Z.to_nat index) h
  else let! tl := gets tail in steps ListNode.prev (Z.to_nat (sz - 1 - index)) tl.

(** Outcome of an anchor walk of [get_node]: it fell back to the plain
    traversal, or it stopped with a position and a node. *)
Inductive walk : Type :=
  | Fallback
  | Walked (walked : Z) (cur : option nat).

Fixpoint walk_forward (fuel : nat) (index : Z) (fast : option nat) (walked : Z)
    (cur : option nat) : M walk :=
  let! ft := gets fast_tail in
  match fast with
  | None => ret (Walked walked cur)
  | Some f =>
    let! nx := fget FastNode.next f in
    match nx with
    | None => ret (Walked walked cur)
    | Some n =>
      if bool_decide (nx = ft) then ret (Walked walked cur) else
      match fuel with
      | O => out_of_fuel
      | S fuel =>
        let! g := fget FastNode.gap n in
        if walked + g >? index then ret (Walked walked cur) else
        let! tg := fget FastNode.target n in
        match tg with
        | None => ret Fallback
        | Some _ => walk_forward fuel index nx (walked + g) tg
        end
      end
    end
  end.

Fixpoint walk_backward (fuel : nat) (index : Z) (fast : option nat) (walked : Z)
    (cur : option nat) : M walk :=
  let! fh := gets fast_head in
  match fast with
  | None => ret (Walked walked cur)
  | Some f =>
    let! pv := fget FastNode.prev f in
    match pv with
    | None => ret (Walked walked cur)
    | Some p =>
      if bool_decide (pv = fh) then ret (Walked walked cur) else
      match fuel with
      | O => out_of_fuel
      | S fuel =>
        let! g := fget FastNode.gap f in
        if walked - g <? index then ret (Walked walked cur) else
        let! tg := fget FastNode.target p in
        match tg with
        | None => ret Fallback
        | Some _ => walk_backward fuel index pv (walked - g) tg
        end
      end
    end
  end.

Definition get_node (fuel : nat) (index : Z) : M (option nat) :=
  let! sz := gets size in
  if (index <? 0) || (index >=? sz) then raise IndexError else
  (* Direct access for endpoints *)
  if index =? 0 then gets head else
  if index =? sz - 1 then gets tail else
  (* For small lists, use normal traversal *)
  let! fh := gets fast_head in
  let! fc := gets fast_count in
  let! small := (if bool_decide (fh = None) then ret true
                 else if fc <=? 2 then ret true
                 else let! skip := _get_dynamic_skip in ret (sz <? skip)) in
  if small then _get_node_normal index else
  (* Use fast layer *)
  if index <=? sz / 2
  then
    let! h := gets head in
    let! w := walk_forward fuel index fh 0 h in
    match w with
    | Fallback => _get_node_normal index
    | Walked walked cur => steps ListNode.next (Z.to_nat (index - walked)) cur
    end
  else
    let! tl := gets tail in
    let! ft := gets fast_tail in
    let! w := walk_backward fuel index ft (sz - 1) tl in
    match w with
    | Fallback => _get_node_normal index
    | Walked walked cur => steps ListNode.prev (Z.to_nat (walked - index)) cur
    end.

(** The loop that [insert] and [remove_at] both run before an interior
    mutation: find the anchor whose gap covers [index]. *)
Fixpoint find_update_fast (fuel : nat) (index : Z) (fast : option nat)
    (traversed : Z) : M (option nat) :=
  match fast with
  | None => ret None
  | Some f =>
    let! nx := fget FastNode.next f in
    match nx with
    | None => ret None
    | Some n =>
      match fuel with
      | O => out_of_fuel
      | S fuel =>
        let! g := fget FastNode.gap n in
        if traversed + g >? index then ret nx
        else find_update_fast fuel index nx (traversed + g)
      end
    end
  end.

Definition insert (fuel : nat) (index : Z) (v : value) : M unit :=
  let! sz := gets size in
  if (index <? 0) || (index >? sz) then raise IndexError else
  (* Use optimized add for append *)
  if index =? sz then add v else
  (* Insert at head *)
  if index =? 0 then
    let! node := new_ListNode v in
    let! h := gets head in
    lset node (ListNode.set_next h) >>
    (match h with
     | Some h => lset h (ListNode.set_prev (Some node))
     | None => modify (set_tail (Some node))
     end) >>
    modify (set_head (Some node)) >>
    (let! sz := gets size in modify (set_size (sz + 1))) >>
    let! sz := gets size in
    let! fh := gets fast_head in
    if sz =? 1 then _init_fast_layer
    else if_some fh (λ fh,
      let! h := gets head in
      fset fh (FastNode.set_target h) >>
      (let! h := deref h in lset h (ListNode.set_fast (Some fh))) >>
      let! fhn := fget FastNode.next fh in
      if_some fhn (λ fhn,
        let! g := fget FastNode.gap fhn in
        fset fhn (FastNode.set_gap (Z.max 1 (g + 1)))))
  else
  (* Find the fast node that needs gap update *)
  let! fh := gets fast_head in
  let! update_fast := find_update_fast fuel index fh 0 in
  (* Insert at position *)
  let! curr := get_node fuel index in
  match curr with
  | None => raise ValueError
  | Some curr =>
    let! node := new_ListNode v in
    (let! cp := lget ListNode.prev curr in lset node (ListNode.set_prev cp)) >>
    lset node (ListNode.set_next (Some curr)) >>
    (let! cp := lget ListNode.prev curr in
     if_some cp (λ cp, lset cp (ListNode.set_next (Some node)))) >>
    lset curr (ListNode.set_prev (Some node)) >>
    (let! sz := gets size in modify (set_size (sz + 1))) >>
    (* Update gap for affected fast node *)
    if_some update_fast (λ u,
      let! g := fget FastNode.gap u in
      fset u (FastNode.set_gap (Z.max 1 (g + 1)))) >>
    (* Consider rebalancing for internal insertions *)
    let! sz := gets size in
    if (index >? 1) && (index <? sz - 1) then
      let! skip := _get_dynamic_skip in
      if (index + 1) mod skip =? 0 then _check_and_rebalance fuel else ret tt
    else ret tt
  end.

Definition remove_at (fuel : nat) (index : Z) : M value :=
  let! sz := gets size in
  if (index <? 0) || (index >=? sz) then raise IndexError else
  (* Remove head *)
  if index =? 0 then
    let! old_head := gets head in
    let! old_head := deref old_head in
    let! data := lget ListNode.data old_head in
    (let! nx := lget ListNode.next old_head in modify (set_head nx)) >>
    (let! h := gets head in
     match h with
     | Some h => lset h (ListNode.set_prev None)
     | None => modify (set_tail None)
     end) >>
    (let! sz := gets size in modify (set_size (sz - 1))) >>
    let! sz := gets size in
    (if sz =? 0 then
       _clear_fast_layer >>
       modify (set_pending_gap 0) >>
       modify (set_current_skip MIN_SKIP)
     else
       let! fh := gets fast_head in
       let! fh := deref fh in
       let! h := gets head in
       fset fh (FastNode.set_target h) >>
       (let! h := deref h in lset h (ListNode.set_fast (Some fh))) >>
       let! fhn := fget FastNode.next fh in
       if_some fhn (λ fhn,
         let! g := fget FastNode.gap fhn in
         fset fhn (FastNode.set_gap (Z.max 1 (g - 1))))) >>
    ret data
  else
  (* Remove tail *)
  if index =? sz - 1 then
    let! old_tail := gets tail in
    let! old_tail := deref old_tail in
    let! data := lget ListNode.data old_tail in
    let! tp := lget ListNode.prev old_tail in
    (match tp with
     | Some tp =>
       modify (set_tail (Some tp)) >>
       lset tp (ListNode.set_next None) >>
       (let! sz := gets size in modify (set_size (sz - 1))) >>
       _update_tail_fast >>
       (let! ft := gets fast_tail in
        if_some ft (λ ft,
          let! ftp := fget FastNode.prev ft in
          if_some ftp (λ _,
            let! pg := gets pending_gap in
            fset ft (FastNode.set_gap (Z.max 1 (pg - 1)))))) >>
       let! pg := gets pending_gap in
       modify (set_pending_gap (Z.max 0 (pg - 1)))
     | None =>
       modify (set_head None) >>
       modify (set_tail None) >>
       modify (set_size 0) >>
       _clear_fast_layer >>
       modify (set_pending_gap 0) >>
       modify (set_current_skip MIN_SKIP)
     end) >>
    ret data
  else
  (* Find the fast node that needs gap update *)
  let! fh := gets fast_head in
  let! update_fast := find_update_fast fuel index fh 0 in
  (* Remove internal node *)
  let! target := get_node fuel index in
  match target with
  | None => raise ValueError
  | Some target =>
    let! data := lget ListNode.data target in
    (* Update main list connections *)
    (let! tp := lget ListNode.prev target in
     if_some tp (λ tp,
       let! tn := lget ListNode.next target in lset tp (ListNode.set_next tn))) >>
    (let! tn := lget ListNode.next target in
     if_some tn (λ tn,
       let! tp := lget ListNode.prev target in lset tn (ListNode.set_prev tp))) >>
    (let! sz := gets size in modify (set_size (sz - 1))) >>
    (* Update fast layer *)
    (let! tf := lget ListNode.fast target in
     let! fh := gets fast_head in
     let! ft := gets fast_tail in
     match tf with
     | Some fast_node =>
       if bool_decide (tf ≠ fh) && bool_decide (tf ≠ ft) then
         (let! fnn := fget FastNode.next fast_node in
          if_some fnn (λ fnn,
            let! ng := fget FastNode.gap fnn in
            let! g := fget FastNode.gap fast_node in
            fset fnn (FastNode.set_gap (ng + (g - 1))))) >>
         _remove_fast tf
       else
         if_some update_fast (λ u,
           let! g := fget FastNode.gap u in
           fset u (FastNode.set_gap (Z.max 1 (g - 1))))
     | None =>
       if_some update_fast (λ u,
         let! g := fget FastNode.gap u in
         fset u (FastNode.set_gap (Z.max 1 (g - 1))))
     end) >>
    (* Rebalance for internal nodes *)
    (let! sz := gets size in
     if (index >? 1) && (index <? sz - 1) then _check_and_rebalance fuel else ret tt) >>
    ret data
  end.

Definition _remove_node_and_update (fuel : nat) (node : nat) (nearest_fast : nat)
    : M unit :=
  (* Update main list *)
  (let! np := lget ListNode.prev node in
   if_some np (λ np,
     let! nn := lget ListNode.next node in lset np (ListNode.set_next nn))) >>
  (let! nn := lget ListNode.next node in
   if_some nn (λ nn,
     let! np := lget ListNode.prev node in lset nn (ListNode.set_prev np))) >>
  (* Update fast layer *)
  (let! nf := lget ListNode.fast node in
   match nf with
   | Some _ => _remove_fast nf
   | None =>
     let! nfn := fget FastNode.next nearest_fast in
     if_some nfn (λ nfn,
       let! g := fget FastNode.gap nfn in
       fset nfn (FastNode.set_gap (Z.max 1 (g - 1))))
   end) >>
  (let! sz := gets size in modify (set_size (sz - 1))) >>
  _check_and_rebalance fuel.

(** The scan of the plain nodes of a chunk: at most [remaining] nodes, up
    to [search_end] excluded.  A value passed to it is never [None]. *)
Fixpoint search_plain (fuel : nat) (remaining : nat) (current search_end : option nat)
    (fast : nat) (v : Z) : M bool :=
  match remaining with
  | O => ret false
  | S remaining =>
    if bool_decide (current = search_end) then ret false else
    let! c := deref current in
    let! d := lget ListNode.data c in
    if bool_decide (d = Some v)
    then _remove_node_and_update fuel c fast >> ret true
    else let! nx := lget ListNode.next c in
         search_plain fuel remaining nx search_end fast v
  end.

Definition _search_chunk (fuel : nat) (fast : option nat) (v : Z) : M bool :=
  match fast with
  | None => ret false
  | Some f =>
    let! fnx := fget FastNode.next f in
    match fnx with
    | None => ret false
    | Some fnx =>
      (* Check fast node's target *)
      let! tg := fget FastNode.target f in
      let! hit := match tg with
                  | Some tg => let! d := lget ListNode.data tg in ret (bool_decide (d = Some v))
                  | None => ret false
                  end in
      if hit
      then (let! tg := deref tg in _remove_node_and_update fuel tg f) >> ret true
      else
      (* Search regular nodes in chunk *)
      let! current := match tg with
                      | Some tg => lget ListNode.next tg
                      | None => ret None
                      end in
      let! search_end := fget FastNode.target fnx in
      if bool_decide (current = None) || bool_decide (search_end = None)
      then ret false
      else
      let! g := fget FastNode.gap fnx in
      search_plain fuel (Z.to_nat (g - 1)) current search_end f v
    end
  end.

(** The two-sided loop of [remove]. *)
Fixpoint remove_loop (fuel : nat) (v : Z) (front_fast back_fast : option nat)
    (front_idx back_idx : Z) : M bool :=
  match front_fast, back_fast with
  | Some ff, Some bf =>
    let! ffn := fget FastNode.next ff in
    let! bfp := fget FastNode.prev bf in
    if bool_decide (ffn ≠ None) && bool_decide (bfp ≠ None) && (front_idx <? back_idx)
    then
      match fuel with
      | O => out_of_fuel
      | S fuel =>
        (* Check front chunk *)
        let! found := _search_chunk fuel front_fast v in
        if found then ret true else
        let! ffn := fget FastNode.next ff in
        let! n := deref ffn in
        let! g := fget FastNode.gap n in
        let front_idx := front_idx + g in
        (* Check back chunk *)
        if front_idx <? back_idx then
          let! bfp := fget FastNode.prev bf in
          let! found := _search_chunk fuel bfp v in
          if found then ret true else
          let! bg := fget FastNode.gap bf in
          let! bfp := fget FastNode.prev bf in
          remove_loop fuel v ffn bfp front_idx (back_idx - bg)
        else remove_loop fuel v ffn back_fast front_idx back_idx
      end
    else ret false
  | _, _ => ret false
  end.

Definition remove (fuel : nat) (v : value) : M bool :=
  let! h := gets head in
  match h, v with
  | None, _ | _, None => ret false
  | Some h, Some v =>
    (* Quick check head/tail *)
    let! hd := lget ListNode.data h in
    if bool_decide (hd = Some v) then remove_at fuel 0 >> ret true else
    let! tl := gets tail in
    let! tl := deref tl in
    let! td := lget ListNode.data tl in
    if bool_decide (td = Some v)
    then (let! sz := gets size in remove_at fuel (sz - 1)) >> ret true
    else
    (* Parallel search from both ends *)
    let! fh := gets fast_head in
    let! ft := gets fast_tail in
    let! sz := gets size in
    remove_loop fuel v fh ft 0 (sz - 1)
  end.

(** ** Public API *)

Definition __len__ : M Z := gets size.

Definition get (fuel : nat) (index : Z) : M value :=
  let! n := get_node fuel index in
  let! n := deref n in
  lget ListNode.data n.

Definition clear : M unit :=
  modify (set_head None) >>
  modify (set_tail None) >>
  _clear_fast_layer >>
  modify (set_size 0) >>
  modify (set_pending_gap 0) >>
  modify (set_ops_since_rebalance 0) >>
  modify (set_current_skip MIN_SKIP).

(** ** Callers: sequences of public operations *)

Inductive op : Type :=
  | Add (v : value)
  | Insert (index : Z) (v : value)
  | RemoveAt (index : Z)
  | Remove (v : value)
  | Clear.

(** The container a caller holds after a call, whether it returned or
    raised; and after a call that returned. *)
Definition after {A} (r : result A) : option t :=
  match r with
  | Ok _ s | Raise _ s => Some s
  | OutOfFuel => None
  end.

Definition returned {A} (r : result A) : option t :=
  match r with
  | Ok _ s => Some s
  | _ => None
  end.

Definition run_op (fuel : nat) (o : op) (s : t) : option t :=
  match o with
  | Add v => returned (add v s)
  | Insert i v => returned (insert fuel i v s)
  | RemoveAt i => returned (remove_at fuel i s)
  | Remove v => returned (remove fuel v s)
  | Clear => returned (clear s)
  end.

(** A sequence of calls, each of which returns. *)
Fixpoint run (fuel : nat) (ops : list op) (s : t) : option t :=
  match ops with
  | [] => Some s
  | o :: ops => s' ← run_op fuel o s; run fuel ops s'
  end.

(** The test oracle: the same operations on a plain sequence. *)
Fixpoint remove_first (v : value) (l : list value) : list value :=
  match l with
  | [] => []
  | x :: l => if decide (x = v) then l else x :: remove_first v l
  end.

Definition ref_op (o : op) (l : list value) : list value :=
  match o with
  | Add v => l ++ [v]
  | Insert i v =>
    if (i <? 0) || (i >? Z.of_nat (length l)) then l
    else take (Z.to_nat i) l ++ v :: drop (Z.to_nat i) l
  | RemoveAt i =>
    if (i <? 0) || (i >=? Z.of_nat (length l)) then l
    else delete (Z.to_nat i) l
  | Remove v => remove_first v l
  | Clear => []
  end.

Definition ref_run (ops : list op) (l : list value) : list value :=
  foldl (λ l o, ref_op o l) l ops.

(** ** Observations *)

(** The values of the primary list, from [head] along [next]. *)
Fixpoint values_from (fuel : nat) (s : t) (cur : option nat) : list value :=
  match fuel, cur with
  | S fuel, Some c =>
    ListNode.data (lnode s c) :: values_from fuel s (ListNode.next (lnode s c))
  | _, _ => []
  end.
Definition to_list (fuel : nat) (s : t) : list value := values_from fuel s (head s).

(** The anchors from the head sentinel along [next], up to the tail
    sentinel included. *)
Fixpoint anchors_from (fuel : nat) (s : t) (f : option nat) : list nat :=
  match fuel, f with
  | S fuel, Some a =>
    a :: (if decide (f = fast_tail s) then []
          else anchors_from fuel s (FastNode.next (fnode s a)))
  | _, _ => []
  end.
Definition anchors (fuel : nat) (s : t) : list nat := anchors_from fuel s (fast_head s).

Definition gap_sum (fuel : nat) (s : t) : Z :=
  foldr Z.add 0 ((λ a, FastNode.gap (fnode s a)) <$> anchors fuel s).

(** What the caller of a method sees: a returned value or an exception. *)
Definition outcome {A} (r : result A) : option (A + exn) :=
  match r with
  | Ok a _ => Some (inl a)
  | Raise e _ => Some (inr e)
  | OutOfFuel => None
  end.

(** [add(lo)], [add(lo+1)], ... ([n] calls). *)
Definition adds (lo : Z) (n : nat) : list op :=
  (λ i, Add (Some (lo + Z.of_nat i))) <$> seq 0 n.

(** ** Specification vocabulary *)

(** What a read may change: everything but [current_skip] is kept. *)
Record skip_only (s s' : t) : Prop := SkipOnly
  { keep_nodes : nodes s' = nodes s;
    keep_fnodes : fnodes s' = fnodes s;
    keep_head : head s' = head s;
    keep_tail : tail s' = tail s;
    keep_size : size s' = size s;
    keep_fast_head : fast_head s' = fast_head s;
    keep_fast_tail : fast_tail s' = fast_tail s;
    keep_fast_count : fast_count s' = fast_count s;
    keep_pending_gap : pending_gap s' = pending_gap s;
    keep_ops_since_rebalance : ops_since_rebalance s' = ops_since_rebalance s }.

(** A computation is a read when every state it ends in, by return or by
    exception, differs from the initial one in [current_skip] at most. *)
Definition reads {A} (m : M A) : Prop :=
  ∀ s, match m s with
       | Ok _ s' | Raise _ s' => skip_only s s'
       | OutOfFuel => True
       end.

(** The state [clear] leaves: the stores are kept (the nodes are merely
    unreferenced), every other field is that of [SkipList()]. *)
Definition cleared (s : t) : t :=
  mk (nodes s) (fnodes s) None None 0 None None 0 0 MIN_SKIP 0.

(** The two results of [_get_dynamic_skip] as functions of the fields it
    reads: the [current_skip] it leaves and the distance it returns. *)
Definition skip_after (sz cs : Z) : Z :=
  if sz <=? 1 then cs
  else if 2 * sz >? 3 * cs then Z.min (Z.quot (3 * cs) 2) (Z.sqrt sz) else cs.
Definition dynamic_skip (sz cs : Z) : Z :=
  if sz <=? 1 then MIN_SKIP else Z.max MIN_SKIP (skip_after sz cs).

(** What [_init_fast_layer] builds on a list from [h] to [tl] that has no
    fast lane: two new anchors, the head sentinel on [h] with gap 0 and the
    tail sentinel on [tl], linked to each other.  The gap of the tail
    sentinel is 0 when [h] and [tl] are one node, [max(1, size - 1)]
    otherwise. *)
Definition sentinels_created (s : t) (h tl : nat) (s' : t) : Prop :=
  let fh := length (fnodes s) in
  let ft := S fh in
  fast_head s' = Some fh ∧ fast_tail s' = Some ft ∧ fast_count s' = 2 ∧
  fnodes s' = fnodes s ++
    [FastNode.mk (Some h) None (Some ft) 0;
     FastNode.mk (Some tl) (Some fh) None
       (if decide (h = tl) then 0 else Z.max 1 (size s - 1))] ∧
  head s' = head s ∧ tail s' = tail s ∧ size s' = size s ∧
  pending_gap s' = pending_gap s.

(** What [add(v)] does to a non-empty list whose tail is [tl], whose tail
    sentinel is [ft] and whose last anchor before it is [p]. *)
Definition appended (s : t) (v : value) (tl ft p : nat) (s' : t) : Prop :=
  let node := length (nodes s) in           (* the new ListNode *)
  let pg := pending_gap s + 1 in            (* pending_gap, incremented *)
  (* appended to the primary tail *)
  head s' = head s ∧ tail s' = Some node ∧ size s' = size s + 1 ∧
  lnode s' node = ListNode.mk v (Some tl) None (Some ft) ∧
  ListNode.next (lnode s' tl) = Some node ∧
  (∀ a, a ≠ node → ListNode.data (lnode s' a) = ListNode.data (lnode s a) ∧
                   ListNode.prev (lnode s' a) = ListNode.prev (lnode s a)) ∧
  (∀ a, a ≠ node → a ≠ tl → lnode s' a = lnode s a) ∧
  (* the tail sentinel re-pointed *)
  fast_head s' = fast_head s ∧ fast_tail s' = Some ft ∧
  FastNode.target (fnode s' ft) = Some node ∧
  if pg >=? dynamic_skip (size s + 1) (current_skip s) then
    (* the old tail promoted to an anchor, between [p] and [ft] *)
    let fn := length (fnodes s) in          (* the new FastNode *)
    fnode s' fn = FastNode.mk (Some tl) (Some p) (Some ft) (pg - 1) ∧
    FastNode.next (fnode s' p) = Some fn ∧
    FastNode.prev (fnode s' ft) = Some fn ∧
    ListNode.fast (lnode s' tl) = Some fn ∧
    fast_count s' = fast_count s + 1 ∧
    FastNode.gap (fnode s' ft) = 1 ∧
    pending_gap s' = 1
  else
    length (fnodes s') = length (fnodes s) ∧
    fast_count s' = fast_count s ∧
    FastNode.gap (fnode s' ft) = pg ∧
    pending_gap s' = pg.

(** The container [add(v)] holds when it calls [_init_fast_layer]: one
    node, no fast lane. *)
Definition first_node (v : value) : t :=
  mk [ListNode.init v] [] (Some 0%nat) (Some 0%nat) 1 None None 0 0 MIN_SKIP 0.

(** The container after [add(0)], ..., [add(24)]: the next [add] is the
    first to create an anchor. *)
Definition twenty_five : t := default __init__ (run 0 (adds 0 25) __init__).

(** The operations that leave an anchor on a node that is no longer in the
    list: 26 appends (anchor on the node holding 24), [remove_at(25)] (that
    node becomes the tail and its back-reference now names the tail
    sentinel), [add(100)], [remove_at(24)] (an interior removal, which
    takes the stale back-reference for a sentinel's and keeps the anchor),
    [add(101)]. *)
Definition stale_anchor_ops : list op :=
  adds 0 26 ++ [RemoveAt 25; Add (Some 100); RemoveAt 24; Add (Some 101)].

(** What [add(v)] leaves alone in the fast lane, in the same two cases. *)
Definition anchors_framed (s : t) (ft p : nat) (s' : t) : Prop :=
  length (nodes s') = S (length (nodes s)) ∧
  if pending_gap s + 1 >=? dynamic_skip (size s + 1) (current_skip s) then
    length (fnodes s') = S (length (fnodes s)) ∧
    (∀ a, a ≠ p → a ≠ ft → a ≠ length (fnodes s) → fnode s' a = fnode s a) ∧
    (p ≠ ft → FastNode.gap (fnode s' p) = FastNode.gap (fnode s p))
  else
    (∀ a, a ≠ ft → fnode s' a = fnode s a) ∧
    FastNode.prev (fnode s' ft) = FastNode.prev (fnode s ft).

(** The anchors after [f] along [next] end, at [None] or at the tail
    sentinel, within [k] links; and backwards along [prev], at [None] or at
    the head sentinel.  Then [k] is budget enough for the walks of
    [get_node]. *)
Fixpoint ends_forward (k : nat) (s : t) (f : option nat) : bool :=
  match f with
  | None => true
  | Some a =>
    match FastNode.next (fnode s a) with
    | None => true
    | Some n =>
      bool_decide (Some n = fast_tail s) ||
      match k with
      | O => false
      | S k => ends_forward k s (Some n)
      end
    end
  end.

Fixpoint ends_backward (k : nat) (s : t) (f : option nat) : bool :=
  match f with
  | None => true
  | Some a =>
    match FastNode.prev (fnode s a) with
    | None => true
    | Some p =>
      bool_decide (Some p = fast_head s) ||
      match k with
      | O => false
      | S k => ends_backward k s (Some p)
      end
    end
  end.

(** The calls of the source file's demo, up to its [remove(42)]. *)
Definition demo_ops : list op :=
  adds 0 100 ++ [Insert 50 (Some 999); RemoveAt 50].

(** No node of the store, linked or not, holds [v]; and what [remove] can
    then do: report no match, stop on a [None] link, or run out of budget,
    with the container untouched. *)
Definition unheld (s : t) (v : Z) : Prop :=
  ∀ a, ListNode.data (lnode s a) ≠ Some v.

Definition misses (s : t) (r : result bool) : Prop :=
  r = Ok false s ∨ r = Raise AttributeError s ∨ r = OutOfFuel.

(** *** Well-built containers *)

(** [rpath s b l]: the anchors of [l], listed from the one nearest to [b]
    backwards, are linked by [next] up to [b]. *)
Fixpoint rpath (s : t) (b : nat) (l : list nat) : Prop :=
  match l with
  | [] => True
  | a :: l' => FastNode.next (fnode s a) = Some b ∧ rpath s a l'
  end.

(** The same for list nodes, up to [nxt]. *)
Fixpoint rchain (s : t) (nxt : option nat) (l : list nat) : Prop :=
  match l with
  | [] => True
  | a :: l' => ListNode.next (lnode s a) = nxt ∧ rchain s (Some a) l'
  end.

Definition gaps (s : t) (l : list nat) : Z :=
  foldr Z.add 0 ((λ a, FastNode.gap (fnode s a)) <$> l).

(** The fast lane, read backwards: the tail sentinel [ft], the anchor [p]
    before it, then [rest] down to the head sentinel. *)
Record fast_lane (s : t) (ft p : nat) (rest : list nat) : Prop := FastLane
  { fl_tail : fast_tail s = Some ft;
    fl_head : fast_head s = last (p :: rest);
    fl_prev : FastNode.prev (fnode s ft) = Some p;
    fl_path : rpath s ft (p :: rest);
    fl_nodup : NoDup (ft :: p :: rest);
    fl_valid : Forall (λ a, (a < length (fnodes s))%nat) (ft :: p :: rest);
    fl_gap : FastNode.gap (fnode s ft) = pending_gap s;
    fl_sum : gaps s (ft :: p :: rest) = size s - 1;
    fl_count : fast_count s = Z.of_nat (length (p :: rest)) + 1 }.

(** The primary list, read backwards from the tail [tl], holding [vs]. *)
Record primary (s : t) (vs : list value) (tl : nat) (rest : list nat) : Prop := Primary
  { pr_tail : tail s = Some tl;
    pr_head : head s = last (tl :: rest);
    pr_chain : rchain s None (tl :: rest);
    pr_nodup : NoDup (tl :: rest);
    pr_valid : Forall (λ a, (a < length (nodes s))%nat) (tl :: rest);
    pr_values : (λ a, ListNode.data (lnode s a)) <$> reverse (tl :: rest) = vs;
    pr_size : size s = Z.of_nat (length (tl :: rest)) }.

(** [built s vs]: [s] is empty and so is [vs], or it holds the values
    [vs] in a well-linked primary list under a well-linked fast lane whose
    gaps sum to [size - 1]. *)
Definition built (s : t) (vs : list value) : Prop :=
  (head s = None ∧ fast_head s = None ∧ size s = 0 ∧ fast_count s = 0 ∧ vs = []) ∨
  (∃ tl nrest ft p rest, primary s vs tl nrest ∧ fast_lane s ft p rest).

Definition add_or_clear (o : op) : Prop :=
  match o with Add _ | Clear => True | _ => False end.

(** ** Frames, invariants and example inputs for the properties below *)

(** The linked list is the same in [s'] as in [s]: ends, [size] and every
    field of every node. *)
Record list_kept (s s' : t) : Prop := ListKept
  { lk_head : head s' = head s;
    lk_tail : tail s' = tail s;
    lk_size : size s' = size s;
    lk_length : length (nodes s') = length (nodes s);
    lk_data : ∀ a, ListNode.data (lnode s' a) = ListNode.data (lnode s a);
    lk_prev : ∀ a, ListNode.prev (lnode s' a) = ListNode.prev (lnode s a);
    lk_next : ∀ a, ListNode.next (lnode s' a) = ListNode.next (lnode s a) }.

(** The list is kept, the two sentinels of the fast lane too, and an
    anchor count of at least 2 stays at least 2. *)
Record lane_kept (s s' : t) : Prop := LaneKept
  { lane_list : list_kept s s';
    lane_head : fast_head s' = fast_head s;
    lane_tail : fast_tail s' = fast_tail s;
    lane_count : 2 ≤ fast_count s → 2 ≤ fast_count s' }.

(** [m] relates the state it starts in to the state it ends in by [R],
    whether it returns or raises. *)
Definition preserves (R : t → t → Prop) {A} (m : M A) : Prop :=
  ∀ s, match m s with
       | Ok _ s' | Raise _ s' => R s s'
       | OutOfFuel => True
       end.

(** The counters agree: no element, no anchor and no sentinel; or at least
    one element and at least two anchors. *)
Definition counted (s : t) : Prop :=
  (fast_count s = 0 ∧ size s = 0 ∧ fast_head s = None ∧ fast_tail s = None) ∨
  (2 ≤ fast_count s ∧ 1 ≤ size s).

(** [Q] holds of the result and the state when [m] returns. *)
Definition wp {A} (m : M A) (Q : A → t → Prop) (s : t) : Prop :=
  match m s with
  | Ok a s' => Q a s'
  | _ => True
  end.

(** [m] returns, and [Q] holds of the result and the state. *)
Definition returns {A} (m : M A) (Q : A → t → Prop) (s : t) : Prop :=
  match m s with
  | Ok a s' => Q a s'
  | _ => False
  end.

(** What a removal by value leaves when it found a match. *)
Definition one_less (s s' : t) : Prop :=
  size s' = size s - 1 ∧ (2 ≤ fast_count s → 2 ≤ fast_count s').

Definition found_or_same (s : t) (found : bool) (s' : t) : Prop :=
  if found then one_less s s' else s' = s.

(** Following [link] from [cur] visits the nodes [l], in this order, and
    then ends. *)
Fixpoint chain (link : ListNode.t → option nat) (s : t) (cur : option nat)
    (l : list nat) : Prop :=
  match l with
  | [] => cur = None
  | a :: l' => cur = Some a ∧ chain link s (link (lnode s a)) l'
  end.

(** The container holds the values [vs] in the nodes [l]: [next] from
    [head] runs through [l], [prev] from [tail] through [l] reversed, and
    [size] is their number. *)
Record listed (s : t) (vs : list value) (l : list nat) : Prop := Listed
  { ls_next : chain ListNode.next s (head s) l;
    ls_prev : chain ListNode.prev s (tail s) (reverse l);
    ls_nodup : NoDup l;
    ls_valid : Forall (λ a, (a < length (nodes s))%nat) l;
    ls_values : (λ a, ListNode.data (lnode s a)) <$> l = vs;
    ls_size : size s = Z.of_nat (length l) }.

(** What the operations at the ends leave alone in the fast lane. *)
Definition lane_same (s s' : t) : Prop :=
  fast_head s' = fast_head s ∧ fast_tail s' = fast_tail s ∧
  length (fnodes s') = length (fnodes s) ∧
  ∀ f, FastNode.prev (fnode s' f) = FastNode.prev (fnode s f).

(** The head node went and [b] is the new head. *)
Definition popped_front (s : t) (b : nat) (s' : t) : Prop :=
  head s' = Some b ∧ tail s' = tail s ∧ size s' = size s - 1 ∧
  length (nodes s') = length (nodes s) ∧
  (∀ c, ListNode.data (lnode s' c) = ListNode.data (lnode s c) ∧
        ListNode.next (lnode s' c) = ListNode.next (lnode s c)) ∧
  ListNode.prev (lnode s' b) = None ∧
  (∀ c, c ≠ b → ListNode.prev (lnode s' c) = ListNode.prev (lnode s c)) ∧
  lane_same s s'.

(** The tail node went and [b] is the new tail. *)
Definition popped_back (s : t) (b : nat) (s' : t) : Prop :=
  tail s' = Some b ∧ head s' = head s ∧ size s' = size s - 1 ∧
  length (nodes s') = length (nodes s) ∧
  (∀ c, ListNode.data (lnode s' c) = ListNode.data (lnode s c) ∧
        ListNode.prev (lnode s' c) = ListNode.prev (lnode s c)) ∧
  ListNode.next (lnode s' b) = None ∧
  (∀ c, c ≠ b → ListNode.next (lnode s' c) = ListNode.next (lnode s c)) ∧
  lane_same s s'.

(** A new node holding [v] stands before the old head [h]. *)
Definition pushed_front (s : t) (v : value) (h : nat) (s' : t) : Prop :=
  let node := length (nodes s) in
  head s' = Some node ∧ tail s' = tail s ∧ size s' = size s + 1 ∧
  length (nodes s') = S (length (nodes s)) ∧
  ListNode.data (lnode s' node) = v ∧
  ListNode.prev (lnode s' node) = None ∧
  ListNode.next (lnode s' node) = Some h ∧
  ListNode.prev (lnode s' h) = Some node ∧
  (∀ c, c ≠ node → ListNode.data (lnode s' c) = ListNode.data (lnode s c) ∧
                   ListNode.next (lnode s' c) = ListNode.next (lnode s c)) ∧
  (∀ c, c ≠ node → c ≠ h → ListNode.prev (lnode s' c) = ListNode.prev (lnode s c)) ∧
  lane_same s s'.

(** Both sentinels exist and the tail sentinel has a predecessor: all the
    operations at the ends read of the fast lane. *)
Definition lane_present (s : t) : Prop :=
  ∃ fh ft p, fast_head s = Some fh ∧ fast_tail s = Some ft ∧
    (ft < length (fnodes s))%nat ∧
    FastNode.prev (fnode s ft) = Some p ∧ (p < length (fnodes s))%nat.

(** The container is empty, or holds [vs] with the sentinels in place. *)
Definition deque (s : t) (vs : list value) : Prop :=
  (head s = None ∧ fast_head s = None ∧ size s = 0 ∧ vs = []) ∨
  (∃ l, l ≠ [] ∧ listed s vs l ∧ lane_present s).

(** The calls that work at an end of a list of [n] elements: [add],
    [clear], [insert] at 0 or at [n], [remove_at] of the first or of the
    last element. *)
Definition end_op (n : Z) (o : op) : Prop :=
  match o with
  | Add _ | Clear => True
  | Insert i _ => i = 0 ∨ i = n
  | RemoveAt i => 0 < n ∧ (i = 0 ∨ i = n - 1)
  | Remove _ => False
  end.

(** Every call of [ops] works at an end of the list the calls before it
    leave, starting from [vs]. *)
Fixpoint end_ops (vs : list value) (ops : list op) : Prop :=
  match ops with
  | [] => True
  | o :: ops => end_op (Z.of_nat (length vs)) o ∧ end_ops (ref_op o vs) ops
  end.

(** The anchors with the index each stands for, read backwards: each is
    linked to the one before it and its gap is the distance between the
    two indices. *)
Fixpoint spaced (s : t) (bl : list (nat * Z)) : Prop :=
  match bl with
  | [] => True
  | x :: bl' =>
    match bl' with
    | [] => True
    | y :: _ =>
      FastNode.next (fnode s y.1) = Some x.1 ∧
      FastNode.prev (fnode s x.1) = Some y.1 ∧
      FastNode.gap (fnode s x.1) = x.2 - y.2
    end ∧ spaced s bl'
  end.

(** The same, read forwards. *)
Fixpoint fspaced (s : t) (fl : list (nat * Z)) : Prop :=
  match fl with
  | [] => True
  | x :: fl' =>
    match fl' with
    | [] => True
    | y :: _ =>
      FastNode.next (fnode s x.1) = Some y.1 ∧
      FastNode.prev (fnode s y.1) = Some x.1 ∧
      FastNode.gap (fnode s y.1) = y.2 - x.2
    end ∧ fspaced s fl'
  end.

(** The anchor [x.1] targets the node at index [x.2] of the list [l]. *)
Definition on_target (s : t) (l : list nat) (x : nat * Z) : Prop :=
  0 ≤ x.2 ∧ ∃ a, l !! Z.to_nat x.2 = Some a ∧ FastNode.target (fnode s x.1) = Some a.

(** The fast lane indexes the list [l]: from the tail sentinel [ft], at
    index [size - 1], back to the head sentinel at index 0, the anchors are
    spaced by their gaps and each targets the node at its index; nothing
    follows the tail sentinel, and the back-reference of a node of the list
    names an anchor of the lane. *)
Record indexed_lane (s : t) (l : list nat) (ft : nat) (bl : list (nat * Z)) : Prop :=
  IndexedLane
  { il_tail : fast_tail s = Some ft;
    il_head : ∃ fh, fast_head s = Some fh ∧ last bl = Some (fh, 0);
    il_spaced : spaced s ((ft, size s - 1) :: bl);
    il_targets : Forall (on_target s l) ((ft, size s - 1) :: bl);
    il_nodup : NoDup (ft :: bl.*1);
    il_valid : Forall (λ a, (a < length (fnodes s))%nat) (ft :: bl.*1);
    il_gap : FastNode.gap (fnode s ft) = pending_gap s;
    il_count : fast_count s = Z.of_nat (length bl) + 1;
    il_open : FastNode.next (fnode s ft) = None;
    il_back : ∀ a f, a ∈ l → ListNode.fast (lnode s a) = Some f → f ∈ ft :: bl.*1 }.

(** The container is empty, or holds [vs] under a fast lane that indexes
    it. *)
Definition indexed (s : t) (vs : list value) : Prop :=
  (head s = None ∧ fast_head s = None ∧ size s = 0 ∧ vs = []) ∨
  (∃ l ft bl, l ≠ [] ∧ listed s vs l ∧ indexed_lane s l ft bl).

(** A new node holding [v] stands between [p] and [c]. *)
Definition spliced_in (s : t) (v : value) (p c : nat) (s' : t) : Prop :=
  let node := length (nodes s) in
  head s' = head s ∧ tail s' = tail s ∧ size s' = size s + 1 ∧
  length (nodes s') = S (length (nodes s)) ∧
  ListNode.data (lnode s' node) = v ∧
  ListNode.prev (lnode s' node) = Some p ∧
  ListNode.next (lnode s' node) = Some c ∧
  ListNode.next (lnode s' p) = Some node ∧
  ListNode.prev (lnode s' c) = Some node ∧
  (∀ a, a ≠ node → ListNode.data (lnode s' a) = ListNode.data (lnode s a)) ∧
  (∀ a, a ≠ node → a ≠ p → ListNode.next (lnode s' a) = ListNode.next (lnode s a)) ∧
  (∀ a, a ≠ node → a ≠ c → ListNode.prev (lnode s' a) = ListNode.prev (lnode s a)).

(** The node between [p] and [n] went. *)
Definition spliced_out (s : t) (p n : nat) (s' : t) : Prop :=
  head s' = head s ∧ tail s' = tail s ∧ size s' = size s - 1 ∧
  length (nodes s') = length (nodes s) ∧
  (∀ a, ListNode.data (lnode s' a) = ListNode.data (lnode s a)) ∧
  ListNode.next (lnode s' p) = Some n ∧
  ListNode.prev (lnode s' n) = Some p ∧
  (∀ a, a ≠ p → ListNode.next (lnode s' a) = ListNode.next (lnode s a)) ∧
  (∀ a, a ≠ n → ListNode.prev (lnode s' a) = ListNode.prev (lnode s a)).

(** The node at index [m] held [v] and went. *)
Definition dropped (vs : list value) (l : list nat) (v : Z) (m : nat) (s' : t) : Prop :=
  vs !! m = Some (Some v) ∧ listed s' (delete m vs) (delete m l).

(** What a caller sees of a removal by value: one occurrence of [v] went,
    and it was the one the reference removes when [v] occurred once. *)
Definition removed_one (vs : list value) (v : Z) (s' : t) : Prop :=
  ∃ m, vs !! m = Some (Some v) ∧
       size s' = Z.of_nat (length (delete m vs)) ∧
       to_list (length (delete m vs)) s' = delete m vs ∧
       ((∀ k, vs !! k = Some (Some v) → k = m) →
        delete m vs = ref_op (Remove (Some v)) vs).

(** Example inputs. *)
Definition append_ops : list op :=
  [Add (Some 7); Add (Some 8); Clear; Add (Some 9); Add None].
Definition deque_ops : list op :=
  [Add (Some 1); Insert 0 (Some 0); Add (Some 2); RemoveAt 0; RemoveAt 1; Insert 1 (Some 5)].
Definition mixed_ops : list op :=
  [Add (Some 1); Add (Some 2); Insert 1 (Some 3); Remove (Some 2); RemoveAt 0].
Definition ends_ops : list op := [Add (Some 0); Add (Some 1); Add (Some 2); Add (Some 1)].
Definition after_mixed_ops : t := default __init__ (run 10 mixed_ops __init__).
Definition three_appended : t := default __init__ (run 0 (adds 0 3) __init__).
Definition stale_container : t := default __init__ (run 100 stale_anchor_ops __init__).

(** * Properties *)

(** ** Stores *)

Section stores.
Context {A : Type}.
Implicit Types (l : list A) (f : A → A) (d : A).

Lemma alter_snoc f l a n : n = length l → alter f n (l ++ [a]) = l ++ [f a].
Proof. intros ->. rewrite <-(Nat.add_0_r (length l)). by rewrite alter_app_r. Qed.

Lemma alter_new_fst l f a b : alter f (length l) (l ++ [a; b]) = l ++ [f a; b].
Proof. rewrite <-(Nat.add_0_r (length l)). by rewrite alter_app_r. Qed.

Lemma alter_new_snd l f a b : alter f (S (length l)) (l ++ [a; b]) = l ++ [a; f b].
Proof. rewrite <-(Nat.add_1_r (length l)). by rewrite alter_app_r. Qed.

Lemma lookup_new_fst l a b : (l ++ [a; b]) !! length l = Some a.
Proof. by apply list_lookup_middle. Qed.

Lemma lookup_new_snd l a b : (l ++ [a; b]) !! S (length l) = Some b.
Proof.
  rewrite lookup_app_r by lia.
  by replace (S (length l) - length l)%nat with 1%nat by lia.
Qed.

Lemma snoc_snoc l a b : (l ++ [a]) ++ [b] = l ++ [a; b].
Proof. by rewrite <-app_assoc. Qed.

Lemma length_snoc l a : length (l ++ [a]) = S (length l).
Proof. rewrite length_app. simpl. lia. Qed.

(** Reading after an update, and after an allocation. *)
Lemma read_alter d f l a b :
  default d (alter f a l !! b) =
  if decide (a = b ∧ (a < length l)%nat)
  then f (default d (l !! a)) else default d (l !! b).
Proof.
  rewrite list_lookup_alter.
  destruct (decide (a = b)) as [->|]; case_decide as H; [| |by destruct H|done].
  - destruct H as [_ H]. by apply lookup_lt_is_Some in H as [x ->].
  - rewrite lookup_ge_None_2; [done|]. lia.
Qed.

Lemma read_snoc d l x b :
  default d ((l ++ [x]) !! b) =
  if decide (b = length l) then x else default d (l !! b).
Proof.
  case_decide as H.
  - subst. by rewrite list_lookup_middle.
  - destruct (decide (b < length l)%nat).
    + by rewrite lookup_app_l.
    + rewrite !lookup_ge_None_2; [done|lia|]. rewrite length_snoc. lia.
Qed.
End stores.

(** Symbolic execution of a method: unfold the monad, reduce, and push the
    updates of a store down to the object they change. *)
Ltac run_monad :=
  unfold try_except, bind, new_FastNode, new_ListNode, modify, gets, lset, fset,
    fget, lget, if_some, deref, ret, raise, upd_lnode, upd_fnode, lnode, fnode.
Ltac sred := cbn -[_get_dynamic_skip dynamic_skip skip_after].
Ltac len := rewrite ?length_alter; first [done | lia].
Ltac store_norm :=
  repeat first
    [ rewrite alter_snoc by len
    | rewrite alter_app_l by len
    | rewrite list_lookup_middle by len
    | rewrite lookup_app_l by len
    | rewrite list_lookup_alter_eq
    | rewrite list_lookup_alter_ne by lia ].
Ltac exec_with tac :=
  repeat first
    [ tac | progress rewrite ?length_alter | progress store_norm | progress sred ].
Ltac read_store :=
  rewrite ?read_snoc, ?read_alter, ?length_alter;
  repeat case_decide; destruct_and?; simplify_eq/=; try done; try lia.

(** ** Reads *)

Lemma skip_only_refl s : skip_only s s.
Proof. by constructor. Qed.

Lemma skip_only_trans s1 s2 s3 : skip_only s1 s2 → skip_only s2 s3 → skip_only s1 s3.
Proof. intros [] []; constructor; congruence. Qed.

Lemma reads_ret {A} (a : A) : reads (ret a).
Proof. intros s. apply skip_only_refl. Qed.

Lemma reads_gets {A} (f : t → A) : reads (gets f).
Proof. intros s. apply skip_only_refl. Qed.

Lemma reads_raise {A} e : reads (@raise A e).
Proof. intros s. apply skip_only_refl. Qed.

Lemma reads_out_of_fuel {A} : reads (@out_of_fuel A).
Proof. by intros s. Qed.

Lemma reads_bind {A B} (m : M A) (k : A → M B) :
  reads m → (∀ a, reads (k a)) → reads (bind m k).
Proof.
  intros Hm Hk s. unfold bind. specialize (Hm s).
  destruct (m s) as [a s1|e s1|]; [|done..].
  specialize (Hk a s1). destruct (k a s1); [| |done]; by eapply skip_only_trans.
Qed.

Lemma reads_deref {A} (p : option A) : reads (deref p).
Proof. destruct p; [apply reads_ret | apply reads_raise]. Qed.

Lemma reads_lget {A} (f : ListNode.t → A) a : reads (lget f a).
Proof. apply reads_gets. Qed.

Lemma reads_fget {A} (f : FastNode.t → A) a : reads (fget f a).
Proof. apply reads_gets. Qed.

Lemma reads_set_current_skip v : reads (modify (set_current_skip v)).
Proof. intros s. by constructor. Qed.

Create HintDb reads discriminated.
#[local] Hint Resolve reads_ret reads_gets reads_raise reads_out_of_fuel
  reads_deref reads_lget reads_fget reads_set_current_skip : reads.

(** Follow the shape of a computation: split binds, branch on tests. *)
Ltac reads_step :=
  first
    [ solve [auto with reads]
    | apply reads_bind; [|intros ?]
    | match goal with
      | |- reads (if ?b then _ else _) => destruct b
      | |- reads (match ?x with _ => _ end) => destruct x
      end ].
Ltac reads_auto := repeat reads_step.

Lemma reads__get_dynamic_skip : reads _get_dynamic_skip.
Proof. unfold _get_dynamic_skip. reads_auto. Qed.
#[local] Hint Resolve reads__get_dynamic_skip : reads.

Lemma reads_steps link n cur : reads (steps link n cur).
Proof.
  revert cur. induction n as [|n IH]; intros [c|]; simpl; reads_auto.
Qed.
#[local] Hint Resolve reads_steps : reads.

Lemma reads__get_node_normal index : reads (_get_node_normal index).
Proof. unfold _get_node_normal. reads_auto. Qed.
#[local] Hint Resolve reads__get_node_normal : reads.

Lemma reads_walk_forward fuel index fast walked cur :
  reads (walk_forward fuel index fast walked cur).
Proof.
  revert fast walked cur.
  induction fuel as [|fuel IH]; intros fast walked cur; simpl; reads_auto.
Qed.

Lemma reads_walk_backward fuel index fast walked cur :
  reads (walk_backward fuel index fast walked cur).
Proof.
  revert fast walked cur.
  induction fuel as [|fuel IH]; intros fast walked cur; simpl; reads_auto.
Qed.
#[local] Hint Resolve reads_walk_forward reads_walk_backward : reads.

Lemma reads_get_node fuel index : reads (get_node fuel index).
Proof. unfold get_node. reads_auto. Qed.
#[local] Hint Resolve reads_get_node : reads.

Lemma reads_get fuel index : reads (get fuel index).
Proof. unfold get. reads_auto. Qed.

(** With budget enough for the anchor chain, [get_node] returns a result
    at every valid index. *)
Lemma walk_forward_returns k index s fast walked cur :
  ends_forward k s fast = true →
  ∃ w, walk_forward k index fast walked cur s = Ok w s.
Proof.
  revert fast walked cur. induction k as [|k IH]; intros [f|] walked cur; simpl;
    unfold bind, gets, fget, ret; simpl; eauto.
  - destruct (FastNode.next (fnode s f)) as [n|]; eauto.
    case_bool_decide; simpl; eauto. done.
  - destruct (FastNode.next (fnode s f)) as [n|]; eauto.
    case_bool_decide; simpl; eauto. intros Hk.
    destruct (_ >? _); eauto.
    destruct (FastNode.target (fnode s n)); eauto.
Qed.

Lemma walk_backward_returns k index s fast walked cur :
  ends_backward k s fast = true →
  ∃ w, walk_backward k index fast walked cur s = Ok w s.
Proof.
  revert fast walked cur. induction k as [|k IH]; intros [f|] walked cur; simpl;
    unfold bind, gets, fget, ret; simpl; eauto.
  - destruct (FastNode.prev (fnode s f)) as [n|]; eauto.
    case_bool_decide; simpl; eauto. done.
  - destruct (FastNode.prev (fnode s f)) as [n|]; eauto.
    case_bool_decide; simpl; eauto. intros Hk.
    destruct (_ <? _); eauto.
    destruct (FastNode.target (fnode s n)); eauto.
Qed.

Lemma steps_returns link n cur s : ∃ r, steps link n cur s = Ok r s.
Proof.
  revert cur. induction n as [|n IH]; intros [c|]; simpl; unfold ret; eauto.
  unfold bind, lget, gets. apply IH.
Qed.

Lemma _get_node_normal_returns index s :
  0 ≤ index < size s → ∃ r, _get_node_normal index s = Ok r s.
Proof.
  intros H. unfold _get_node_normal, bind, gets.
  replace (index <? 0) with false by lia.
  replace (index >=? size s) with false by lia.
  simpl. destruct (_ <=? _); apply steps_returns.
Qed.

Lemma ends_forward_skip k v s f :
  ends_forward k (set_current_skip v s) f = ends_forward k s f.
Proof.
  revert f. induction k as [|k IH]; intros [a|]; simpl; try done.
  all: unfold fnode; simpl; destruct (FastNode.next _); try done. by rewrite IH.
Qed.

Lemma ends_backward_skip k v s f :
  ends_backward k (set_current_skip v s) f = ends_backward k s f.
Proof.
  revert f. induction k as [|k IH]; intros [a|]; simpl; try done.
  all: unfold fnode; simpl; destruct (FastNode.prev _); try done. by rewrite IH.
Qed.

Lemma _get_dynamic_skip_eq s :
  _get_dynamic_skip s =
  Ok (dynamic_skip (size s) (current_skip s))
     (set_current_skip (skip_after (size s) (current_skip s)) s).
Proof.
  unfold _get_dynamic_skip, dynamic_skip, skip_after, bind, gets, modify, ret.
  destruct s as [? ? ? ? sz ? ? ? ? cs ?]. cbv beta iota delta [size current_skip].
  destruct (sz <=? 1); [reflexivity|]. destruct (2 * sz >? 3 * cs); reflexivity.
Qed.


(** C10. [get_node(i)] and [get(i)], at any index and however they end,
    leave the stores of list nodes and of anchors (so every value, link,
    target and gap), [head], [tail], [size], the sentinels, [fast_count],
    [pending_gap] and [ops_since_rebalance] as they were: [current_skip] is
    the only field of the container they can change. *)
Theorem get_changes_current_skip_only fuel index :
  reads (get_node fuel index) ∧ reads (get fuel index).
Proof. split; [apply reads_get_node | apply reads_get]. Qed.

(** For instance on the 26-element list with its one anchor: three links
    of budget are enough, and [get_node(13)], which walks the fast lane,
    returns the node holding 13. *)
Example get_node_budget :
  (λ s, (ends_forward 3 s (fast_head s), ends_backward 3 s (fast_tail s),
         match get_node 3 13 s with
         | Ok (Some n) _ => Some (ListNode.data (lnode s n))
         | _ => None
         end))
    <$> run 0 (adds 0 26) __init__
  = Some (true, true, Some (Some 13)).
Proof. vm_compute. reflexivity. Qed.

(** The exception is real: after 26 appends and 12 insertions at the head
    the container holds 38 elements with [current_skip] still 25, and a
    [get] lowers it to 6. *)
Example get_lowers_current_skip :
  let ops := adds 0 26 ++ replicate 12 (Insert 0 (Some 7)) in
  (λ s, (current_skip s, match get 100 5 s with
                         | Ok v s' => Some (v, current_skip s')
                         | _ => None
                         end)) <$> run 100 ops __init__
  = Some (25, Some (Some 7, 6)).
Proof. vm_compute. reflexivity. Qed.

(** ** [clear] *)

Lemma clear_spec s : clear s = Ok tt (cleared s).
Proof. reflexivity. Qed.

(** C8. [clear()] always returns, and a second [clear()] returns the very
    state the first one left: no element ([head], [tail] are [None], size
    0), no fast lane, [pending_gap] 0, the operation counter 0 and the skip
    distance at [MIN_SKIP]. *)
Theorem clear_idempotent s :
  ∃ s1, clear s = Ok tt s1 ∧ clear s1 = Ok tt s1 ∧
        head s1 = None ∧ tail s1 = None ∧ size s1 = 0 ∧
        fast_head s1 = None ∧ fast_tail s1 = None ∧ fast_count s1 = 0 ∧
        pending_gap s1 = 0 ∧ ops_since_rebalance s1 = 0 ∧
        current_skip s1 = MIN_SKIP.
Proof. exists (cleared s). by rewrite !clear_spec. Qed.

(** ** [remove] of [None] *)

(** C9. [remove(None)] returns [False] and changes nothing, whatever the
    list holds. *)
Theorem remove_None fuel s : remove fuel None s = Ok false s.
Proof. unfold remove, bind, gets. by destruct (head s). Qed.

(** In particular a stored [None] stays where it is. *)
Example remove_None_stored :
  ∃ s, run 10 [Add (Some 1); Add None; Add (Some 2)] __init__ = Some s ∧
       to_list 10 s = [Some 1; None; Some 2] ∧
       remove 10 None s = Ok false s.
Proof. eexists. split; [vm_compute; reflexivity|]. split; reflexivity. Qed.

(** ** Initialising the fast lane *)

(** [_init_fast_layer] does nothing on an empty list or when a fast lane
    exists. *)
Lemma _init_fast_layer_skips s :
  head s = None ∨ fast_head s ≠ None → _init_fast_layer s = Ok tt s.
Proof.
  unfold _init_fast_layer, bind, gets.
  intros [->| H]; [done|]. destruct (head s); [|done]. by destruct (fast_head s).
Qed.

(** C4, as the code has it.  On a list with a head [h] and a tail [tl] and
    no fast lane, [_init_fast_layer] returns and has created the two
    sentinels, on [h] and on [tl], linked to each other, with
    [fast_count = 2]; the head sentinel's gap is 0, and the tail sentinel's
    gap is 0 when [h] and [tl] are the same node (the one-element list) and
    [max(1, size - 1)] only otherwise. *)
Theorem init_fast_layer_sentinels s h tl :
  head s = Some h → tail s = Some tl → fast_head s = None →
  ∃ s', _init_fast_layer s = Ok tt s' ∧ sentinels_created s h tl s'.
Proof.
  intros Hh Htl Hfh.
  unfold _init_fast_layer, _update_tail_fast, _clear_fast_layer. run_monad. cbn.
  rewrite Hh, Hfh. cbn. rewrite Htl. cbn.
  rewrite !length_snoc, !snoc_snoc, alter_new_snd, alter_new_fst, alter_new_snd,
    lookup_new_fst, lookup_new_snd. cbn.
  eexists. split; [reflexivity|]. unfold sentinels_created. cbn.
  rewrite Hh, Htl. repeat split. repeat f_equal.
  destruct (decide (h = tl)) as [->|];
    [by rewrite decide_True | by rewrite decide_False by congruence].
Qed.

Lemma init_fast_layer_sentinels_witness :
  (head (first_node (Some 5)) = Some 0%nat ∧
   tail (first_node (Some 5)) = Some 0%nat ∧
   fast_head (first_node (Some 5)) = None) ∧
  ∃ s', _init_fast_layer (first_node (Some 5)) = Ok tt s' ∧
        sentinels_created (first_node (Some 5)) 0 0 s'.
Proof.
  split; [by repeat split|].
  apply (init_fast_layer_sentinels (first_node (Some 5)) 0 0); reflexivity.
Defined.

(** The other case, on three linked nodes without a fast lane: the tail
    sentinel gets gap [max(1, 3 - 1) = 2]. *)
Example init_fast_layer_on_three_nodes :
  let n d p n := ListNode.mk (Some d) p n None in
  let s := mk [n 7 None (Some 1%nat); n 8 (Some 0%nat) (Some 2%nat); n 9 (Some 1%nat) None]
              [] (Some 0%nat) (Some 2%nat) 3 None None 0 0 MIN_SKIP 0 in
  (λ s', (fast_head s', fast_tail s', fast_count s', fnodes s'))
    <$> after (_init_fast_layer s)
  = Some (Some 0%nat, Some 1%nat, 2,
          [FastNode.mk (Some 0%nat) None (Some 1%nat) 0;
           FastNode.mk (Some 2%nat) (Some 0%nat) None 2]).
Proof. vm_compute. reflexivity. Qed.

(** On the first [add] the list has one element, so [max(1, size - 1)] is
    1, and the tail sentinel gets gap 0. *)
Lemma first_add_tail_gap_is_zero :
  (λ s, (size s, fast_tail s, FastNode.gap (fnode s 1), Z.max 1 (size s - 1)))
    <$> after (add (Some 5) __init__)
  = Some (1, Some 1%nat, 0, 1).
Proof. vm_compute. reflexivity. Qed.

(** ** [add] on a non-empty list *)

Lemma add_on_fast_lane s v h tl ft p :
  head s = Some h → tail s = Some tl → (tl < length (nodes s))%nat →
  fast_tail s = Some ft → (ft < length (fnodes s))%nat →
  FastNode.prev (fnode s ft) = Some p → (p < length (fnodes s))%nat →
  ∃ s', add v s = Ok tt s' ∧ appended s v tl ft p s' ∧ anchors_framed s ft p s'.
Proof.
  intros Hh Htl Htlv Hft Hftv Hp Hpv.
  destruct (lookup_lt_is_Some_2 _ _ Htlv) as [tln Htln].
  destruct (lookup_lt_is_Some_2 _ _ Hftv) as [ftn Hftn].
  destruct (lookup_lt_is_Some_2 _ _ Hpv) as [pn Hpn].
  unfold fnode in Hp. rewrite Hftn in Hp. cbn in Hp.
  unfold appended, anchors_framed, add, _update_tail_fast, _append_fast.
  run_monad. sred.
  rewrite Hh. sred. rewrite Htl. sred. rewrite Hft. sred.
  rewrite _get_dynamic_skip_eq. sred. store_norm.
  destruct (pending_gap s + 1 >=? _) eqn:Hpg; sred.
  - (* the old tail is promoted *)
    exec_with ltac:(first [rewrite Hft | rewrite Hftn | rewrite Hp]).
    eexists. split; [reflexivity|]. cbn.
    exec_with ltac:(rewrite Hft). rewrite Htln. cbn.
    rewrite !length_snoc, ?length_alter.
    destruct (decide (p = ft)) as [->|Hne].
    + exec_with ltac:(rewrite Hftn).
      repeat split; try done; intros; read_store.
    + exec_with ltac:(first [rewrite Hftn | rewrite Hpn]).
      repeat split; try done; intros; read_store.
  - (* the tail sentinel's gap grows *)
    exec_with ltac:(first [rewrite Hft | rewrite Hftn | rewrite Hp]).
    eexists. split; [reflexivity|]. cbn.
    exec_with ltac:(first [rewrite Hft | rewrite Hftn | rewrite Htln]).
    rewrite !length_snoc, ?length_alter.
    repeat split; try done; intros; read_store.
Qed.

(** On a non-empty list with its fast lane ([tl] the tail, [ft] the
    tail sentinel, [p] the anchor before it), [add(v)] returns, having
    linked a new node holding [v] after [tl] and made it the tail, with
    [size] one more and every other node's value and [prev] as before;
    re-pointed the tail sentinel to it; and incremented [pending_gap].  If
    the incremented [pending_gap] reaches the distance [_get_dynamic_skip]
    returns, [tl] has become the target of a new anchor between [p] and
    [ft] with gap [pending_gap - 1], and the tail sentinel's gap and
    [pending_gap] are 1; otherwise no anchor is created and the tail
    sentinel's gap is the incremented [pending_gap].  The distance is the
    program's while the incremented [size] and [current_skip] are
    [float_exact]. *)
Lemma add_appends s v h tl ft p :
  float_exact (size s + 1) (current_skip s) →
  head s = Some h → tail s = Some tl → (tl < length (nodes s))%nat →
  fast_tail s = Some ft → (ft < length (fnodes s))%nat →
  FastNode.prev (fnode s ft) = Some p → (p < length (fnodes s))%nat →
  ∃ s', add v s = Ok tt s' ∧ appended s v tl ft p s'.
Proof.
  intros _ Hh Htl Htlv Hft Hftv Hp Hpv.
  destruct (add_on_fast_lane s v h tl ft p) as (s' & Hadd & Happ & _); eauto.
Qed.

(** The 26th append: [pending_gap] reaches 25, the node of index 24 is
    promoted with gap 24. *)
Lemma add_appends_witness :
  (float_exact (size twenty_five + 1) (current_skip twenty_five) ∧
   head twenty_five = Some 0%nat ∧ tail twenty_five = Some 24%nat ∧
   (24 < length (nodes twenty_five))%nat ∧
   fast_tail twenty_five = Some 1%nat ∧ (1 < length (fnodes twenty_five))%nat ∧
   FastNode.prev (fnode twenty_five 1) = Some 0%nat ∧
   (0 < length (fnodes twenty_five))%nat) ∧
  ∃ s', add (Some 25) twenty_five = Ok tt s' ∧
        appended twenty_five (Some 25) 24 1 0 s'.
Proof.
  assert (Hx : float_exact (size twenty_five + 1) (current_skip twenty_five))
    by (vm_compute; repeat split; intros H; discriminate H).
  split; [split; [exact Hx|by vm_compute; repeat split; lia]|].
  apply (add_appends twenty_five (Some 25) 0 24 1 0 Hx);
    first [reflexivity | vm_compute; lia].
Defined.

(** What the 26th append leaves. *)
Example twenty_sixth_add :
  (λ s, (size s, pending_gap s, fast_count s, anchors 10 s,
         (λ a, FastNode.gap (fnode s a)) <$> anchors 10 s,
         (λ a, FastNode.target (fnode s a)) <$> anchors 10 s))
    <$> after (add (Some 25) twenty_five)
  = Some (26, 1, 3, [0; 2; 1]%nat, [0; 24; 1], [Some 0; Some 24; Some 25]%nat).
Proof. vm_compute. reflexivity. Qed.

(** ** Sequences of [add] and [clear] *)

(** The first [add], on a container without a head and without a fast
    lane. *)
Lemma add_first s v :
  head s = None → fast_head s = None →
  let node := length (nodes s) in
  let fh := length (fnodes s) in
  let ft := S fh in
  ∃ s', add v s = Ok tt s' ∧
    head s' = Some node ∧ tail s' = Some node ∧ size s' = 1 ∧ pending_gap s' = 0 ∧
    nodes s' = nodes s ++ [ListNode.mk v None None (Some ft)] ∧
    fast_head s' = Some fh ∧ fast_tail s' = Some ft ∧ fast_count s' = 2 ∧
    fnodes s' = fnodes s ++ [FastNode.mk (Some node) None (Some ft) 0;
                             FastNode.mk (Some node) (Some fh) None 0].
Proof.
  intros Hh Hfh.
  unfold add, _init_fast_layer, _update_tail_fast, _clear_fast_layer. run_monad. cbn.
  rewrite Hh. cbn. rewrite Hfh. cbn.
  rewrite !length_snoc, !snoc_snoc, alter_new_snd, alter_new_fst, alter_new_snd,
    lookup_new_fst, lookup_new_snd. cbn.
  rewrite decide_True by done.
  rewrite !(alter_snoc _ _ _ _ eq_refl). cbn.
  eexists. split; [reflexivity|]. by cbn.
Qed.

Lemma rpath_frame s s' b l :
  (∀ a, a ∈ l → fnode s' a = fnode s a) → rpath s b l → rpath s' b l.
Proof.
  revert b. induction l as [|a l IH]; intros b Hfr; [done|]. simpl. intros [Ha Hl].
  split; [by rewrite Hfr by left|]. apply IH; [|done]. intros; apply Hfr; by right.
Qed.

Lemma rchain_frame s s' nxt l :
  (∀ a, a ∈ l → lnode s' a = lnode s a) → rchain s nxt l → rchain s' nxt l.
Proof.
  revert nxt. induction l as [|a l IH]; intros b Hfr; [done|]. simpl. intros [Ha Hl].
  split; [by rewrite Hfr by left|]. apply IH; [|done]. intros; apply Hfr; by right.
Qed.

Lemma fmap_frame {B} (f g : nat → B) (l : list nat) :
  (∀ a, a ∈ l → f a = g a) → f <$> l = g <$> l.
Proof.
  induction l as [|a l IH]; intros H; [done|]. cbn.
  rewrite H by left. f_equal. apply IH. intros; apply H; by right.
Qed.

Lemma gaps_frame s s' l :
  (∀ a, a ∈ l → fnode s' a = fnode s a) → gaps s' l = gaps s l.
Proof.
  intros H. unfold gaps. f_equal. apply fmap_frame. intros a Ha. by rewrite H.
Qed.

Lemma gaps_app s l1 l2 : gaps s (l1 ++ l2) = gaps s l1 + gaps s l2.
Proof.
  unfold gaps. induction l1 as [|a l1 IH]; cbn; [done|]. rewrite IH. lia.
Qed.

Lemma gaps_reverse s l : gaps s (reverse l) = gaps s l.
Proof.
  induction l as [|a l IH]; [done|]. rewrite reverse_cons, gaps_app, IH.
  unfold gaps. cbn. lia.
Qed.

(** Walking forward from the far end of a reversed path visits it in
    order. *)
Lemma anchors_from_rpath s ft b l k :
  fast_tail s = Some ft → ft ∉ l → l ≠ [] → rpath s b l →
  anchors_from (k + length l) s (last l) = reverse l ++ anchors_from k s (Some b).
Proof.
  intros Hft. revert b k.
  induction l as [|a l IH]; intros b k Hnot Hne Hp; [done|].
  destruct Hp as [Ha Hl].
  assert (Some a ≠ Some ft) by (intros [= ->]; apply Hnot; left).
  destruct l as [|a' l].
  - cbn. rewrite Nat.add_1_r. cbn. rewrite Hft, decide_False by done. by rewrite Ha.
  - rewrite last_cons_cons, reverse_cons, <-app_assoc. cbn [app].
    change (length (a :: a' :: l)) with (S (length (a' :: l))).
    rewrite Nat.add_succ_r, <-Nat.add_succ_l.
    rewrite (IH a (S k)); [|by intros ?; apply Hnot; right|done|done].
    f_equal. cbn. rewrite Hft, decide_False by done. by rewrite Ha.
Qed.

Lemma values_from_rchain s nxt l k :
  l ≠ [] → rchain s nxt l →
  values_from (k + length l) s (last l) =
  ((λ a, ListNode.data (lnode s a)) <$> reverse l) ++ values_from k s nxt.
Proof.
  revert nxt k. induction l as [|a l IH]; intros nxt k Hne Hp; [done|].
  destruct Hp as [Ha Hl].
  destruct l as [|a' l].
  - cbn. rewrite Nat.add_1_r. cbn. by rewrite Ha.
  - rewrite last_cons_cons, reverse_cons, fmap_app, <-app_assoc. cbn [app fmap list_fmap].
    change (length (a :: a' :: l)) with (S (length (a' :: l))).
    rewrite Nat.add_succ_r, <-Nat.add_succ_l.
    rewrite (IH (Some a) (S k)); [|done|done].
    f_equal. cbn. by rewrite Ha.
Qed.

Lemma built_init : built __init__ [].
Proof. by left. Qed.

Lemma built_cleared s : built (cleared s) [].
Proof. by left. Qed.

(** [add] keeps a container well built, with the value at the end. *)
Lemma built_add s vs v :
  built s vs → ∃ s', add v s = Ok tt s' ∧ built s' (vs ++ [v]).
Proof.
  intros [(Hh & Hfh & Hsz & Hfc & ->)|(tl & nrest & ft & p & rest & Hpr & Hfl)].
  - destruct (add_first s v Hh Hfh)
      as (s' & Hadd & Hh' & Htl' & Hsz' & Hpg' & Hn' & Hfh' & Hft' & Hfc' & Hfn').
    exists s'. split; [done|]. right.
    exists (length (nodes s)), [], (S (length (fnodes s))), (length (fnodes s)), [].
    split.
    + constructor; try done.
      * cbn. unfold lnode. by rewrite Hn', list_lookup_middle.
      * apply NoDup_singleton.
      * rewrite Hn', length_snoc. repeat constructor.
      * cbn. unfold lnode. by rewrite Hn', list_lookup_middle.
    + constructor; try done.
      * unfold fnode. by rewrite Hfn', lookup_new_snd.
      * cbn. unfold fnode. by rewrite Hfn', lookup_new_fst.
      * apply NoDup_cons. split; [|apply NoDup_singleton].
        rewrite list_elem_of_singleton. lia.
      * rewrite Hfn', length_app. repeat constructor; simpl; lia.
      * unfold fnode. rewrite Hfn', lookup_new_snd. by rewrite Hpg'.
      * unfold gaps, fnode. cbn. rewrite Hfn', lookup_new_snd, lookup_new_fst. cbn. lia.
  - destruct Hpr as [Htl Hh Hchain Hnnd Hnval Hvals Hsz].
    destruct Hfl as [Hft Hfh Hpv Hpath Hnd Hval Hgap Hsum Hcnt].
    destruct (last (tl :: nrest)) as [h|] eqn:Hlast; [|by apply last_None in Hlast].
    apply Forall_cons in Hval as [Hftv Hval].
    pose proof Hval as [Hpval Hrest]%Forall_cons.
    apply NoDup_cons in Hnd as [Hftnot Hnd].
    pose proof Hnd as [Hpnot _]%NoDup_cons.
    pose proof Hnval as [Htlv Hnrest]%Forall_cons.
    pose proof Hnnd as [Htlnot _]%NoDup_cons.
    assert (Hpft : p ≠ ft) by (intros ->; apply Hftnot; left).
    destruct (add_on_fast_lane s v h tl ft p Hh Htl Htlv Hft Hftv Hpv Hpval)
      as (s' & Hadd & Hap & Hfr).
    exists s'. split; [done|].
    destruct Hap as (Hh' & Htl' & Hsz' & Hnode & Hnext & Hdata & Hkeep &
                     Hfh' & Hft' & Htg & Hcase).
    destruct Hfr as (Hlen & Hfr).
    assert (Hnfresh : ∀ a, a ∈ tl :: nrest → a ≠ length (nodes s)).
    { intros a Ha. rewrite Forall_forall in Hnval. specialize (Hnval a Ha). lia. }
    assert (Hffresh : ∀ a, a ∈ p :: rest → a ≠ length (fnodes s)).
    { intros a Ha. rewrite Forall_forall in Hval. specialize (Hval a Ha). lia. }
    right. exists (length (nodes s)), (tl :: nrest), ft.
    assert (Hprim : primary s' (vs ++ [v]) (length (nodes s)) (tl :: nrest)).
    { constructor.
      * done.
      * rewrite last_cons_cons. congruence.
      * cbn. rewrite Hnode. cbn. split; [done|]. split; [done|].
        destruct Hchain as [_ Hchain]. eapply rchain_frame; [|done].
        intros a Ha. apply Hkeep; [apply Hnfresh; by right|]. by intros ->.
      * apply NoDup_cons. split; [|done]. intros Hin. by apply Hnfresh in Hin.
      * rewrite Hlen. apply Forall_cons. split; [lia|].
        eapply Forall_impl; [exact Hnval|]. cbn. lia.
      * rewrite reverse_cons, fmap_app. cbn. rewrite Hnode. cbn. f_equal.
        rewrite <-Hvals. apply fmap_frame. intros a Ha. rewrite elem_of_reverse in Ha.
        apply Hdata. by apply Hnfresh.
      * rewrite Hsz', Hsz. cbn [length]. lia. }
    destruct (pending_gap s + 1 >=? _).
    + (* a new anchor, between [p] and the tail sentinel *)
      exists (length (fnodes s)), (p :: rest). split; [done|].
      destruct Hcase as (Hfn & Hpn & Hftp & _ & Hfc' & Hg1 & Hpg1).
      destruct Hfr as (Hflen & Hfr1 & Hfr2).
      assert (Hkeepf : ∀ a, a ∈ rest → fnode s' a = fnode s a).
      { intros a Ha. apply Hfr1; [by intros ->|intros ->; apply Hftnot; by right|].
        apply Hffresh. by right. }
      constructor.
      * done.
      * rewrite last_cons_cons. congruence.
      * done.
      * cbn. rewrite Hfn. cbn. split; [done|]. split; [done|].
        destruct Hpath as [_ Hpath]. by eapply rpath_frame.
      * apply NoDup_cons. split; [|apply NoDup_cons; split; [|done]].
        -- intros [->|Hin]%elem_of_cons; [lia|done].
        -- intros Hin. by apply Hffresh in Hin.
      * rewrite Hflen. apply Forall_cons. split; [lia|]. apply Forall_cons. split; [lia|].
        eapply Forall_impl; [exact Hval|]. cbn. lia.
      * congruence.
      * unfold gaps in *. cbn in *. rewrite Hg1, Hfn. cbn. rewrite (Hfr2 Hpft).
        fold (gaps s' rest). fold (gaps s rest) in Hsum.
        rewrite (gaps_frame s s' rest) by done. lia.
      * rewrite Hfc', Hcnt. cbn [length]. lia.
    + (* the same anchors, one more step to the tail *)
      exists p, rest. split; [done|].
      destruct Hcase as (Hflen & Hfc' & Hg & Hpg').
      destruct Hfr as (Hfr1 & Hfr2).
      assert (Hkeepf : ∀ a, a ∈ p :: rest → fnode s' a = fnode s a).
      { intros a Ha. apply Hfr1. by intros ->. }
      constructor; try done.
      * congruence.
      * congruence.
      * by eapply rpath_frame.
      * by apply NoDup_cons.
      * rewrite Hflen. by apply Forall_cons.
      * congruence.
      * unfold gaps in *. cbn in *. rewrite Hg.
        fold (gaps s' rest). fold (gaps s rest) in Hsum.
        rewrite (Hkeepf p) by left.
        rewrite (gaps_frame s s' rest) by (intros; apply Hkeepf; by right). lia.
      * congruence.
Qed.

Lemma built_run fuel ops s vs :
  built s vs → Forall add_or_clear ops →
  ∃ s', run fuel ops s = Some s' ∧ built s' (ref_run ops vs).
Proof.
  intros Hb Hops. revert s vs Hb.
  induction Hops as [|o ops Ho _ IH]; intros s vs Hb; [by exists s|].
  change (run fuel (o :: ops) s) with (run_op fuel o s ≫= run fuel ops).
  change (ref_run (o :: ops) vs) with (ref_run ops (ref_op o vs)).
  destruct o as [v| | | |]; try done; unfold run_op.
  - destruct (built_add s vs v Hb) as (s' & -> & Hb'). by apply IH.
  - rewrite clear_spec. apply IH, built_cleared.
Qed.

(** What a well-built container guarantees. *)
Lemma built_facts s vs :
  built s vs →
  size s = Z.of_nat (length vs) ∧
  to_list (length vs) s = vs ∧
  (fast_count s = 0 ↔ size s = 0) ∧
  (1 ≤ size s →
   2 ≤ fast_count s ∧ gap_sum (Z.to_nat (fast_count s)) s = size s - 1).
Proof.
  intros [(Hh & Hfh & Hsz & Hfc & ->)|(tl & nrest & ft & p & rest & Hpr & Hfl)].
  - repeat split; try done; lia.
  - destruct Hpr as [Htl Hh Hchain Hnnd Hnval Hvals Hsz].
    destruct Hfl as [Hft Hfh Hpv Hpath Hnd Hval Hgap Hsum Hcnt].
    assert (Hlen : length vs = length (tl :: nrest)).
    { by rewrite <-Hvals, length_fmap, length_reverse. }
    split; [by rewrite Hlen|]. split.
    { unfold to_list. rewrite Hlen, Hh.
      change (length (tl :: nrest)) with (0 + length (tl :: nrest))%nat.
      rewrite (values_from_rchain s None (tl :: nrest) 0); [|done|done].
      cbn [values_from]. by rewrite app_nil_r. }
    cbn [length] in Hsz, Hcnt. split; [lia|]. intros _. split; [lia|].
    unfold gap_sum, anchors. rewrite Hfh, Hcnt.
    replace (Z.to_nat (Z.of_nat (S (length rest)) + 1)) with (1 + length (p :: rest))%nat
      by (cbn [length]; lia).
    apply NoDup_cons in Hnd as [Hftnot _].
    rewrite (anchors_from_rpath s ft ft (p :: rest) 1); [|done..].
    cbn [anchors_from]. rewrite Hft, decide_True by done.
    fold (gaps s (reverse (p :: rest) ++ [ft])).
    rewrite gaps_app, gaps_reverse, <-Hsum. unfold gaps. cbn. lia.
Qed.

(** X1. Whatever sequence of [add] and [clear] is run on a new container, every
    call returns and the container then agrees with the reference sequence
    in length and in content; [fast_count] is 0 exactly when it is empty,
    and otherwise is at least 2 with the gaps of the anchors, from the head
    sentinel to the tail sentinel, summing to [size - 1]. *)
Theorem add_clear_sequences fuel ops :
  Forall add_or_clear ops →
  ∃ s, run fuel ops __init__ = Some s ∧
       let vs := ref_run ops [] in
       size s = Z.of_nat (length vs) ∧
       to_list (length vs) s = vs ∧
       (fast_count s = 0 ↔ size s = 0) ∧
       (1 ≤ size s →
        2 ≤ fast_count s ∧ gap_sum (Z.to_nat (fast_count s)) s = size s - 1).
Proof.
  intros Hops.
  destruct (built_run fuel ops __init__ [] built_init Hops) as (s & Hrun & Hb).
  exists s. split; [done|]. by apply built_facts.
Qed.

(** ** Gap bookkeeping under mutation *)

(** C2. Every node keeps the back-reference to the tail sentinel it got
    when it was the tail.  [remove(value)] takes such a node for an
    anchor's target, calls [_remove_fast] on the sentinel, which returns at
    once, and skips the decrement of the gap: after [add(0)], [add(1)],
    [add(2)], [remove(1)] the list holds 2 elements and the gaps sum to 2,
    not to [size - 1 = 1].  [remove_at(1)], which tells a sentinel's
    back-reference from an anchor's, leaves the sum at 1. *)
Theorem gap_sum_kept_by_remove :
  let ops := [Add (Some 0); Add (Some 1); Add (Some 2)] in
  (λ s, (to_list 10 s, size s, anchors 10 s, gap_sum 10 s))
    <$> run 10 (ops ++ [Remove (Some 1)]) __init__
  = Some ([Some 0; Some 2], 2, [0; 1]%nat, 2) ∧
  (λ s, (to_list 10 s, size s, anchors 10 s, gap_sum 10 s))
    <$> run 10 (ops ++ [RemoveAt 1]) __init__
  = Some ([Some 0; Some 2], 2, [0; 1]%nat, 1).
Proof. vm_compute. auto. Qed.

(** [insert(0, x)] adds 1 to the gap of the anchor after the head sentinel
    but leaves [pending_gap] alone, and the next [add] overwrites the tail
    sentinel's gap with [pending_gap]: 4 elements, gaps summing to 2. *)
Example gap_sum_lost_after_head_insert :
  (λ s, (to_list 10 s, size s, anchors 10 s, gap_sum 10 s, pending_gap s))
    <$> run 10 [Add (Some 0); Add (Some 1); Insert 0 (Some 9); Add (Some 2)] __init__
  = Some ([Some 9; Some 0; Some 1; Some 2], 4, [0; 1]%nat, 2, 2).
Proof. vm_compute. reflexivity. Qed.

(** Before the last [add] the sum is still right. *)
Example gap_sum_before_the_add :
  (λ s, (size s, gap_sum 10 s, pending_gap s))
    <$> run 10 [Add (Some 0); Add (Some 1); Insert 0 (Some 9)] __init__
  = Some (3, 2, 1).
Proof. vm_compute. reflexivity. Qed.

(** [remove_at] of an anchor's target folds the anchor's gap into the next
    one twice, once itself and once in [_remove_fast]: 27 appends put an
    anchor of gap 24 on index 24 and a gap of 2 on the tail sentinel;
    removing index 24 leaves 26 elements and a single gap of
    [2 + 23 + 24 = 49]. *)
Example gap_sum_folded_twice :
  (λ s, (size s, fast_count s, gap_sum 100 s))
    <$> run 100 (adds 0 27 ++ [RemoveAt 24]) __init__
  = Some (26, 2, 49).
Proof. vm_compute. reflexivity. Qed.

(** The floor of 1 on a decremented gap: one element left, gap 1. *)
Example gap_floor_on_head_removal :
  (λ s, (to_list 10 s, size s, gap_sum 10 s))
    <$> run 10 [Add (Some 0); Add (Some 1); RemoveAt 0] __init__
  = Some ([Some 1], 1, 1).
Proof. vm_compute. reflexivity. Qed.

(** ** Positional reads against the reference sequence *)

(** C1. 26 appends create an anchor on index 24 (gap 24); [remove_at(25)]
    makes that node the tail, and the tail sentinel now shares its target
    with the anchor while keeping gap 1.  The backward walk of [get(23)]
    steps from the sentinel to the anchor, counts one position for it and
    returns the node of index 24: the container answers 24 where the
    primary list and the reference sequence hold 23. *)
Theorem get_differs_from_reference :
  let ops := adds 0 26 ++ [RemoveAt 25] in
  (λ s, (size s, to_list 100 s !! 23%nat, outcome (get 100 23 s)))
    <$> run 100 ops __init__
  = Some (25, Some (Some 23), Some (inl (Some 24))) ∧
  length (ref_run ops []) = 25%nat ∧
  ref_run ops [] !! 23%nat = Some (Some 23).
Proof. vm_compute. auto. Qed.

(** With the gap lost by a head insertion, [remove(1)] scans one node of
    the only chunk, misses the 1 at index 2 and returns [False]; the
    reference sequence has dropped it. *)
Example remove_misses_a_present_value :
  let ops := [Add (Some 0); Add (Some 1); Insert 0 (Some 9); Add (Some 2)] in
  (λ s, (outcome (remove 10 (Some 1) s),
         (λ s', (size s', to_list 10 s')) <$> after (remove 10 (Some 1) s)))
    <$> run 10 ops __init__
  = Some (Some (inl false), Some (4, [Some 9; Some 0; Some 1; Some 2])) ∧
  ref_run (ops ++ [Remove (Some 1)]) [] = [Some 9; Some 0; Some 2].
Proof. vm_compute. auto. Qed.

(** The demo of the source file: [add(0)] ... [add(99)], [insert(50, 999)],
    [remove_at(50)], [remove(42)], with the results it prints. *)
Example demo_results :
  let value_at s i := outcome (get 100 i s) in
  (λ s, (size s, value_at s 0, value_at s 99, value_at s 50))
    <$> run 100 (adds 0 100) __init__
  = Some (100, Some (inl (Some 0)), Some (inl (Some 99)), Some (inl (Some 50))) ∧
  (λ s, (size s, value_at s 50, value_at s 51))
    <$> run 100 (adds 0 100 ++ [Insert 50 (Some 999)]) __init__
  = Some (101, Some (inl (Some 999)), Some (inl (Some 50))) ∧
  (λ s, (size s, value_at s 50, outcome (remove 100 (Some 42) s)))
    <$> run 100 demo_ops __init__
  = Some (100, Some (inl (Some 50)), Some (inl true)) ∧
  (λ s, (size s, bool_decide (Some 42 ∈ to_list 100 s)))
    <$> run 100 (demo_ops ++ [Remove (Some 42)]) __init__
  = Some (99, false).
Proof. vm_compute. auto. Qed.

(** After the demo the anchor of the node holding 48 still counts 48
    positions from the head, one too many since [remove(42)]: [get(48)]
    returns 48 where the list holds 49. *)
Example get_after_the_demo :
  (λ s, (to_list 100 s !! 48%nat, outcome (get 100 48 s), size s, gap_sum 100 s))
    <$> run 100 (demo_ops ++ [Remove (Some 42)]) __init__
  = Some (Some (Some 49), Some (inl (Some 48)), 99, 99).
Proof. vm_compute. reflexivity. Qed.

(** ** Exceptions other than [IndexError] *)

(** An index out of range raises [IndexError] and changes nothing;
    [len()] always returns. *)
Lemma get_node_out_of_range fuel index s :
  index < 0 ∨ size s ≤ index → get_node fuel index s = Raise IndexError s.
Proof.
  intros H. unfold get_node, bind, gets.
  by replace ((index <? 0) || (index >=? size s)) with true by lia.
Qed.

Lemma get_out_of_range fuel index s :
  index < 0 ∨ size s ≤ index → get fuel index s = Raise IndexError s.
Proof. intros H. unfold get, bind. by rewrite get_node_out_of_range. Qed.

Lemma insert_out_of_range fuel index v s :
  index < 0 ∨ size s < index → insert fuel index v s = Raise IndexError s.
Proof.
  intros H. unfold insert, bind, gets.
  by replace ((index <? 0) || (index >? size s)) with true by lia.
Qed.

Lemma remove_at_out_of_range fuel index s :
  index < 0 ∨ size s ≤ index → remove_at fuel index s = Raise IndexError s.
Proof.
  intros H. unfold remove_at, bind, gets.
  by replace ((index <? 0) || (index >=? size s)) with true by lia.
Qed.

Lemma len_returns s : __len__ s = Ok (size s) s.
Proof. done. Qed.

(** C3. [add(0)], 26 times [insert(0, 7)], then [add(1)] ... [add(25)]: the
    26 head insertions are lost from the gaps, each overwritten by the
    [add] that follows, so the anchor created by the last [add] sits on
    index 50 with gap 24.  The container holds 52 elements and index 26 is
    valid, yet the forward walk to it starts from the anchor, runs off the
    tail and yields [None]: [insert(26, 5)] and [remove_at(26)] raise
    [ValueError], [get(26)] raises [AttributeError]. *)
Theorem valid_index_raises_other_errors :
  let ops := [Add (Some 0)] ++ replicate 26 (Insert 0 (Some 7)) ++ adds 1 25 in
  (λ s, (size s, length (to_list 100 s),
         outcome (get_node 100 26 s),
         outcome (insert 100 26 (Some 5) s),
         outcome (remove_at 100 26 s),
         outcome (get 100 26 s)))
    <$> run 100 ops __init__
  = Some (52, 52%nat, Some (inl None),
          Some (inr ValueError), Some (inr ValueError), Some (inr AttributeError)).
Proof. vm_compute. reflexivity. Qed.

(** ** Anchors on removed nodes *)

(** [remove] compares the value with nodes it reaches through anchors.  When
    no node of the store holds the value, no comparison succeeds and nothing
    is changed. *)
Lemma search_plain_unheld fuel remaining current search_end fast s v :
  unheld s v → misses s (search_plain fuel remaining current search_end fast v s).
Proof.
  intros Hv. revert current.
  induction remaining as [|n IH]; intros current; simpl; [by left|].
  case_bool_decide; [by left|].
  destruct current as [c|]; [|by right; left].
  unfold bind, deref, ret, lget, gets. simpl.
  rewrite bool_decide_eq_false_2 by apply Hv. apply IH.
Qed.

Lemma _search_chunk_unheld fuel fast s v :
  unheld s v → misses s (_search_chunk fuel fast v s).
Proof.
  intros Hv. unfold _search_chunk. destruct fast as [f|]; [|by left].
  unfold bind, fget, lget, gets, ret. simpl.
  destruct (FastNode.next (fnode s f)) as [fnx|]; [|by left].
  destruct (FastNode.target (fnode s f)) as [tg|]; simpl.
  - rewrite bool_decide_eq_false_2 by apply Hv.
    destruct (bool_decide _ || bool_decide _); [by left|].
    by apply search_plain_unheld.
  - by left.
Qed.

Lemma remove_loop_unheld fuel s v front_fast back_fast front_idx back_idx :
  unheld s v →
  misses s (remove_loop fuel v front_fast back_fast front_idx back_idx s).
Proof.
  intros Hv. revert front_fast back_fast front_idx back_idx.
  induction fuel as [|fuel IH]; intros [ff|] [bf|] front_idx back_idx;
    cbn -[_search_chunk]; try (by left); unfold bind, fget, gets, ret;
    cbn -[_search_chunk].
  - destruct (_ && _ && _); [by right; right|by left].
  - destruct (_ && _ && _); [|by left].
    destruct (_search_chunk_unheld fuel (Some ff) s v Hv) as [->|[->| ->]];
      [|by right; left|by right; right].
    destruct (FastNode.next (fnode s ff)) as [n|]; cbn -[_search_chunk];
      [|by right; left].
    destruct (_ <? _); [|by apply IH].
    destruct (_search_chunk_unheld fuel (FastNode.prev (fnode s bf)) s v Hv)
      as [->|[->| ->]]; [|by right; left|by right; right].
    by apply IH.
Qed.

(** X8. When no node of the store holds [v], [remove(v)] removes nothing:
    it reports no match, or stops on a missing link or an exhausted budget,
    and the container is untouched. *)
Lemma remove_unheld fuel s v :
  unheld s v → misses s (remove fuel (Some v) s).
Proof.
  intros Hv. unfold remove, bind, gets, lget, deref, ret, raise.
  destruct (head s) as [h|]; [|by left]. simpl.
  rewrite bool_decide_eq_false_2 by apply Hv.
  destruct (tail s) as [tl|]; [|by right; left]. simpl.
  rewrite bool_decide_eq_false_2 by apply Hv.
  by apply remove_loop_unheld.
Qed.

(** C6. After [stale_anchor_ops] the list holds 0..23, 100, 101 and no 24,
    but the anchor still targets the removed node holding 24:
    [remove(24)] finds it as the leading node of the back chunk, returns
    [True] and decrements [size] to 25 while the 26 elements stay. *)
Theorem remove_absent_value_returns_true :
  (λ s, (size s, to_list 100 s, bool_decide (Some 24 ∈ to_list 100 s),
         outcome (remove 100 (Some 24) s),
         (λ s', (size s', bool_decide (to_list 100 s' = to_list 100 s)))
           <$> after (remove 100 (Some 24) s)))
    <$> run 100 stale_anchor_ops __init__
  = Some (26, (Some <$> (seqZ 0 24 ++ [100; 101])), false,
          Some (inl true), Some (25, true)).
Proof. vm_compute. reflexivity. Qed.

(** C7. Going on from there: [remove(24)] has left [size] one short of the
    list, so 25 times [remove_at(0)] bring [size] to 0, which clears the
    fast lane, with one node still linked as [head].  [add(7)] then takes
    the non-empty branch, sets [size] to 1 and raises [AttributeError] on
    the missing tail sentinel; [len()] returns 1 on a container whose
    [fast_count] is 0. *)
Theorem fast_count_zero_with_one_element :
  let ops := stale_anchor_ops ++ [Remove (Some 24)] ++ replicate 25 (RemoveAt 0) in
  (λ s, (size s, fast_count s, to_list 100 s,
         outcome (add (Some 7) s),
         (λ s', (outcome (__len__ s'), size s', fast_count s', fast_head s'))
           <$> after (add (Some 7) s)))
    <$> run 100 ops __init__
  = Some (0, 0, [Some 101], Some (inr AttributeError),
          Some (Some (inl 1), 1, 0, None)).
Proof. vm_compute. reflexivity. Qed.

(** C5. The same calls, every one of which returns, leave a non-empty list
    (one node, holding 101, linked as [head]) with no tail sentinel.  On it
    [add(7)] links the new node after the tail, makes it the tail, and
    increments [size] and [pending_gap]; there is no tail sentinel to
    re-point, and the call raises [AttributeError] at [self.fast_tail.gap]
    instead of setting a gap.  The list then holds 101 and 7 with [size] 1
    and no fast lane, and [add(8)] raises in the same way. *)
Theorem add_raises_without_tail_sentinel :
  let ops := stale_anchor_ops ++ [Remove (Some 24)] ++ replicate 25 (RemoveAt 0) in
  (λ s, (to_list 100 s, bool_decide (head s ≠ None), fast_tail s, pending_gap s,
         outcome (add (Some 7) s),
         (λ s', (to_list 100 s', (λ n, ListNode.data (lnode s' n)) <$> tail s',
                 size s', pending_gap s', fast_tail s', fast_count s',
                 outcome (add (Some 8) s')))
           <$> after (add (Some 7) s)))
    <$> run 100 ops __init__
  = Some ([Some 101], true, None, 0, Some (inr AttributeError),
          Some ([Some 101; Some 7], Some (Some 7), 1, 1, None, 0,
                Some (inr AttributeError))).
Proof. vm_compute. reflexivity. Qed.

(** * Further properties of the operations *)

(** ** What the helpers of the fast lane leave alone *)

Section preserves.
Context (R : t → t → Prop) `{!Reflexive R, !Transitive R}.

Lemma preserves_ret {A} (a : A) : preserves R (ret a).
Proof. intros s. simpl. reflexivity. Qed.
Lemma preserves_gets {A} (f : t → A) : preserves R (gets f).
Proof. intros s. simpl. reflexivity. Qed.
Lemma preserves_raise {A} e : preserves R (@raise A e).
Proof. intros s. simpl. reflexivity. Qed.
Lemma preserves_out_of_fuel {A} : preserves R (@out_of_fuel A).
Proof. by intros s. Qed.
Lemma preserves_bind {A B} (m : M A) (k : A → M B) :
  preserves R m → (∀ a, preserves R (k a)) → preserves R (bind m k).
Proof.
  intros Hm Hk s. unfold bind. specialize (Hm s).
  destruct (m s) as [a s1|e s1|]; [|done..].
  specialize (Hk a s1). destruct (k a s1); [| |done]; by etrans.
Qed.
Lemma preserves_try_except {A} (m h : M A) :
  preserves R m → preserves R h → preserves R (try_except m h).
Proof.
  intros Hm Hh s. unfold try_except. specialize (Hm s).
  destruct (m s) as [a s1|e s1|]; [done| |done].
  specialize (Hh s1). destruct (h s1); [| |done]; by etrans.
Qed.
Lemma preserves_modify (f : t → t) : (∀ s, R s (f s)) → preserves R (modify f).
Proof. intros H s. apply H. Qed.
End preserves.

#[local] Instance list_kept_refl : Reflexive list_kept.
Proof. by constructor. Qed.
#[local] Instance list_kept_trans : Transitive list_kept.
Proof. intros s1 s2 s3 [] []. constructor; intros; congruence. Qed.
#[local] Instance lane_kept_refl : Reflexive lane_kept.
Proof. by constructor. Qed.
#[local] Instance lane_kept_trans : Transitive lane_kept.
Proof.
  intros s1 s2 s3 [] []. constructor; [by etrans|congruence..|auto].
Qed.

Lemma skip_only_lane_kept s s' : skip_only s s' → lane_kept s s'.
Proof.
  intros []. constructor; [constructor|..]; try congruence.
  all: intros; unfold lnode; congruence.
Qed.

Lemma reads_lane_kept {A} (m : M A) : reads m → preserves lane_kept m.
Proof.
  intros H s. specialize (H s). destruct (m s); [| |done]; by apply skip_only_lane_kept.
Qed.

Lemma lane_kept_list {A} (m : M A) : preserves lane_kept m → preserves list_kept m.
Proof. intros H s. specialize (H s). destruct (m s); [| |done]; by destruct H. Qed.

(** Writing a back-reference changes no value and no link of the list. *)
Lemma lane_kept_set_fast a v : preserves lane_kept (lset a (ListNode.set_fast v)).
Proof.
  intros s. cbn. constructor; [constructor|..]; cbn; try done.
  - by rewrite length_alter.
  - intros b. unfold lnode. cbn. rewrite read_alter. by case_decide as H; [destruct H as [-> _]|].
  - intros b. unfold lnode. cbn. rewrite read_alter. by case_decide as H; [destruct H as [-> _]|].
  - intros b. unfold lnode. cbn. rewrite read_alter. by case_decide as H; [destruct H as [-> _]|].
Qed.

Lemma lane_kept_fset a f : preserves lane_kept (fset a f).
Proof. intros s. by constructor. Qed.

Lemma lane_kept_new_FastNode tg pv nx g : preserves lane_kept (new_FastNode tg pv nx g).
Proof. intros s. by constructor. Qed.

Lemma lane_kept_count_reset : preserves lane_kept (modify (set_fast_count 2)).
Proof. intros s. by constructor. Qed.

Lemma lane_kept_count_up :
  preserves lane_kept (let! fc := gets fast_count in modify (set_fast_count (fc + 1))).
Proof. intros s. constructor; cbn; try done. lia. Qed.

Lemma lane_kept_count_down :
  preserves lane_kept
    (let! fc := gets fast_count in
     if fc >? 2 then modify (set_fast_count (fc - 1)) else ret tt).
Proof.
  intros s. unfold bind, gets. destruct (fast_count s >? 2) eqn:H; [|done].
  constructor; cbn; try done. lia.
Qed.

Lemma lane_kept_ops v : preserves lane_kept (modify (set_ops_since_rebalance v)).
Proof. intros s. by constructor. Qed.

Lemma lane_kept_skip v : preserves lane_kept (modify (set_current_skip v)).
Proof. intros s. by constructor. Qed.

Create HintDb pres discriminated.
#[local] Hint Resolve preserves_ret preserves_gets preserves_raise preserves_out_of_fuel
  lane_kept_set_fast lane_kept_fset lane_kept_new_FastNode lane_kept_count_reset
  lane_kept_count_up lane_kept_count_down lane_kept_ops lane_kept_skip : pres.
#[local] Hint Extern 1 (preserves _ (lget _ _)) => apply preserves_gets : pres.
#[local] Hint Extern 1 (preserves _ (fget _ _)) => apply preserves_gets : pres.

Ltac pres_step :=
  first
    [ solve [auto with pres typeclass_instances]
    | apply preserves_bind; [typeclasses eauto..| |intros ?]
    | apply preserves_try_except; [typeclasses eauto..| |]
    | match goal with
      | |- preserves _ (if_some ?p _) => destruct p; unfold if_some
      | |- preserves _ (deref ?p) => destruct p; unfold deref
      | |- preserves _ (if ?b then _ else _) => destruct b
      | |- preserves _ (match ?x with _ => _ end) => destruct x
      end ].
Ltac pres_auto := repeat pres_step.

Lemma lane_kept__get_dynamic_skip : preserves lane_kept _get_dynamic_skip.
Proof. apply reads_lane_kept, reads__get_dynamic_skip. Qed.

Lemma lane_kept_below_half_sqrt fc sz : preserves lane_kept (below_half_sqrt fc sz).
Proof. unfold below_half_sqrt. pres_auto. Qed.
#[local] Hint Resolve lane_kept__get_dynamic_skip lane_kept_below_half_sqrt : pres.

Lemma lane_kept__update_tail_fast : preserves lane_kept _update_tail_fast.
Proof. unfold _update_tail_fast. pres_auto. Qed.
#[local] Hint Resolve lane_kept__update_tail_fast : pres.

Lemma lane_kept__append_fast node gap : preserves lane_kept (_append_fast node gap).
Proof. unfold _append_fast. pres_auto. Qed.
#[local] Hint Resolve lane_kept__append_fast : pres.

Lemma lane_kept__remove_fast fn : preserves lane_kept (_remove_fast fn).
Proof. unfold _remove_fast. pres_auto. Qed.
#[local] Hint Resolve lane_kept__remove_fast : pres.

Lemma lane_kept_rebalance_clear fuel current :
  preserves lane_kept (rebalance_clear fuel current).
Proof. revert current. induction fuel as [|fuel IH]; intros current; simpl; pres_auto. Qed.

Lemma lane_kept_rebalance_build fuel skip main_cur counter gap :
  preserves lane_kept (rebalance_build fuel skip main_cur counter gap).
Proof.
  revert main_cur counter gap.
  induction fuel as [|fuel IH]; intros main_cur counter gap; simpl; pres_auto.
Qed.
#[local] Hint Resolve lane_kept_rebalance_clear lane_kept_rebalance_build : pres.

Lemma lane_kept__rebalance fuel : preserves lane_kept (_rebalance fuel).
Proof. unfold _rebalance. pres_auto. Qed.
#[local] Hint Resolve lane_kept__rebalance : pres.

Lemma lane_kept__check_and_rebalance fuel : preserves lane_kept (_check_and_rebalance fuel).
Proof. unfold _check_and_rebalance. pres_auto. Qed.
#[local] Hint Resolve lane_kept__check_and_rebalance : pres.

Lemma list_kept_fast_head v : preserves list_kept (modify (set_fast_head v)).
Proof. intros s. by constructor. Qed.
Lemma list_kept_fast_tail v : preserves list_kept (modify (set_fast_tail v)).
Proof. intros s. by constructor. Qed.
Lemma list_kept_fast_count v : preserves list_kept (modify (set_fast_count v)).
Proof. intros s. by constructor. Qed.
#[local] Hint Resolve list_kept_fast_head list_kept_fast_tail list_kept_fast_count : pres.
#[local] Hint Extern 5 (preserves list_kept _) =>
  apply lane_kept_list; solve [auto with pres] : pres.

Lemma list_kept__clear_fast_layer : preserves list_kept _clear_fast_layer.
Proof. unfold _clear_fast_layer. pres_auto. Qed.
#[local] Hint Resolve list_kept__clear_fast_layer : pres.

Lemma list_kept__init_fast_layer : preserves list_kept _init_fast_layer.
Proof. unfold _init_fast_layer. pres_auto. Qed.

Lemma list_kept_to_list n s s' : list_kept s s' → to_list n s' = to_list n s.
Proof.
  intros H. unfold to_list. rewrite (lk_head _ _ H). generalize (head s).
  induction n as [|n IH]; intros [c|]; simpl; try done.
  by rewrite (lk_data _ _ H), (lk_next _ _ H), IH.
Qed.

(** X5. The helpers that add, move and drop anchors never touch the list:
    whether they return or raise, [_update_tail_fast], [_append_fast] and
    [_remove_fast] leave [head], [tail], [size] and the value and both
    links of every node as they were, keep both sentinels and keep an
    anchor count of at least 2 at least 2. *)
Theorem fast_lane_upkeep_keeps_list node gap fn :
  preserves lane_kept _update_tail_fast ∧
  preserves lane_kept (_append_fast node gap) ∧
  preserves lane_kept (_remove_fast fn).
Proof. repeat split; auto with pres. Qed.

(** X12. Rebuilding the fast lane never touches the list: whether they
    return or raise, [_rebalance] and [_check_and_rebalance] leave [head],
    [tail], [size] and the value and both links of every node as they
    were and keep both sentinels; [_clear_fast_layer] and
    [_init_fast_layer] leave the list as it was. *)
Theorem fast_lane_rebuild_keeps_list fuel :
  preserves lane_kept (_rebalance fuel) ∧
  preserves lane_kept (_check_and_rebalance fuel) ∧
  preserves list_kept _clear_fast_layer ∧
  preserves list_kept _init_fast_layer.
Proof.
  repeat split; auto using list_kept__init_fast_layer with pres.
Qed.

(** ** The counters after calls that return *)

Lemma reads_find_update_fast fuel index fast traversed :
  reads (find_update_fast fuel index fast traversed).
Proof.
  revert fast traversed.
  induction fuel as [|fuel IH]; intros [f|] traversed; simpl; reads_auto.
Qed.

Lemma lane_kept_get_node fuel index : preserves lane_kept (get_node fuel index).
Proof. apply reads_lane_kept, reads_get_node. Qed.
Lemma lane_kept_find_update_fast fuel index fast traversed :
  preserves lane_kept (find_update_fast fuel index fast traversed).
Proof. apply reads_lane_kept, reads_find_update_fast. Qed.
#[local] Hint Resolve lane_kept_get_node lane_kept_find_update_fast : pres.

Lemma wp_bind {A B} (m : M A) (k : A → M B) Q s :
  wp m (λ a s', wp (k a) Q s') s → wp (bind m k) Q s.
Proof. unfold wp, bind. by destruct (m s). Qed.

Lemma wp_mono {A} (m : M A) (Q Q' : A → t → Prop) s :
  wp m Q s → (∀ a s', Q a s' → Q' a s') → wp m Q' s.
Proof. unfold wp. destruct (m s); auto. Qed.

Lemma wp_preserves {A} R (m : M A) Q s :
  preserves R m → (∀ a s', R s s' → Q a s') → wp m Q s.
Proof. intros Hm HQ. unfold wp. specialize (Hm s). destruct (m s); auto. Qed.

Lemma wp_ret {A} (a : A) Q s : Q a s → wp (ret a) Q s.
Proof. done. Qed.
Lemma wp_gets {A} (f : t → A) Q s : Q (f s) s → wp (gets f) Q s.
Proof. done. Qed.
Lemma wp_modify f Q s : Q tt (f s) → wp (modify f) Q s.
Proof. done. Qed.
Lemma wp_new_ListNode d Q s :
  Q (length (nodes s)) (set_nodes (nodes s ++ [ListNode.init d]) s) → wp (new_ListNode d) Q s.
Proof. done. Qed.
Lemma wp_new_FastNode tg pv nx g Q s :
  Q (length (fnodes s)) (set_fnodes (fnodes s ++ [FastNode.mk tg pv nx g]) s) →
  wp (new_FastNode tg pv nx g) Q s.
Proof. done. Qed.
Lemma wp__get_dynamic_skip Q s :
  Q (dynamic_skip (size s) (current_skip s))
    (set_current_skip (skip_after (size s) (current_skip s)) s) →
  wp _get_dynamic_skip Q s.
Proof. unfold wp. by rewrite _get_dynamic_skip_eq. Qed.

Ltac fields :=
  cbn [size fast_count fast_head fast_tail head tail pending_gap current_skip
       ops_since_rebalance nodes fnodes set_nodes set_fnodes set_head set_tail set_size
       set_fast_head set_fast_tail set_fast_count set_pending_gap set_current_skip
       set_ops_since_rebalance upd_lnode upd_fnode] in *.

Ltac use_kept :=
  repeat match goal with
    | H : lane_kept _ _ |- _ =>
      let Hl := fresh in let Hs := fresh "Hsize" in
      destruct H as [Hl ? ? ?]; pose proof (lk_size _ _ Hl) as Hs;
      pose proof (lk_head _ _ Hl); pose proof (lk_tail _ _ Hl); clear Hl
    | H : list_kept _ _ |- _ =>
      pose proof (lk_size _ _ H); pose proof (lk_head _ _ H); pose proof (lk_tail _ _ H);
      clear H
    end; fields.

Ltac known :=
  repeat match goal with
    | H : fast_tail ?s = _ |- context [fast_tail ?s] => rewrite H
    | H : fast_head ?s = _ |- context [fast_head ?s] => rewrite H
    | H : head ?s = _ |- context [head ?s] => rewrite H
    | H : tail ?s = _ |- context [tail ?s] => rewrite H
    | H : ListNode.next (lnode ?s ?a) = _ |- context [ListNode.next (lnode ?s ?a)] =>
      rewrite H
    | H : ListNode.prev (lnode ?s ?a) = _ |- context [ListNode.prev (lnode ?s ?a)] =>
      rewrite H
    end.

Lemma wp__init_fast_layer_skips Q s :
  fast_head s ≠ None → Q tt s → wp _init_fast_layer Q s.
Proof. intros H HQ. unfold wp. by rewrite _init_fast_layer_skips by by right. Qed.

Ltac wp_step :=
  fields; known; cbv beta iota; cbn [deref if_some];
  lazymatch goal with
  | |- wp (bind _ _) _ _ => apply wp_bind
  | |- wp (ret _) _ _ => apply wp_ret
  | |- wp (gets _) _ _ => apply wp_gets
  | |- wp (lget _ _) _ _ => apply wp_gets
  | |- wp (fget _ _) _ _ => apply wp_gets
  | |- wp (modify _) _ _ => apply wp_modify
  | |- wp (lset _ _) _ _ => apply wp_modify
  | |- wp (fset _ _) _ _ => apply wp_modify
  | |- wp (raise _) _ _ => exact I
  | |- wp out_of_fuel _ _ => exact I
  | |- wp (new_ListNode _) _ _ => apply wp_new_ListNode
  | |- wp (new_FastNode _ _ _ _) _ _ => apply wp_new_FastNode
  | |- wp _get_dynamic_skip _ _ => apply wp__get_dynamic_skip
  | |- wp (deref ?p) _ _ => destruct p eqn:?; [apply wp_ret | exact I]
  | |- wp (if_some ?p _) _ _ => destruct p eqn:?; unfold if_some
  | |- wp (if ?b then _ else _) _ _ => destruct b eqn:?
  | |- wp (match ?x with _ => _ end) _ _ => destruct x eqn:?
  | |- wp _init_fast_layer _ _ =>
    first [ apply wp__init_fast_layer_skips; [fields; congruence|]
          | eapply (wp_preserves list_kept);
            [apply list_kept__init_fast_layer|intros ? ? ?; use_kept] ]
  | |- wp _ _ _ =>
    first [ eapply (wp_preserves lane_kept); [solve [auto with pres]|intros ? ? ?; use_kept]
          | eapply (wp_preserves list_kept); [solve [auto with pres]|intros ? ? ?; use_kept] ]
  end; cbv beta.

Ltac zify_bool :=
  rewrite ?Z.gtb_ltb, ?Z.geb_leb in *;
  repeat match goal with
    | H : _ || _ = true |- _ => apply orb_true_iff in H
    | H : _ || _ = false |- _ => apply orb_false_iff in H as [? ?]
    | H : _ && _ = true |- _ => apply andb_true_iff in H as [? ?]
    | H : _ && _ = false |- _ => apply andb_false_iff in H
    | H : (_ <? _) = true |- _ => apply Z.ltb_lt in H
    | H : (_ <? _) = false |- _ => apply Z.ltb_ge in H
    | H : (_ <=? _) = true |- _ => apply Z.leb_le in H
    | H : (_ <=? _) = false |- _ => apply Z.leb_gt in H
    | H : (_ =? _) = true |- _ => apply Z.eqb_eq in H
    | H : (_ =? _) = false |- _ => apply Z.eqb_neq in H
    end.

Lemma clear_counted s : wp clear (λ _, counted) s.
Proof. unfold wp. rewrite clear_spec. left. by cbn. Qed.

Lemma add_counted v s : counted s → wp (add v) (λ _, counted) s.
Proof.
  intros Hc. destruct (head s) as [h|] eqn:Hh.
  - unfold add. destruct Hc as [(Hfc & Hsz & Hfh & Hft)|[Hfc Hsz]].
    + repeat wp_step.
    + repeat wp_step; unfold _append_fast; repeat wp_step.
      all: right; fields; zify_bool; lia.
  - destruct (fast_head s) as [fh|] eqn:Hfh.
    + unfold add. repeat wp_step.
      right. fields. destruct Hc as [(?&?&?&?)|[? ?]]; [congruence|lia].
    + destruct (add_first s v Hh Hfh) as (s' & Hadd & ? & ? & ? & ? & ? & ? & ? & ? & ?).
      unfold wp. rewrite Hadd. right. lia.
Qed.

Ltac counted_leaf :=
  unfold counted; fields; zify_bool;
  first [ exfalso; lia
        | right; split; lia
        | left; repeat split; first [done | lia] ].

Lemma insert_counted fuel index v s : counted s → wp (insert fuel index v) (λ _, counted) s.
Proof.
  intros Hc. unfold insert.
  wp_step. wp_step. wp_step; [exact I|]. wp_step.
  { eapply wp_mono; [by apply add_counted|done]. }
  destruct Hc as [(Hfc & Hsz & Hfh & Hft)|[Hfc Hsz]]; [zify_bool; lia|].
  repeat wp_step; counted_leaf.
Qed.

Lemma remove_at_counted fuel index s :
  counted s → wp (remove_at fuel index) (λ _, counted) s.
Proof.
  intros Hc. unfold remove_at.
  wp_step. wp_step. wp_step; [exact I|].
  destruct Hc as [(Hfc & Hsz & Hfh & Hft)|[Hfc Hsz]]; [zify_bool; lia|].
  unfold _clear_fast_layer.
  repeat wp_step; counted_leaf.
Qed.

Lemma _remove_node_and_update_one_less fuel node nearest s :
  wp (_remove_node_and_update fuel node nearest) (λ _, one_less s) s.
Proof.
  unfold _remove_node_and_update. repeat wp_step.
  all: unfold one_less; fields; split; first [lia | auto].
Qed.

Ltac found_leaf :=
  try done;
  try (eapply wp_mono; [apply _remove_node_and_update_one_less|];
       intros ? ? ?; repeat wp_step; done).

Lemma search_plain_found fuel remaining current search_end fast v s :
  wp (search_plain fuel remaining current search_end fast v) (found_or_same s) s.
Proof.
  revert current. induction remaining as [|n IH]; intros current; simpl.
  { by apply wp_ret. }
  repeat wp_step; found_leaf.
Qed.

Lemma _search_chunk_found fuel fast v s :
  wp (_search_chunk fuel fast v) (found_or_same s) s.
Proof.
  unfold _search_chunk. repeat wp_step; found_leaf. all: apply search_plain_found.
Qed.

Lemma remove_loop_found fuel v front_fast back_fast front_idx back_idx s :
  wp (remove_loop fuel v front_fast back_fast front_idx back_idx)
     (λ found s', if found then one_less s s' ∧ front_idx < back_idx else s' = s) s.
Proof.
  revert front_fast back_fast front_idx back_idx.
  induction fuel as [|fuel IH]; intros [ff|] [bf|] front_idx back_idx;
    cbn [remove_loop]; try by apply wp_ret.
  - repeat wp_step. done.
  - assert (Hrec : ∀ ff' bf' fi' bi', front_idx < back_idx →
      wp (remove_loop fuel v ff' bf' fi' bi')
         (λ found s', if found then one_less s s' ∧ front_idx < back_idx else s' = s) s).
    { intros ff' bf' fi' bi' Hlt. eapply wp_mono; [apply IH|].
      intros [] s'; [|done]. by intros [? _]. }
    repeat wp_step; try done.
    eapply wp_mono; [apply _search_chunk_found|]. intros [] s' Hf; cbv beta.
    { wp_step. zify_bool. split; [done|lia]. }
    cbn in Hf. subst s'.
    repeat wp_step; try done; zify_bool.
    + eapply wp_mono; [apply _search_chunk_found|]. intros [] s' Hf; cbv beta.
      { wp_step. split; [done|lia]. }
      cbn in Hf. subst s'. repeat wp_step. by apply Hrec.
    + by apply Hrec.
Qed.

Lemma remove_counted fuel v s : counted s → wp (remove fuel v) (λ _, counted) s.
Proof.
  intros Hc. unfold remove.
  repeat wp_step; try done.
  1,2: eapply wp_mono; [by apply remove_at_counted|]; intros; by repeat wp_step.
  eapply wp_mono; [apply remove_loop_found|]. intros [] s'; [|by intros ->].
  intros [[Hsz Hfc] Hlt]. destruct Hc as [(?&?&?&?)|[? ?]]; [lia|].
  right. split; [auto|lia].
Qed.

Lemma run_op_counted fuel o s s' : counted s → run_op fuel o s = Some s' → counted s'.
Proof.
  intros Hc. destruct o as [v|i v|i|v|]; unfold run_op, returned.
  - pose proof (add_counted v s Hc) as H. unfold wp in H.
    destruct (add v s); naive_solver.
  - pose proof (insert_counted fuel i v s Hc) as H. unfold wp in H.
    destruct (insert fuel i v s); naive_solver.
  - pose proof (remove_at_counted fuel i s Hc) as H. unfold wp in H.
    destruct (remove_at fuel i s); naive_solver.
  - pose proof (remove_counted fuel v s Hc) as H. unfold wp in H.
    destruct (remove fuel v s); naive_solver.
  - pose proof (clear_counted s) as H. unfold wp in H.
    destruct (clear s); naive_solver.
Qed.

Lemma run_counted fuel ops s s' : counted s → run fuel ops s = Some s' → counted s'.
Proof.
  revert s. induction ops as [|o ops IH]; intros s Hc; [by intros [= ->]|].
  change (run fuel (o :: ops) s) with (run_op fuel o s ≫= run fuel ops).
  destruct (run_op fuel o s) as [s1|] eqn:Ho; [|done]. cbn.
  apply IH. by eapply run_op_counted.
Qed.

(** X4. After any sequence of calls of the five operations in which every
    call returned, [size] is not negative, [fast_count] is 0 exactly when
    [size] is 0, and a container with an element has at least two
    anchors. *)
Theorem counts_after_returning_calls fuel ops s :
  run fuel ops __init__ = Some s →
  0 ≤ size s ∧ (fast_count s = 0 ↔ size s = 0) ∧ (1 ≤ size s → 2 ≤ fast_count s).
Proof.
  intros Hrun. assert (Hc : counted s).
  { eapply run_counted; [|done]. left. by cbn. }
  destruct Hc as [(?&?&?&?)|[? ?]]; lia.
Qed.

(** ** The linked list under the operations at its ends *)

Section chains.
Context (link : ListNode.t → option nat).

Lemma chain_frame s s' cur l :
  (∀ a, a ∈ l → link (lnode s' a) = link (lnode s a)) →
  chain link s cur l → chain link s' cur l.
Proof.
  revert cur. induction l as [|a l IH]; intros cur Hfr; [done|]. intros [-> Hl].
  split; [done|]. rewrite Hfr by left. apply IH; [|done]. intros; apply Hfr; by right.
Qed.

Lemma chain_snoc s s' cur l b x :
  chain link s cur (l ++ [b]) →
  (∀ a, a ∈ l → link (lnode s' a) = link (lnode s a)) →
  link (lnode s' b) = Some x → link (lnode s' x) = None →
  chain link s' cur (l ++ [b; x]).
Proof.
  revert cur. induction l as [|a l IH]; intros cur; cbn [app chain].
  - intros [-> _] _ Hb Hx. by rewrite Hb, Hx.
  - intros [-> Hl] Hfr Hb Hx. split; [done|]. rewrite Hfr by left.
    apply IH; [done| |done..]. intros; apply Hfr; by right.
Qed.

Lemma chain_unsnoc s s' cur l b x :
  chain link s cur (l ++ [b; x]) →
  (∀ a, a ∈ l → link (lnode s' a) = link (lnode s a)) →
  link (lnode s' b) = None →
  chain link s' cur (l ++ [b]).
Proof.
  revert cur. induction l as [|a l IH]; intros cur; cbn [app chain].
  - intros [-> _] _ Hb. by rewrite Hb.
  - intros [-> Hl] Hfr Hb. split; [done|]. rewrite Hfr by left.
    apply IH; [done| |done]. intros; apply Hfr; by right.
Qed.

Lemma chain_lookup s cur l :
  chain link s cur l →
  cur = l !! 0%nat ∧ ∀ i a, l !! i = Some a → link (lnode s a) = l !! S i.
Proof.
  revert cur. induction l as [|a l IH]; intros cur; cbn [chain]; [by intros ->|].
  intros [-> Hl]. split; [done|]. destruct (IH _ Hl) as [H0 Hi].
  intros [|i] b; cbn; [by intros [= <-]|]. apply Hi.
Qed.
End chains.

Lemma values_from_chain s cur l n :
  chain ListNode.next s cur l → (length l ≤ n)%nat →
  values_from n s cur = (λ a, ListNode.data (lnode s a)) <$> l.
Proof.
  revert cur n. induction l as [|a l IH]; intros cur n; cbn [chain].
  - intros -> _. by destruct n.
  - intros [-> Hl] Hn. destruct n as [|n]; [cbn in Hn; lia|]. cbn.
    f_equal. apply IH; [done|]. cbn in Hn. lia.
Qed.

Lemma listed_to_list s vs l : listed s vs l → to_list (length vs) s = vs.
Proof.
  intros [Hn _ _ _ Hv _]. unfold to_list. rewrite <-Hv at 2.
  apply values_from_chain; [done|]. by rewrite <-Hv, length_fmap.
Qed.

Lemma returns_bind {A B} (m : M A) (k : A → M B) Q s :
  returns m (λ a s', returns (k a) Q s') s → returns (bind m k) Q s.
Proof. unfold returns, bind. by destruct (m s). Qed.
Lemma returns_ret {A} (a : A) Q s : Q a s → returns (ret a) Q s.
Proof. done. Qed.
Lemma returns_gets {A} (f : t → A) Q s : Q (f s) s → returns (gets f) Q s.
Proof. done. Qed.
Lemma returns_modify f Q s : Q tt (f s) → returns (modify f) Q s.
Proof. done. Qed.
Lemma returns_new_ListNode d Q s :
  Q (length (nodes s)) (set_nodes (nodes s ++ [ListNode.init d]) s) →
  returns (new_ListNode d) Q s.
Proof. done. Qed.
Lemma returns_elim {A} (m : M A) Q s : returns m Q s → ∃ a s', m s = Ok a s' ∧ Q a s'.
Proof. unfold returns. destruct (m s); naive_solver. Qed.

Ltac bool_true := apply not_false_iff_true; intros ?; zify_bool; lia.
Ltac bool_false := apply not_true_iff_false; intros ?; zify_bool; lia.

Ltac rt_step :=
  fields; known; cbv beta iota; cbn [deref if_some];
  lazymatch goal with
  | |- returns (bind _ _) _ _ => apply returns_bind
  | |- returns (ret _) _ _ => apply returns_ret
  | |- returns (gets _) _ _ => apply returns_gets
  | |- returns (lget _ _) _ _ => apply returns_gets
  | |- returns (fget _ _) _ _ => apply returns_gets
  | |- returns (modify _) _ _ => apply returns_modify
  | |- returns (lset _ _) _ _ => apply returns_modify
  | |- returns (fset _ _) _ _ => apply returns_modify
  | |- returns (new_ListNode _) _ _ => apply returns_new_ListNode
  | |- returns (if_some ?p _) _ _ => destruct p eqn:?; unfold if_some
  | |- returns (if ?b then _ else _) _ _ =>
    first [ replace b with true by (symmetry; bool_true)
          | replace b with false by (symmetry; bool_false)
          | destruct b eqn:? ]
  | |- returns (match ?x with _ => _ end) _ _ => destruct x eqn:?
  end; cbv beta.

Lemma read_alter_same {A B} (proj : A → B) (f : A → A) d (l : list A) (a b : nat) :
  (∀ x, proj (f x) = proj x) →
  proj (default d (alter f a l !! b)) = proj (default d (l !! b)).
Proof.
  intros H. rewrite read_alter. case_decide as Hd; [destruct Hd as [-> _]|]; by rewrite ?H.
Qed.

Ltac same_reads H :=
  repeat first
    [ rewrite (read_alter_same FastNode.prev) in H by done
    | rewrite (read_alter_same FastNode.next) in H by done
    | rewrite (read_alter_same FastNode.target) in H by done
    | rewrite (read_alter_same FastNode.gap) in H by done
    | rewrite (read_alter_same ListNode.prev) in H by done
    | rewrite (read_alter_same ListNode.next) in H by done
    | rewrite (read_alter_same ListNode.data) in H by done ].

Ltac store_leaf :=
  unfold lane_same, lnode, fnode in *; fields;
  repeat match goal with
    | H : context [alter] |- _ => progress same_reads H
    end;
  repeat split; intros;
  repeat (progress (rewrite ?read_alter, ?read_snoc, ?length_alter, ?length_snoc;
                    repeat case_decide; destruct_and?; simplify_eq/=));
  first [done | lia | congruence | idtac].

Lemma remove_at_head fuel s a b fh :
  head s = Some a → ListNode.next (lnode s a) = Some b → (b < length (nodes s))%nat →
  2 ≤ size s → fast_head s = Some fh →
  returns (remove_at fuel 0) (λ r s', r = ListNode.data (lnode s a) ∧ popped_front s b s') s.
Proof.
  intros Hh Hn Hb Hsz Hfh. unfold remove_at, popped_front.
  repeat rt_step; store_leaf.
Qed.

(** Removing the only element empties the container. *)
Lemma remove_at_only fuel s a :
  head s = Some a → ListNode.next (lnode s a) = None → size s = 1 →
  returns (remove_at fuel 0)
    (λ r s', r = ListNode.data (lnode s a) ∧
             head s' = None ∧ fast_head s' = None ∧ size s' = 0) s.
Proof.
  intros Hh Hn Hsz. unfold remove_at, _clear_fast_layer.
  repeat rt_step; store_leaf.
Qed.

Lemma remove_at_tail fuel s x b :
  tail s = Some x → ListNode.prev (lnode s x) = Some b → (b < length (nodes s))%nat →
  2 ≤ size s →
  returns (remove_at fuel (size s - 1))
    (λ r s', r = ListNode.data (lnode s x) ∧ popped_back s b s') s.
Proof.
  intros Ht Hp Hb Hsz. unfold remove_at, popped_back, _update_tail_fast.
  repeat rt_step; store_leaf.
Qed.

Lemma insert_head fuel s v h fh :
  head s = Some h → (h < length (nodes s))%nat → 1 ≤ size s → fast_head s = Some fh →
  returns (insert fuel 0 v) (λ _ s', pushed_front s v h s') s.
Proof.
  intros Hh Hv Hsz Hfh. unfold insert, pushed_front.
  repeat rt_step; store_leaf.
Qed.

(** ** A container used at its ends *)

Lemma lane_same_present s s' : lane_same s s' → lane_present s → lane_present s'.
Proof.
  intros (Hfh & Hft & Hlen & Hp) (fh & ft & p & ? & ? & ? & ? & ?).
  exists fh, ft, p. rewrite Hfh, Hft, Hlen, Hp. done.
Qed.

Lemma listed_popped_front s s' vs a b l :
  listed s vs (a :: b :: l) → popped_front s b s' → listed s' (drop 1 vs) (b :: l).
Proof.
  intros [Hn Hp Hnd Hval Hvs Hsz] (Hh & Ht & Hsz' & Hlen & Hdn & Hpb & Hpo & _).
  destruct Hn as [Hha [Hna Hn]]. apply NoDup_cons in Hnd as [Hal Hnd].
  apply Forall_cons in Hval as [_ Hval].
  constructor.
  - rewrite Hh. split; [done|]. destruct (Hdn b) as [_ ->].
    eapply chain_frame; [|exact Hn]. intros c _. apply Hdn.
  - rewrite Ht. rewrite !reverse_cons, <-app_assoc in Hp. rewrite reverse_cons.
    eapply chain_unsnoc; [exact Hp| |done].
    intros c Hc. apply Hpo. intros ->. apply NoDup_cons in Hnd as [Hbl _].
    by rewrite elem_of_reverse in Hc.
  - done.
  - by rewrite Hlen.
  - rewrite <-Hvs. cbn. f_equal; [apply Hdn|]. apply fmap_frame. intros; apply Hdn.
  - rewrite Hsz', Hsz. cbn [length]. lia.
Qed.

Lemma listed_popped_back s s' vs l b x :
  listed s vs (l ++ [b; x]) → popped_back s b s' →
  listed s' (take (length l + 1) vs) (l ++ [b]).
Proof.
  intros [Hn Hp Hnd Hval Hvs Hsz] (Ht & Hh & Hsz' & Hlen & Hdp & Hnb & Hno & _).
  assert (Hnd' : NoDup (l ++ [b])).
  { replace (l ++ [b; x]) with ((l ++ [b]) ++ [x]) in Hnd by by rewrite <-app_assoc.
    by apply NoDup_app in Hnd as [? _]. }
  constructor.
  - rewrite Hh. eapply chain_unsnoc; [exact Hn| |done].
    intros c Hc. apply Hno. intros ->. apply NoDup_app in Hnd' as (_ & Hd & _).
    apply (Hd b); [done|by left].
  - rewrite Ht. rewrite reverse_app in Hp. cbn in Hp. destruct Hp as [Htx [Hpx Hp]].
    rewrite reverse_app. cbn. split; [done|]. destruct (Hdp b) as [_ ->].
    eapply chain_frame; [|exact Hp]. intros c _. apply Hdp.
  - done.
  - rewrite Hlen. replace (l ++ [b; x]) with ((l ++ [b]) ++ [x]) in Hval
      by by rewrite <-app_assoc.
    by apply Forall_app in Hval as [? _].
  - rewrite <-Hvs. replace (l ++ [b; x]) with ((l ++ [b]) ++ [x]) by by rewrite <-app_assoc.
    rewrite (fmap_app _ (l ++ [b])), take_app_length'.
    + apply fmap_frame. intros; apply Hdp.
    + rewrite length_fmap, length_app. cbn. lia.
  - rewrite Hsz', Hsz, !length_app. cbn [length]. lia.
Qed.

Lemma listed_pushed_front s s' vs v h l :
  listed s vs (h :: l) → pushed_front s v h s' →
  listed s' (v :: vs) (length (nodes s) :: h :: l).
Proof.
  intros [Hn Hp Hnd Hval Hvs Hsz]
    (Hh & Ht & Hsz' & Hlen & Hd & Hpn & Hnn & Hph & Hdn & Hpo & _).
  assert (Hfresh : ∀ c, c ∈ h :: l → c ≠ length (nodes s)).
  { intros c Hc. rewrite Forall_forall in Hval. specialize (Hval c Hc). lia. }
  constructor.
  - rewrite Hh. split; [done|]. rewrite Hnn. pose proof Hn as [Hhs _].
    rewrite Hhs in Hn. eapply chain_frame; [|exact Hn].
    intros c Hc. by apply Hdn, Hfresh.
  - rewrite Ht. rewrite reverse_cons in Hp. rewrite 2!reverse_cons, <-app_assoc.
    eapply chain_snoc; [exact Hp| |done..].
    intros c Hc. rewrite elem_of_reverse in Hc. apply Hpo.
    + apply Hfresh. by right.
    + intros ->. by apply NoDup_cons in Hnd as [? _].
  - apply NoDup_cons. split; [|done]. intros Hin. by apply Hfresh in Hin.
  - rewrite Hlen. apply Forall_cons. split; [lia|].
    eapply Forall_impl; [exact Hval|]. cbn. lia.
  - rewrite fmap_cons, Hd. f_equal. rewrite <-Hvs.
    apply (fmap_frame _ _ (h :: l)). intros c Hc. by apply Hdn, Hfresh.
  - rewrite Hsz', Hsz. cbn [length]. lia.
Qed.

Lemma listed_appended s s' vs v l tl ft p :
  listed s vs (l ++ [tl]) → appended s v tl ft p s' →
  length (nodes s') = S (length (nodes s)) →
  listed s' (vs ++ [v]) (l ++ [tl; length (nodes s)]).
Proof.
  intros [Hn Hp Hnd Hval Hvs Hsz]
    (Hh & Ht & Hsz' & Hnode & Hnext & Hdata & Hkeep & _) Hlen.
  assert (Hfresh : ∀ c, c ∈ l ++ [tl] → c ≠ length (nodes s)).
  { intros c Hc. rewrite Forall_forall in Hval. specialize (Hval c Hc). lia. }
  constructor.
  - rewrite Hh. eapply chain_snoc; [exact Hn| |done|by rewrite Hnode].
    intros c Hc. rewrite Hkeep; [done|apply Hfresh, elem_of_app; by left|].
    intros ->. apply NoDup_app in Hnd as (_ & Hd & _). apply (Hd tl); [done|by left].
  - rewrite Ht. replace (l ++ [tl; length (nodes s)]) with ((l ++ [tl]) ++ [length (nodes s)])
      by by rewrite <-app_assoc.
    rewrite reverse_app. cbn [reverse rev_append app]. split; [done|].
    rewrite Hnode. cbn.
    rewrite reverse_app in Hp |- *. cbn in Hp |- *. destruct Hp as [Htl Hp].
    split; [done|].
    destruct (Hdata tl) as [_ ->]; [apply Hfresh, elem_of_app; right; by left|].
    eapply chain_frame; [|exact Hp]. intros c Hc. rewrite elem_of_reverse in Hc.
    apply Hdata, Hfresh, elem_of_app. by left.
  - replace (l ++ [tl; length (nodes s)]) with ((l ++ [tl]) ++ [length (nodes s)])
      by by rewrite <-app_assoc.
    apply NoDup_app. split; [done|]. split; [|apply NoDup_singleton].
    intros c Hc ->%list_elem_of_singleton. by apply Hfresh in Hc.
  - rewrite Hlen. replace (l ++ [tl; length (nodes s)]) with ((l ++ [tl]) ++ [length (nodes s)])
      by by rewrite <-app_assoc.
    apply Forall_app. split; [|repeat constructor; lia].
    eapply Forall_impl; [exact Hval|]. cbn. lia.
  - replace (l ++ [tl; length (nodes s)]) with ((l ++ [tl]) ++ [length (nodes s)])
      by by rewrite <-app_assoc.
    rewrite fmap_app. cbn. rewrite Hnode. cbn. f_equal. rewrite <-Hvs.
    apply fmap_frame. intros c Hc. by apply Hdata, Hfresh.
  - rewrite Hsz', Hsz, !length_app. cbn [length]. lia.
Qed.

Lemma insert_at_size fuel v s : 0 ≤ size s → insert fuel (size s) v s = add v s.
Proof.
  intros H. unfold insert at 1, bind at 1, gets at 1.
  replace ((size s <? 0) || (size s >? size s)) with false by (symmetry; bool_false).
  by rewrite Z.eqb_refl.
Qed.

Lemma listed_ends s vs l :
  listed s vs l → head s = l !! 0%nat ∧ tail s = last l.
Proof.
  intros [Hn Hp _ _ _ _]. split; [by apply chain_lookup in Hn as [? _]|].
  apply chain_lookup in Hp as [-> _]. by rewrite <-head_lookup, head_reverse.
Qed.

Lemma deque_add s vs v :
  deque s vs → ∃ s', add v s = Ok tt s' ∧ deque s' (vs ++ [v]).
Proof.
  intros [(Hh & Hfh & Hsz & ->)|(l & Hne & Hl & Hlane)].
  - destruct (add_first s v Hh Hfh)
      as (s' & Hadd & Hh' & Htl' & Hsz' & Hpg' & Hn' & Hfh' & Hft' & Hfc' & Hfn').
    exists s'. split; [done|]. right. exists [length (nodes s)]. split; [done|].
    assert (Hnode : lnode s' (length (nodes s)) =
                    ListNode.mk v None None (Some (S (length (fnodes s))))).
    { unfold lnode. by rewrite Hn', list_lookup_middle. }
    split.
    + constructor; cbn; rewrite ?Hnode; try done.
      * apply NoDup_singleton.
      * rewrite Hn', length_snoc. repeat constructor.
    + exists (length (fnodes s)), (S (length (fnodes s))), (length (fnodes s)).
      rewrite Hfn', length_app. unfold fnode. rewrite Hfn', lookup_new_snd. cbn.
      repeat split; first [done|cbn; lia].
  - destruct (listed_ends _ _ _ Hl) as [Hh Ht].
    destruct l as [|h l] using rev_ind; [done|]. clear IHl Hne.
    rewrite last_snoc in Ht. rename h into tl.
    assert (∃ h, head s = Some h) as [h Hh'].
    { rewrite Hh. destruct l; cbn; eauto. }
    destruct Hlane as (fh & ft & p & Hfh & Hft & Hftv & Hp & Hpv).
    assert (Htlv : (tl < length (nodes s))%nat).
    { pose proof (ls_valid _ _ _ Hl) as Hv. apply Forall_app in Hv as [_ Hv].
      apply Forall_inv in Hv. exact Hv. }
    destruct (add_on_fast_lane s v h tl ft p Hh' Ht Htlv Hft Hftv Hp Hpv)
      as (s' & Hadd & Hap & Hlen & Hfr).
    exists s'. split; [done|]. right. exists (l ++ [tl; length (nodes s)]).
    split; [by destruct l|]. split; [by eapply listed_appended|].
    destruct Hap as (_ & _ & _ & _ & _ & _ & _ & Hfh' & Hft' & _ & Hcase).
    exists fh, ft. destruct (pending_gap s + 1 >=? _).
    + destruct Hcase as (_ & _ & Hftp & _). destruct Hfr as (Hflen & _).
      exists (length (fnodes s)). rewrite Hflen. repeat split; try done; try lia. congruence.
    + destruct Hcase as (Hflen & _). destruct Hfr as (_ & Hpp).
      exists p. rewrite Hflen. repeat split; try done; congruence.
Qed.

Lemma deque_size s vs : deque s vs → size s = Z.of_nat (length vs).
Proof.
  intros [(_ & _ & -> & ->)|(l & _ & Hl & _)]; [done|].
  rewrite (ls_size _ _ _ Hl), <-(ls_values _ _ _ Hl). by rewrite length_fmap.
Qed.

Lemma deque_pop_front fuel s x vs :
  deque s (x :: vs) → ∃ s', remove_at fuel 0 s = Ok x s' ∧ deque s' vs.
Proof.
  intros [(_ & _ & _ & ?)|(l & Hne & Hl & Hlane)]; [done|].
  destruct (listed_ends _ _ _ Hl) as [Hh _].
  destruct l as [|a l]; [done|]. cbn in Hh.
  pose proof (ls_values _ _ _ Hl) as Hv. rewrite fmap_cons in Hv.
  injection Hv as Hx Hv.
  pose proof (ls_next _ _ _ Hl) as [_ Hn].
  pose proof (ls_size _ _ _ Hl) as Hsz. cbn [length] in Hsz.
  destruct l as [|b l].
  - cbn in Hn, Hsz. destruct (returns_elim _ _ _ (remove_at_only fuel s a Hh Hn Hsz))
      as (r & s' & Hr & -> & ? & ? & ?).
    exists s'. rewrite Hx in Hr. split; [done|]. left. by destruct vs.
  - destruct Hn as [Hn _].
    destruct Hlane as (fh & ft & p & Hfh & Hlane).
    pose proof (ls_valid _ _ _ Hl) as Hval.
    apply Forall_cons in Hval as [_ [Hb _]%Forall_cons].
    destruct (returns_elim _ _ _
      (remove_at_head fuel s a b fh Hh Hn Hb ltac:(cbn [length] in Hsz; lia) Hfh))
      as (r & s' & Hr & -> & Hpop).
    exists s'. rewrite Hx in Hr. split; [done|]. right. exists (b :: l). split; [done|].
    split.
    + replace vs with (drop 1 (x :: vs)) by done. by eapply listed_popped_front.
    + eapply lane_same_present; [apply Hpop|]. by exists fh, ft, p.
Qed.

Lemma deque_pop_back fuel s x vs :
  deque s (vs ++ [x]) → ∃ s', remove_at fuel (size s - 1) s = Ok x s' ∧ deque s' vs.
Proof.
  intros Hd. destruct vs as [|y vs] using rev_ind.
  { rewrite (deque_size _ _ Hd). cbn. by apply deque_pop_front. }
  clear IHvs. destruct Hd as [(_ & _ & _ & ?)|(l & Hne & Hl & Hlane)].
  { by destruct vs. }
  pose proof (ls_values _ _ _ Hl) as Hv.
  destruct l as [|tx l _] using rev_ind; [done|].
  destruct l as [|b l _] using rev_ind.
  { apply (f_equal length) in Hv. rewrite length_fmap, !length_app in Hv. cbn in Hv. lia. }
  rewrite fmap_app in Hv. apply app_inj_tail in Hv as [Hv Hx]. cbn in Hx.
  destruct (listed_ends _ _ _ Hl) as [_ Ht]. rewrite last_snoc in Ht.
  replace ((l ++ [b]) ++ [tx]) with (l ++ [b; tx]) in Hl by by rewrite <-app_assoc.
  pose proof (ls_prev _ _ _ Hl) as Hp. rewrite reverse_app in Hp. cbn in Hp.
  destruct Hp as (_ & Hp & _).
  pose proof (ls_valid _ _ _ Hl) as Hval.
  apply Forall_app in Hval as [_ [Hb _]%Forall_cons].
  pose proof (ls_size _ _ _ Hl) as Hsz. rewrite length_app in Hsz. cbn [length] in Hsz.
  destruct (returns_elim _ _ _ (remove_at_tail fuel s tx b Ht Hp Hb ltac:(lia)))
    as (r & s' & Hr & -> & Hpop).
  exists s'. rewrite Hx in Hr. split; [done|]. right. exists (l ++ [b]).
  split; [by destruct l|]. split.
  - pose proof (listed_popped_back _ _ _ _ _ _ Hl Hpop) as Hl'.
    replace (take _ _) with (vs ++ [y]) in Hl'; [done|].
    rewrite take_app_length'; [done|].
    rewrite <-Hv, length_fmap, length_app. cbn. lia.
  - eapply lane_same_present; [apply Hpop|done].
Qed.

Lemma deque_push_front fuel s v vs :
  deque s vs → ∃ s', insert fuel 0 v s = Ok tt s' ∧ deque s' (v :: vs).
Proof.
  intros Hd. pose proof Hd as [(_ & _ & Hsz & ->)|(l & Hne & Hl & Hlane)].
  { rewrite <-Hsz, insert_at_size by lia. by apply (deque_add s [] v). }
  destruct (listed_ends _ _ _ Hl) as [Hh _].
  destruct l as [|h l]; [done|]. cbn in Hh.
  pose proof (ls_valid _ _ _ Hl) as [Hv _]%Forall_cons.
  pose proof (ls_size _ _ _ Hl) as Hsz. cbn [length] in Hsz.
  pose proof Hlane as (fh & ft & p & Hfh & _).
  destruct (returns_elim _ _ _ (insert_head fuel s v h fh Hh Hv ltac:(lia) Hfh))
    as ([] & s' & Hr & Hpush).
  exists s'. split; [done|]. right. exists (length (nodes s) :: h :: l).
  split; [done|]. split; [by eapply listed_pushed_front|].
  eapply lane_same_present; [apply Hpush|done].
Qed.

Lemma deque_get_first fuel s x vs : deque s (x :: vs) → get fuel 0 s = Ok x s.
Proof.
  intros Hd. pose proof (deque_size _ _ Hd) as Hsz. cbn [length] in Hsz.
  destruct Hd as [(_ & _ & _ & ?)|(l & Hne & Hl & _)]; [done|].
  destruct (listed_ends _ _ _ Hl) as [Hh _].
  pose proof (ls_values _ _ _ Hl) as Hv.
  destruct l as [|a l]; [done|]. cbn in Hh. injection Hv as Hx _.
  unfold get, get_node, bind, gets.
  replace ((0 <? 0) || (0 >=? size s)) with false by (symmetry; bool_false).
  cbn. rewrite Hh. cbn. unfold lget, gets. by rewrite Hx.
Qed.

Lemma deque_get_last fuel s x vs :
  deque s (vs ++ [x]) → get fuel (size s - 1) s = Ok x s.
Proof.
  intros Hd. pose proof (deque_size _ _ Hd) as Hsz. rewrite length_app in Hsz.
  cbn [length] in Hsz.
  destruct vs as [|y vs].
  { replace (size s - 1) with 0 by (cbn in Hsz; lia). by apply (deque_get_first fuel s x []). }
  destruct Hd as [(_ & _ & _ & ?)|(l & Hne & Hl & _)]; [done|].
  destruct (listed_ends _ _ _ Hl) as [_ Ht].
  pose proof (ls_values _ _ _ Hl) as Hv.
  destruct l as [|tx l _] using rev_ind; [done|]. rewrite last_snoc in Ht.
  rewrite fmap_app in Hv. apply app_inj_tail in Hv as [_ Hx]. cbn in Hx.
  unfold get, get_node, bind, gets. cbn [length] in Hsz.
  replace ((size s - 1 <? 0) || (size s - 1 >=? size s)) with false
    by (symmetry; bool_false).
  replace (size s - 1 =? 0) with false by (symmetry; bool_false).
  rewrite Z.eqb_refl. cbn. rewrite Ht. cbn. unfold lget, gets. by rewrite Hx.
Qed.

Lemma deque_step fuel s vs o :
  deque s vs → end_op (Z.of_nat (length vs)) o →
  ∃ s', run_op fuel o s = Some s' ∧ deque s' (ref_op o vs).
Proof.
  intros Hd Ho. pose proof (deque_size _ _ Hd) as Hsz.
  destruct o as [v|i v|i|v|]; cbn [end_op] in Ho; try done; unfold run_op, ref_op.
  - destruct (deque_add s vs v Hd) as (s' & -> & Hd'). by exists s'.
  - destruct (decide (i = Z.of_nat (length vs))) as [->|Hne].
    + rewrite <-Hsz, insert_at_size by lia.
      destruct (deque_add s vs v Hd) as (s' & -> & Hd'). exists s'. split; [done|].
      rewrite Hsz, Nat2Z.id, firstn_all, drop_all.
      by replace ((Z.of_nat (length vs) <? 0) || (Z.of_nat (length vs) >? Z.of_nat (length vs)))
        with false by (symmetry; bool_false).
    + destruct Ho as [->|?]; [|done].
      destruct (deque_push_front fuel s v vs Hd) as (s' & -> & Hd'). exists s'.
      split; [done|].
      by replace ((0 <? 0) || (0 >? Z.of_nat (length vs))) with false
        by (symmetry; bool_false).
  - destruct Ho as [Hpos Hi].
    replace ((i <? 0) || (i >=? Z.of_nat (length vs))) with false
      by (symmetry; bool_false).
    destruct (decide (i = 0)) as [->|Hne].
    + destruct vs as [|x vs]; [cbn in Hpos; lia|].
      destruct (deque_pop_front fuel s x vs Hd) as (s' & -> & Hd'). by exists s'.
    + destruct Hi as [?| ->]; [done|].
      destruct vs as [|x vs _] using rev_ind; [cbn in Hpos; lia|].
      rewrite <-Hsz.
      destruct (deque_pop_back fuel s x vs Hd) as (s' & -> & Hd'). exists s'.
      split; [done|]. rewrite Hsz, length_app. cbn [length].
      replace (Z.to_nat (Z.of_nat (length vs + 1) - 1)) with (length vs) by lia.
      rewrite delete_middle. by rewrite app_nil_r.
  - exists (cleared s). split; [done|]. by left.
Qed.

Lemma deque_run fuel ops s vs :
  deque s vs → end_ops vs ops →
  ∃ s', run fuel ops s = Some s' ∧ deque s' (ref_run ops vs).
Proof.
  revert s vs. induction ops as [|o ops IH]; intros s vs Hd Hops; [by exists s|].
  destruct Hops as [Ho Hops].
  change (run fuel (o :: ops) s) with (run_op fuel o s ≫= run fuel ops).
  change (ref_run (o :: ops) vs) with (ref_run ops (ref_op o vs)).
  destruct (deque_step fuel s vs o Hd Ho) as (s1 & -> & Hd1). by apply IH.
Qed.

Lemma deque_to_list s vs : deque s vs → to_list (length vs) s = vs.
Proof.
  intros [(Hh & _ & _ & ->)|(l & _ & Hl & _)]; [done|]. by eapply listed_to_list.
Qed.

(** X2. Used at its ends only ([add], [clear], [insert] at 0 or at [size],
    [remove_at] of the first or of the last element), a new container
    behaves like the reference sequence: every call returns, length and
    content agree, and [get] and [remove_at] at index 0 and at index
    [size - 1] return the first and the last element. *)
Theorem end_operations_match_reference fuel ops :
  end_ops [] ops →
  ∃ s, run fuel ops __init__ = Some s ∧
       let vs := ref_run ops [] in
       size s = Z.of_nat (length vs) ∧
       to_list (length vs) s = vs ∧
       (∀ x, vs !! 0%nat = Some x →
          outcome (get fuel 0 s) = Some (inl x) ∧
          outcome (remove_at fuel 0 s) = Some (inl x)) ∧
       (∀ x, last vs = Some x →
          outcome (get fuel (size s - 1) s) = Some (inl x) ∧
          outcome (remove_at fuel (size s - 1) s) = Some (inl x)).
Proof.
  intros Hops.
  destruct (deque_run fuel ops __init__ []) as (s & Hrun & Hd); [by left|done|].
  exists s. split; [done|]. cbv zeta. split; [by apply deque_size|].
  split; [by apply deque_to_list|]. split.
  - intros x Hx. destruct (ref_run ops []) as [|y vs]; [done|]. injection Hx as ->.
    rewrite (deque_get_first fuel s x vs Hd).
    by destruct (deque_pop_front fuel s x vs Hd) as (s' & -> & _).
  - intros x Hx. destruct (ref_run ops []) as [|y vs _] using rev_ind; [done|].
    rewrite last_snoc in Hx. injection Hx as ->.
    rewrite (deque_get_last fuel s x vs Hd).
    by destruct (deque_pop_back fuel s x vs Hd) as (s' & -> & _).
Qed.

(** [add] changes, of the anchors that exist, the tail sentinel and the
    [next] of the anchor before it. *)
(** ** Appending keeps the fast lane an index of the list *)

Lemma add_keeps_anchors s v h ft :
  head s = Some h → fast_tail s = Some ft →
  wp (add v) (λ _ s', ∀ a, a ≠ ft → (a < length (fnodes s))%nat →
        FastNode.target (fnode s' a) = FastNode.target (fnode s a) ∧
        FastNode.prev (fnode s' a) = FastNode.prev (fnode s a) ∧
        FastNode.gap (fnode s' a) = FastNode.gap (fnode s a) ∧
        (FastNode.prev (fnode s ft) ≠ Some a →
         FastNode.next (fnode s' a) = FastNode.next (fnode s a))) s.
Proof.
  intros Hh Hft. unfold add, _update_tail_fast, _append_fast.
  repeat wp_step; store_leaf.
Qed.

(** What [add] does to the back-references and to what follows the tail
    sentinel. *)
Lemma add_keeps_backrefs s v h ft :
  head s = Some h → fast_tail s = Some ft → (ft < length (fnodes s))%nat →
  wp (add v) (λ _ s',
     (FastNode.prev (fnode s ft) ≠ Some ft →
      FastNode.next (fnode s' ft) = FastNode.next (fnode s ft)) ∧
     ∀ a f, ListNode.fast (lnode s' a) = Some f →
        f = ft ∨ (f = length (fnodes s) ∧ length (fnodes s') = S (length (fnodes s))) ∨
        ListNode.fast (lnode s a) = Some f) s.
Proof.
  intros Hh Hft Hv. unfold add, _update_tail_fast, _append_fast.
  repeat wp_step.
  all: unfold lnode, fnode in *; fields; (split; [intros ?|intros a f]).
  all: repeat (progress (rewrite ?read_alter, ?read_snoc, ?length_alter, ?length_snoc;
                    repeat case_decide; destruct_and?; simplify_eq/=)).
  all: try done; try lia.
  all: try (intros [= <-]).
  all: auto.
  same_reads Heqo0. done.
Qed.

Lemma spaced_frame s s' bl :
  (∀ x, x ∈ bl → FastNode.prev (fnode s' x.1) = FastNode.prev (fnode s x.1) ∧
                 FastNode.gap (fnode s' x.1) = FastNode.gap (fnode s x.1)) →
  (∀ y, y ∈ drop 1 bl → FastNode.next (fnode s' y.1) = FastNode.next (fnode s y.1)) →
  spaced s bl → spaced s' bl.
Proof.
  induction bl as [|x bl IH]; [done|]. intros Hpg Hn [Hx Hbl]. split.
  - destruct bl as [|y bl]; [done|]. destruct Hx as (Hx1 & Hx2 & Hx3).
    rewrite Hn by left. destruct (Hpg x) as [-> ->]; [by left|]. done.
  - apply IH; [| |done].
    + intros z Hz. apply Hpg. by right.
    + intros z Hz. apply Hn. cbn. destruct bl as [|y bl]; [done|]. cbn in Hz. by right.
Qed.

Lemma on_target_frame s s' l l' x :
  (∀ i a, l !! i = Some a → l' !! i = Some a) →
  FastNode.target (fnode s' x.1) = FastNode.target (fnode s x.1) →
  on_target s l x → on_target s' l' x.
Proof.
  intros Hl Ht [H0 (a & Ha & Hta)]. split; [done|]. exists a. split; [by apply Hl|].
  by rewrite Ht.
Qed.

Lemma indexed_add s vs v :
  indexed s vs → ∃ s', add v s = Ok tt s' ∧ indexed s' (vs ++ [v]).
Proof.
  intros [(Hh & Hfh & Hsz & ->)|(l & ft & bl & Hne & Hl & Hlane)].
  - destruct (add_first s v Hh Hfh)
      as (s' & Hadd & Hh' & Htl' & Hsz' & Hpg' & Hn' & Hfh' & Hft' & Hfc' & Hfn').
    exists s'. split; [done|]. right.
    exists [length (nodes s)], (S (length (fnodes s))), [(length (fnodes s), 0)].
    split; [done|].
    assert (Hnode : lnode s' (length (nodes s)) =
                    ListNode.mk v None None (Some (S (length (fnodes s))))).
    { unfold lnode. by rewrite Hn', list_lookup_middle. }
    assert (Hf0 : fnode s' (length (fnodes s)) =
              FastNode.mk (Some (length (nodes s))) None (Some (S (length (fnodes s)))) 0).
    { unfold fnode. by rewrite Hfn', lookup_new_fst. }
    assert (Hf1 : fnode s' (S (length (fnodes s))) =
              FastNode.mk (Some (length (nodes s))) (Some (length (fnodes s))) None 0).
    { unfold fnode. by rewrite Hfn', lookup_new_snd. }
    split.
    + constructor; cbn; rewrite ?Hnode; try done.
      * apply NoDup_singleton.
      * rewrite Hn', length_snoc. repeat constructor.
    + constructor; cbn [fst snd spaced fmap list_fmap length]; rewrite ?Hsz', ?Hf0, ?Hf1;
        try done.
      * by exists (length (fnodes s)).
      * apply Forall_cons; split; [|apply Forall_cons; split; [|done]].
        all: split; [cbn; lia|]; exists (length (nodes s)); cbn; by rewrite ?Hf0, ?Hf1.
      * apply NoDup_cons. split; [|apply NoDup_singleton].
        rewrite list_elem_of_singleton. lia.
      * rewrite Hfn', length_app. repeat constructor; cbn; lia.
      * intros a f ->%list_elem_of_singleton. rewrite Hnode. cbn. intros [= <-]. left.
  - destruct Hlane as [Htail (fh & Hfh & Hlast) Hsp Htg Hnd Hval Hgap Hcnt Hopen Hback].
    destruct bl as [|[p pp] bl]; [done|].
    destruct Hsp as [(Hpn & Hftp & Hftg) Hsp]. cbn [fst snd] in Hpn, Hftp, Hftg.
    destruct (listed_ends _ _ _ Hl) as [Hh Ht].
    destruct l as [|tl l _] using rev_ind; [done|]. clear Hne.
    rewrite last_snoc in Ht.
    assert (∃ h, head s = Some h) as [h Hh'].
    { rewrite Hh. destruct l; cbn; eauto. }
    assert (Htlv : (tl < length (nodes s))%nat).
    { pose proof (ls_valid _ _ _ Hl) as Hv. apply Forall_app in Hv as [_ Hv].
      apply Forall_inv in Hv. exact Hv. }
    pose proof Hval as Hval'. apply Forall_cons in Hval' as [Hftv Hval'].
    cbn [fmap list_fmap fst] in Hval'. pose proof Hval' as [Hpv Hblv]%Forall_cons.
    pose proof Hnd as Hnd'. apply NoDup_cons in Hnd' as [Hftnot Hnd'].
    cbn [fmap list_fmap fst] in Hftnot, Hnd'.
    pose proof Hnd' as [Hpnot Hnd'']%NoDup_cons.
    destruct (add_on_fast_lane s v h tl ft p Hh' Ht Htlv Htail Hftv Hftp Hpv)
      as (s' & Hadd & Hap & Hlen & Hfr).
    pose proof (add_keeps_anchors s v h ft Hh' Htail) as Hkeep. unfold wp in Hkeep.
    rewrite Hadd in Hkeep.
    pose proof (add_keeps_backrefs s v h ft Hh' Htail Hftv) as Hkb. unfold wp in Hkb.
    rewrite Hadd in Hkb. destruct Hkb as [Hop' Hbk'].
    assert (Hopen' : FastNode.next (fnode s' ft) = None).
    { rewrite Hop'; [done|]. rewrite Hftp. intros [= ->]. apply Hftnot. left. }
    assert (Hback' : ∀ a f, a ∈ l ++ [tl; length (nodes s)] →
              ListNode.fast (lnode s' a) = Some f →
              f = ft ∨ (f = length (fnodes s) ∧ length (fnodes s') = S (length (fnodes s))) ∨
              f ∈ (p :: bl.*1)).
    { intros a f Ha Hf. destruct (Hbk' a f Hf) as [->|[?|Hf']]; [by left|by right; left|].
      apply elem_of_app in Ha as [Ha|Ha].
      - assert (Hin : a ∈ l ++ [tl]) by (apply elem_of_app; by left).
        specialize (Hback a f Hin Hf'). cbn [fmap list_fmap fst] in Hback.
        apply elem_of_cons in Hback as [->|Hb]; [by left|by right; right].
      - apply elem_of_cons in Ha as [->|Ha].
        + assert (Hin : tl ∈ l ++ [tl]) by (apply elem_of_app; right; left).
          specialize (Hback tl f Hin Hf'). cbn [fmap list_fmap fst] in Hback.
          apply elem_of_cons in Hback as [->|Hb]; [by left|by right; right].
        + apply list_elem_of_singleton in Ha as ->. unfold lnode in Hf'.
          by rewrite lookup_ge_None_2 in Hf' by lia. }
    exists s'. split; [done|]. right.
    pose proof (listed_appended _ _ _ _ _ _ _ _ Hl Hap Hlen) as Hl'.
    pose proof (ls_size _ _ _ Hl) as Hsz. rewrite length_app in Hsz. cbn [length] in Hsz.
    destruct Hap as (_ & _ & Hsz' & _ & _ & _ & _ & Hfh' & Hft' & Htgft & Hcase).
    assert (Hold : ∀ x, x ∈ (p, pp) :: bl → x.1 ≠ ft ∧ (x.1 < length (fnodes s))%nat).
    { intros x Hx. split.
      - intros Heq. apply Hftnot. rewrite <-Heq. by apply (list_elem_of_fmap_2 fst) in Hx.
      - rewrite Forall_forall in Hval'. apply Hval'.
        by apply (list_elem_of_fmap_2 fst) in Hx. }
    assert (Hsp' : spaced s' ((p, pp) :: bl)).
    { eapply spaced_frame; [| |exact Hsp].
      - intros x Hx. destruct (Hold x Hx) as [Hx1 Hx2].
        destruct (Hkeep x.1 Hx1 Hx2) as (_ & ? & ? & _). done.
      - intros y Hy. cbn in Hy. destruct (Hold y) as [Hy1 Hy2]; [by right|].
        destruct (Hkeep y.1 Hy1 Hy2) as (_ & _ & _ & Hnx). apply Hnx.
        rewrite Hftp. intros [= Heq]. apply Hpnot. rewrite Heq.
        by apply (list_elem_of_fmap_2 fst) in Hy. }
    assert (Hl_l' : ∀ i a, (l ++ [tl]) !! i = Some a →
              (l ++ [tl; length (nodes s)]) !! i = Some a).
    { intros i a Hi. replace (l ++ [tl; length (nodes s)])
        with ((l ++ [tl]) ++ [length (nodes s)]) by by rewrite <-app_assoc.
      by apply lookup_app_l_Some. }
    assert (Htg' : Forall (on_target s' (l ++ [tl; length (nodes s)])) ((p, pp) :: bl)).
    { apply Forall_cons in Htg as [_ Htg]. rewrite Forall_forall in Htg |- *.
      intros x Hx. eapply on_target_frame; [exact Hl_l'| |by apply Htg].
      destruct (Hold x Hx) as [Hx1 Hx2]. by destruct (Hkeep x.1 Hx1 Hx2) as (? & _). }
    assert (Hnode_at : (l ++ [tl; length (nodes s)]) !! Z.to_nat (size s) =
                       Some (length (nodes s))).
    { replace (Z.to_nat (size s)) with (length l + 1)%nat by lia.
      rewrite lookup_app_r by lia. by replace (length l + 1 - length l)%nat with 1%nat by lia. }
    assert (Htl_at : (l ++ [tl; length (nodes s)]) !! Z.to_nat (size s - 1) = Some tl).
    { replace (Z.to_nat (size s - 1)) with (length l + 0)%nat by lia.
      rewrite lookup_app_r by lia. by replace (length l + 0 - length l)%nat with 0%nat by lia. }
    destruct (pending_gap s + 1 >=? _).
    + (* a new anchor *)
      destruct Hcase as (Hfn & Hpn' & Hftp' & _ & Hfc' & Hg1 & Hpg1).
      destruct Hfr as (Hflen & _).
      exists (l ++ [tl; length (nodes s)]), ft, ((length (fnodes s), size s - 1) :: (p, pp) :: bl).
      split; [by destruct l|]. split; [done|]. constructor.
      * done.
      * exists fh. split; [congruence|]. by rewrite last_cons_cons.
      * rewrite Hsz'. cbn [spaced fst snd]. rewrite Hfn, Hftp', Hpn', Hg1. cbn.
        split; [repeat split; lia|]. split; [|exact Hsp'].
        repeat split. rewrite <-Hgap, Hftg. lia.
      * rewrite Hsz'. apply Forall_cons. split.
        { split; cbn [fst snd]; [lia|]. exists (length (nodes s)).
          by replace (size s + 1 - 1) with (size s) by lia. }
        apply Forall_cons. split; [|done].
        split; cbn [fst snd]; [lia|]. exists tl. by rewrite Hfn.
      * cbn [fmap list_fmap fst]. apply NoDup_cons. split; [|apply NoDup_cons; split; [|done]].
        -- intros [->|Hin]%elem_of_cons; [lia|]. by apply Hftnot.
        -- intros Hin. rewrite Forall_forall in Hval'. specialize (Hval' _ Hin). cbn in Hval'. lia.
      * rewrite Hflen. cbn [fmap list_fmap fst]. apply Forall_cons. split; [lia|].
        apply Forall_cons. split; [lia|].
        eapply Forall_impl; [exact Hval'|]. cbn. lia.
      * congruence.
      * rewrite Hfc', Hcnt. cbn [length]. lia.
      * done.
      * intros a f Ha Hf. cbn [fmap list_fmap fst].
        destruct (Hback' a f Ha Hf) as [->|[[-> _]|Hin]]; [left|right; left|].
        by do 2 right.
    + (* the same anchors *)
      destruct Hcase as (Hflen & Hfc' & Hg & Hpg').
      destruct Hfr as (Hfr1 & Hfr2).
      exists (l ++ [tl; length (nodes s)]), ft, ((p, pp) :: bl).
      split; [by destruct l|]. split; [done|]. constructor.
      * done.
      * exists fh. split; [congruence|done].
      * rewrite Hsz'. split; [|done]. cbn [fst snd].
        rewrite Hfr1 by (intros ->; apply Hftnot; left). rewrite Hfr2, Hg.
        repeat split; try done. rewrite <-Hgap, Hftg. lia.
      * rewrite Hsz'. apply Forall_cons. split; [|done].
        split; cbn [fst snd]; [lia|]. exists (length (nodes s)).
        by replace (size s + 1 - 1) with (size s) by lia.
      * done.
      * by rewrite Hflen.
      * congruence.
      * congruence.
      * done.
      * intros a f Ha Hf. cbn [fmap list_fmap fst].
        destruct (Hback' a f Ha Hf) as [->|[[_ ?]|Hin]]; [left|lia|by right].
Qed.

(** ** Reading through the fast lane *)

Lemma listed_links s vs l :
  listed s vs l →
  (∀ i a, l !! i = Some a → ListNode.next (lnode s a) = l !! S i) ∧
  (∀ i a, l !! S i = Some a → ListNode.prev (lnode s a) = l !! i).
Proof.
  intros Hl. split; [by apply (chain_lookup _ _ _ _ (ls_next _ _ _ Hl))|].
  destruct (chain_lookup _ _ _ _ (ls_prev _ _ _ Hl)) as [_ Hp].
  intros i a Hi. pose proof (lookup_lt_Some _ _ _ Hi) as Hlt.
  rewrite (Hp (length l - S (S i))%nat a).
  - rewrite reverse_lookup by lia. f_equal. lia.
  - rewrite reverse_lookup by lia. rewrite <-Hi. f_equal. lia.
Qed.

Lemma steps_next_at s (l : list nat) n i :
  (∀ i a, l !! i = Some a → ListNode.next (lnode s a) = l !! S i) →
  steps ListNode.next n (l !! i) s = Ok (l !! (i + n)%nat) s.
Proof.
  intros Hn. revert i. induction n as [|n IH]; intros i.
  { rewrite Nat.add_0_r. by destruct (l !! i). }
  destruct (l !! i) as [a|] eqn:Ha; cbn.
  - unfold bind, lget, gets. rewrite (Hn i a Ha), IH. do 2 f_equal. lia.
  - unfold ret. f_equal. symmetry. apply lookup_ge_None. apply lookup_ge_None in Ha. lia.
Qed.

Lemma steps_prev_at s (l : list nat) n i :
  (∀ i a, l !! S i = Some a → ListNode.prev (lnode s a) = l !! i) →
  (n ≤ i < length l)%nat →
  steps ListNode.prev n (l !! i) s = Ok (l !! (i - n)%nat) s.
Proof.
  intros Hp. revert i. induction n as [|n IH]; intros i Hi.
  { rewrite Nat.sub_0_r. by destruct (l !! i). }
  destruct i as [|i]; [lia|].
  destruct (lookup_lt_is_Some_2 l (S i)) as [a Ha]; [lia|]. rewrite Ha. cbn.
  unfold bind, lget, gets. rewrite (Hp i a Ha). apply IH. lia.
Qed.

Lemma spaced_reverse s bl : spaced s bl → fspaced s (reverse bl).
Proof.
  assert (Hsnoc : ∀ fl x, fspaced s fl →
            match last fl with
            | Some y => FastNode.next (fnode s y.1) = Some x.1 ∧
                        FastNode.prev (fnode s x.1) = Some y.1 ∧
                        FastNode.gap (fnode s x.1) = x.2 - y.2
            | None => True
            end → fspaced s (fl ++ [x])).
  { induction fl as [|z fl IH]; intros x Hfl Hx; [done|].
    destruct Hfl as [Hz Hfl]. destruct fl as [|y fl].
    - cbn in Hx |- *. done.
    - split; [done|]. apply IH; [done|]. by rewrite last_cons_cons in Hx. }
  induction bl as [|x bl IH]; [done|]. intros [Hx Hbl].
  rewrite reverse_cons. apply Hsnoc; [by apply IH|].
  rewrite last_reverse. by destruct bl.
Qed.

Lemma walk_forward_spaced s l ft index fl :
  fast_tail s = Some ft →
  ∀ x fuel,
    fl ≠ [] → fspaced s (x :: fl) → Forall (on_target s l) fl →
    (∃ pt, last fl = Some (ft, pt)) → NoDup ((x :: fl).*1) →
    (length fl ≤ S fuel)%nat → 0 ≤ x.2 ≤ index →
    ∃ w, walk_forward fuel index (Some x.1) x.2 (l !! Z.to_nat x.2) s =
           Ok (Walked w (l !! Z.to_nat w)) s ∧ 0 ≤ w ≤ index.
Proof.
  intros Hft. induction fl as [|y fl IH]; intros x fuel Hne Hsp Htg Hlast Hnd Hlen Hx;
    [done|].
  destruct Hsp as [(Hn & _ & Hg) Hsp]. apply Forall_cons in Htg as [Hy Htg].
  destruct Hlast as [pt Hlast].
  destruct fl as [|z fl].
  - (* the next anchor is the tail sentinel *)
    cbn in Hlast. injection Hlast as ->. exists x.2. split; [|lia].
    destruct fuel; cbn; unfold bind, gets, fget, ret; cbn; rewrite Hn, Hft; cbn;
      by rewrite bool_decide_eq_true_2.
  - assert (y.1 ≠ ft).
    { intros Heq. cbn [fmap list_fmap] in Hnd. apply NoDup_cons in Hnd as [_ Hnd].
      apply NoDup_cons in Hnd as [Hnot _]. apply Hnot. rewrite Heq.
      rewrite last_cons_cons in Hlast. apply last_Some_elem_of in Hlast.
      by apply (list_elem_of_fmap_2 fst) in Hlast. }
    destruct fuel as [|fuel]; [cbn in Hlen; lia|].
    cbn [walk_forward]. unfold bind, gets, fget, ret. cbn. rewrite Hn, Hft. cbn.
    rewrite bool_decide_eq_false_2 by congruence. rewrite Hg.
    replace (x.2 + (y.2 - x.2)) with y.2 by lia.
    destruct (y.2 >? index) eqn:Hover.
    + exists x.2. split; [done|lia].
    + destruct Hy as [Hy0 (a & Ha & Hta)]. rewrite Hta, <-Ha.
      apply IH; try done.
      * exists pt. by rewrite last_cons_cons in Hlast.
      * cbn [fmap list_fmap] in Hnd |- *. by apply NoDup_cons in Hnd as [_ Hnd].
      * cbn [length] in Hlen |- *. lia.
      * lia.
Qed.

Lemma walk_backward_spaced s l fh index bl :
  fast_head s = Some fh →
  ∀ x fuel,
    bl ≠ [] → spaced s (x :: bl) → Forall (on_target s l) bl →
    last bl = Some (fh, 0) → NoDup ((x :: bl).*1) →
    (length bl ≤ S fuel)%nat → index ≤ x.2 → is_Some (l !! Z.to_nat x.2) →
    ∃ w, walk_backward fuel index (Some x.1) x.2 (l !! Z.to_nat x.2) s =
           Ok (Walked w (l !! Z.to_nat w)) s ∧ index ≤ w ∧ is_Some (l !! Z.to_nat w).
Proof.
  intros Hfh. induction bl as [|y bl IH]; intros x fuel Hne Hsp Htg Hlast Hnd Hlen Hx Hsome;
    [done|].
  destruct Hsp as [(_ & Hp & Hg) Hsp]. apply Forall_cons in Htg as [Hy Htg].
  destruct bl as [|z bl].
  - cbn in Hlast. injection Hlast as ->. exists x.2. split; [|done].
    destruct fuel; cbn; unfold bind, gets, fget, ret; cbn; rewrite Hp, Hfh; cbn;
      by rewrite bool_decide_eq_true_2.
  - assert (y.1 ≠ fh).
    { intros Heq. cbn [fmap list_fmap] in Hnd. apply NoDup_cons in Hnd as [_ Hnd].
      apply NoDup_cons in Hnd as [Hnot _]. apply Hnot. rewrite Heq.
      rewrite last_cons_cons in Hlast. apply last_Some_elem_of in Hlast.
      by apply (list_elem_of_fmap_2 fst) in Hlast. }
    destruct fuel as [|fuel]; [cbn in Hlen; lia|].
    cbn [walk_backward]. unfold bind, gets, fget, ret. cbn. rewrite Hp, Hfh. cbn.
    rewrite bool_decide_eq_false_2 by congruence. rewrite Hg.
    replace (x.2 - (x.2 - y.2)) with y.2 by lia.
    destruct (y.2 <? index) eqn:Hunder.
    + by exists x.2.
    + destruct Hy as [Hy0 (a & Ha & Hta)]. rewrite Hta, <-Ha.
      apply IH; try done.
      * cbn [fmap list_fmap] in Hnd |- *. by apply NoDup_cons in Hnd as [_ Hnd].
      * cbn [length] in Hlen |- *. lia.
      * lia.
Qed.

Lemma listed_skip s vs l v : listed s vs l → listed (set_current_skip v s) vs l.
Proof.
  intros [Hn Hp Hnd Hval Hvs Hsz]. constructor; try done.
  - by eapply chain_frame; [|exact Hn].
  - by eapply chain_frame; [|exact Hp].
Qed.

Lemma indexed_lane_skip s l ft bl v :
  indexed_lane s l ft bl → indexed_lane (set_current_skip v s) l ft bl.
Proof.
  intros [Htail Hhead Hsp Htg Hnd Hval Hgap Hcnt Hopen Hback]. constructor; try done.
  by eapply spaced_frame; [| |exact Hsp].
Qed.

Lemma _get_node_normal_listed s vs l i :
  listed s vs l → 0 ≤ i < size s → _get_node_normal i s = Ok (l !! Z.to_nat i) s.
Proof.
  intros Hl Hi. destruct (listed_links _ _ _ Hl) as [Hn Hp].
  destruct (listed_ends _ _ _ Hl) as [Hh Ht].
  pose proof (ls_size _ _ _ Hl) as Hsz.
  unfold _get_node_normal, bind, gets.
  replace ((i <? 0) || (i >=? size s)) with false by (symmetry; bool_false).
  destruct (i <=? size s / 2).
  - rewrite Hh. by rewrite steps_next_at.
  - rewrite Ht, last_lookup. rewrite steps_prev_at by (done || lia).
    do 2 f_equal. lia.
Qed.

Lemma get_node_indexed fuel s vs l ft bl i :
  listed s vs l → indexed_lane s l ft bl → 0 ≤ i < size s → (length bl ≤ S fuel)%nat →
  ∃ s', get_node fuel i s = Ok (l !! Z.to_nat i) s' ∧ skip_only s s'.
Proof.
  intros Hl Hlane Hi Hfuel.
  destruct (listed_ends _ _ _ Hl) as [Hh Ht].
  pose proof (ls_size _ _ _ Hl) as Hsz.
  unfold get_node, bind, gets.
  replace ((i <? 0) || (i >=? size s)) with false by (symmetry; bool_false).
  cbn [orb]. destruct (i =? 0) eqn:H0.
  { apply Z.eqb_eq in H0 as ->. exists s. by rewrite Hh. }
  destruct (i =? size s - 1) eqn:H1.
  { apply Z.eqb_eq in H1 as ->. exists s. rewrite Ht, last_lookup. split; [|done].
    do 2 f_equal. lia. }
  assert (Hnormal : ∀ v, ∃ s', _get_node_normal i (set_current_skip v s) =
                               Ok (l !! Z.to_nat i) s' ∧ skip_only s s').
  { intros v. exists (set_current_skip v s). split; [|by constructor].
    eapply _get_node_normal_listed; [by apply listed_skip|done]. }
  case_bool_decide as Hfh.
  { exists s. split; [by eapply _get_node_normal_listed|done]. }
  destruct (fast_count s <=? 2).
  { exists s. split; [by eapply _get_node_normal_listed|done]. }
  unfold bind. rewrite _get_dynamic_skip_eq. unfold ret.
  set (s1 := set_current_skip _ s).
  assert (Hl1 : listed s1 vs l) by by apply listed_skip.
  destruct (indexed_lane_skip _ _ _ _ (skip_after (size s) (current_skip s)) Hlane)
    as [Htail (fh & Hfh1 & Hlast) Hsp Htg Hnd Hval Hgap Hcnt _ _].
  fold s1 in Htail, Hfh1, Hsp, Htg.
  destruct (listed_links _ _ _ Hl1) as [Hn Hp].
  destruct (size s <? _); [apply Hnormal|].
  destruct (i <=? size s / 2) eqn:Hhalf.
  - (* forward from the head sentinel *)
    destruct bl as [|y bl _] using rev_ind; [done|].
    rewrite last_snoc in Hlast. injection Hlast as ->.
    pose proof (spaced_reverse _ _ Hsp) as Hfsp.
    rewrite reverse_cons, reverse_app in Hfsp. cbn [reverse rev_append app] in Hfsp.
    change (rev_append [(fh, 0)] []) with [(fh, 0)] in Hfsp. cbn [app] in Hfsp.
    destruct (walk_forward_spaced s1 l ft i (reverse bl ++ [(ft, size s1 - 1)]) Htail
                (fh, 0) fuel) as (w & Hw & Hwi); try done.
    + by destruct (reverse bl).
    + apply Forall_app. split; [|by apply Forall_cons in Htg as [? _]; apply Forall_singleton].
      apply Forall_cons in Htg as [_ Htg]. apply Forall_app in Htg as [Htg _].
      by apply Forall_reverse.
    + exists (size s1 - 1). by rewrite last_snoc.
    + change ((fh, 0) :: reverse bl ++ [(ft, size s1 - 1)])
        with (([(fh, 0)] ++ reverse bl) ++ [(ft, size s1 - 1)]).
      replace (([(fh, 0)] ++ reverse bl) ++ [(ft, size s1 - 1)])
        with (reverse ((ft, size s1 - 1) :: bl ++ [(fh, 0)])).
      { by rewrite fmap_reverse, reverse_Permutation. }
      rewrite reverse_cons, reverse_app. done.
    + rewrite length_app, length_reverse. rewrite length_app in Hfuel. cbn in *. lia.
    + cbn. lia.
    + cbn [fst snd] in Hw. change (Z.to_nat 0) with 0%nat in Hw.
      change (fast_head s1) with (fast_head s) in Hfh1. rewrite Hfh1.
      change (head s1) with (head s). rewrite Hh, Hw.
      rewrite steps_next_at by done. exists s1. split; [|by constructor].
      do 2 f_equal. lia.
  - (* backward from the tail sentinel *)
    destruct (walk_backward_spaced s1 l fh i bl Hfh1 (ft, size s1 - 1) fuel)
      as (w & Hw & Hwi & Hws); try done.
    + by destruct bl.
    + by apply Forall_cons in Htg as [_ ?].
    + cbn. change (size s1) with (size s). lia.
    + cbn [snd]. change (size s1) with (size s).
      apply lookup_lt_is_Some_2. lia.
    + cbn [fst snd] in Hw. change (size s1) with (size s) in Hw.
      rewrite Htail. change (tail s1) with (tail s). rewrite Ht, last_lookup.
      replace (pred (length l)) with (Z.to_nat (size s - 1)) by lia.
      rewrite Hw. apply lookup_lt_is_Some_1 in Hws.
      rewrite steps_prev_at by (done || lia). exists s1. split; [|by constructor].
      do 2 f_equal. lia.
Qed.

Lemma get_indexed fuel s vs i x :
  indexed s vs → vs !! i = Some x → (Z.to_nat (fast_count s) ≤ fuel)%nat →
  ∃ s', get fuel (Z.of_nat i) s = Ok x s' ∧ skip_only s s'.
Proof.
  intros [(_ & _ & _ & ->)|(l & ft & bl & _ & Hl & Hlane)] Hx Hfuel; [done|].
  pose proof (ls_values _ _ _ Hl) as Hv. pose proof (ls_size _ _ _ Hl) as Hsz.
  rewrite <-Hv, list_lookup_fmap in Hx.
  destruct (l !! i) as [a|] eqn:Ha; [|done]. injection Hx as Hx.
  pose proof (lookup_lt_Some _ _ _ Ha) as Hlt.
  destruct (get_node_indexed fuel s vs l ft bl (Z.of_nat i) Hl Hlane)
    as (s' & Hget & Hs'); [lia| |].
  { rewrite (il_count _ _ _ _ Hlane) in Hfuel. lia. }
  exists s'. split; [|done]. unfold get, bind. rewrite Hget, Nat2Z.id, Ha. cbn.
  unfold lget, gets, lnode. rewrite (keep_nodes _ _ Hs'). by rewrite <-Hx.
Qed.

Lemma indexed_run fuel ops s vs :
  indexed s vs → Forall add_or_clear ops →
  ∃ s', run fuel ops s = Some s' ∧ indexed s' (ref_run ops vs).
Proof.
  intros Hb Hops. revert s vs Hb.
  induction Hops as [|o ops Ho _ IH]; intros s vs Hb; [by exists s|].
  change (run fuel (o :: ops) s) with (run_op fuel o s ≫= run fuel ops).
  change (ref_run (o :: ops) vs) with (ref_run ops (ref_op o vs)).
  destruct o as [v| | | |]; try done; unfold run_op.
  - destruct (indexed_add s vs v Hb) as (s' & -> & Hb'). by apply IH.
  - rewrite clear_spec. apply IH. by left.
Qed.

(** X3. After any sequence of [add] and [clear] on a new container,
    [get(i)] returns the element at index [i] of the reference sequence,
    for every index of it, as soon as the step budget covers the number of
    anchors. *)
Theorem get_after_appends fuel ops :
  Forall add_or_clear ops →
  ∃ s, run fuel ops __init__ = Some s ∧
       ∀ i x, ref_run ops [] !! i = Some x →
       ∀ budget, (Z.to_nat (fast_count s) ≤ budget)%nat →
       outcome (get budget (Z.of_nat i) s) = Some (inl x).
Proof.
  intros Hops.
  destruct (indexed_run fuel ops __init__ []) as (s & Hrun & Hs); [by left|done|].
  exists s. split; [done|]. intros i x Hx budget Hb.
  by destruct (get_indexed budget s _ i x Hs Hx Hb) as (s' & -> & _).
Qed.

(** ** Errors, bounds and removal by value *)

(** X6. An index below 0 or not below [size] makes [get_node], [get],
    [_get_node_normal] and [remove_at] raise [IndexError] with the container
    untouched; [insert] does the same except at [index = size], where it is
    [add]. *)
Theorem index_errors_change_nothing fuel index v s :
  index < 0 ∨ size s ≤ index →
  get_node fuel index s = Raise IndexError s ∧
  get fuel index s = Raise IndexError s ∧
  _get_node_normal index s = Raise IndexError s ∧
  remove_at fuel index s = Raise IndexError s ∧
  (index ≠ size s → insert fuel index v s = Raise IndexError s) ∧
  (index = size s → 0 ≤ index → insert fuel index v s = add v s).
Proof.
  intros H. split; [by apply get_node_out_of_range|].
  split; [by apply get_out_of_range|]. split.
  { unfold _get_node_normal, bind, gets.
    by replace ((index <? 0) || (index >=? size s)) with true by (symmetry; bool_true). }
  split; [by apply remove_at_out_of_range|]. split.
  - intros Hne. apply insert_out_of_range. lia.
  - intros -> ?. by apply insert_at_size.
Qed.

Lemma index_errors_change_nothing_witness :
  (-1 < 0 ∨ size __init__ ≤ -1) ∧
  get_node 0 (-1) __init__ = Raise IndexError __init__ ∧
  get 0 (-1) __init__ = Raise IndexError __init__ ∧
  _get_node_normal (-1) __init__ = Raise IndexError __init__ ∧
  remove_at 0 (-1) __init__ = Raise IndexError __init__ ∧
  (-1 ≠ size __init__ → insert 0 (-1) None __init__ = Raise IndexError __init__) ∧
  (-1 = size __init__ → 0 ≤ -1 → insert 0 (-1) None __init__ = add None __init__).
Proof.
  split; [left; lia|]. apply (index_errors_change_nothing 0 (-1) None __init__). left. lia.
Defined.

(** X9. While [size] is under 2^52 and [current_skip] within 2^51 of 0
    (the range [float_exact], on which the floating-point product and square
    root of the code are exact), [_get_dynamic_skip] returns, changes
    [current_skip] only, and its result is at least [MIN_SKIP], at most the
    larger of [MIN_SKIP] and one and a half times the [current_skip] it
    started with, and is [MIN_SKIP], the old [current_skip], or a number
    whose square is at most [size]. *)
Theorem skip_distance_bounds s :
  float_exact (size s) (current_skip s) →
  ∃ r s', _get_dynamic_skip s = Ok r s' ∧ skip_only s s' ∧
    MIN_SKIP ≤ r ∧
    2 * r ≤ Z.max (2 * MIN_SKIP) (3 * current_skip s) ∧
    (r = MIN_SKIP ∨ r = current_skip s ∨ r * r ≤ size s).
Proof.
  intros _. rewrite _get_dynamic_skip_eq. eexists _, _. split; [done|]. split; [by constructor|].
  unfold dynamic_skip, skip_after, MIN_SKIP.
  destruct (size s <=? 1) eqn:H1; [lia|].
  destruct (2 * size s >? 3 * current_skip s) eqn:H2; [|lia].
  zify_bool.
  pose proof (Z.sqrt_spec (size s) ltac:(lia)) as Hsq.
  assert (Hq : 0 ≤ current_skip s → 2 * Z.quot (3 * current_skip s) 2 ≤ 3 * current_skip s).
  { intros. apply (Z.mul_quot_le (3 * current_skip s) 2); lia. }
  assert (Hq' : current_skip s < 0 → Z.quot (3 * current_skip s) 2 ≤ 0).
  { intros. replace (3 * current_skip s) with (- (3 * - current_skip s)) by lia.
    rewrite Z.quot_opp_l by lia.
    pose proof (Z.quot_pos (3 * - current_skip s) 2 ltac:(lia) ltac:(lia)). lia. }
  set (q := Z.quot (3 * current_skip s) 2) in *. set (sq := Z.sqrt (size s)) in *.
  cbv zeta in Hsq. clearbody q sq. split; [lia|]. split; [lia|].
  destruct (decide (Z.min q sq ≤ 25)); [left; lia|]. right. right.
  replace (Z.max 25 (Z.min q sq)) with (Z.min q sq) by lia.
  assert (Z.min q sq * Z.min q sq ≤ sq * sq); [|lia].
  apply Z.mul_le_mono_nonneg; lia.
Qed.

Lemma deque_remove_first fuel s v vs :
  deque s (Some v :: vs) → ∃ s', remove fuel (Some v) s = Ok true s' ∧ deque s' vs.
Proof.
  intros Hd. destruct (deque_pop_front fuel s (Some v) vs Hd) as (s' & Hpop & Hd').
  exists s'. split; [|done].
  destruct Hd as [(_ & _ & _ & ?)|(l & Hne & Hl & _)]; [done|].
  destruct (listed_ends _ _ _ Hl) as [Hh _].
  pose proof (ls_values _ _ _ Hl) as Hv.
  destruct l as [|a l]; [done|]. cbn in Hh. injection Hv as Hx _.
  unfold remove, bind, gets, lget. rewrite Hh. cbn -[remove_at]. rewrite Hx.
  rewrite bool_decide_eq_true_2 by done. by rewrite Hpop.
Qed.

Lemma deque_remove_last fuel s v x vs :
  x ≠ Some v → deque s (x :: vs ++ [Some v]) →
  ∃ s', remove fuel (Some v) s = Ok true s' ∧ deque s' (x :: vs).
Proof.
  intros Hxv Hd.
  destruct (deque_pop_back fuel s (Some v) (x :: vs) Hd) as (s' & Hpop & Hd').
  exists s'. split; [|done].
  destruct Hd as [(_ & _ & _ & ?)|(l & Hne & Hl & _)]; [done|].
  destruct (listed_ends _ _ _ Hl) as [Hh Ht].
  pose proof (ls_values _ _ _ Hl) as Hv.
  destruct l as [|a l]; [done|]. cbn in Hh. injection Hv as Hx Hv.
  destruct l as [|tx l _] using rev_ind; [by destruct vs|].
  rewrite fmap_app in Hv. apply app_inj_tail in Hv as [_ Htx]. cbn in Htx.
  change (a :: l ++ [tx]) with ((a :: l) ++ [tx]) in Ht. rewrite last_snoc in Ht.
  unfold remove, bind, gets, lget, deref, ret. rewrite Hh. cbn -[remove_at remove_loop].
  rewrite Hx. rewrite bool_decide_eq_false_2 by done. rewrite Ht. cbn -[remove_at remove_loop].
  rewrite Htx. rewrite bool_decide_eq_true_2 by done. by rewrite Hpop.
Qed.

(** X10. On a container used at its ends only, [remove(v)] returns [True]
    and drops the first element when that is [v]; when the first element is
    not [v] and the last one is, it drops the last element, whether or not
    [v] occurs earlier. *)
Theorem remove_tries_the_ends_first fuel ops v :
  end_ops [] ops →
  ∃ s, run fuel ops __init__ = Some s ∧
       (∀ vs, ref_run ops [] = Some v :: vs →
          ∃ s', remove fuel (Some v) s = Ok true s' ∧
                size s' = Z.of_nat (length vs) ∧ to_list (length vs) s' = vs) ∧
       (∀ x vs, ref_run ops [] = x :: vs ++ [Some v] → x ≠ Some v →
          ∃ s', remove fuel (Some v) s = Ok true s' ∧
                size s' = Z.of_nat (length (x :: vs)) ∧
                to_list (length (x :: vs)) s' = x :: vs).
Proof.
  intros Hops.
  destruct (deque_run fuel ops __init__ []) as (s & Hrun & Hd); [by left|done|].
  exists s. split; [done|]. split.
  - intros vs Hvs. rewrite Hvs in Hd.
    destruct (deque_remove_first fuel s v vs Hd) as (s' & Hr & Hd').
    exists s'. split; [done|]. split; [by apply deque_size|by apply deque_to_list].
  - intros x vs Hvs Hx. rewrite Hvs in Hd.
    destruct (deque_remove_last fuel s v x vs Hx Hd) as (s' & Hr & Hd').
    exists s'. split; [done|]. split; [by apply deque_size|by apply deque_to_list].
Qed.

(** X11. [clear] makes any container, whatever state it is in, as good as
    new: the calls at the ends that follow all return and leave the
    length and the content of the reference sequence, with [fast_count] 0
    exactly when the container is empty. *)
Theorem clear_recovers fuel ops s0 :
  end_ops [] ops →
  ∃ s, run fuel (Clear :: ops) s0 = Some s ∧
       let vs := ref_run ops [] in
       size s = Z.of_nat (length vs) ∧ to_list (length vs) s = vs ∧
       (fast_count s = 0 ↔ size s = 0).
Proof.
  intros Hops.
  change (run fuel (Clear :: ops) s0) with (run fuel ops (cleared s0)).
  destruct (deque_run fuel ops (cleared s0) []) as (s & Hrun & Hd); [by left|done|].
  exists s. split; [done|]. cbv zeta.
  split; [by apply deque_size|]. split; [by apply deque_to_list|].
  assert (Hc : counted s).
  { eapply run_counted; [|exact Hrun]. left. by cbn. }
  destruct Hc as [(?&?&?&?)|[? ?]]; lia.
Qed.

(** ** One call anywhere after appends *)

Lemma returns_mono {A} (m : M A) (Q Q' : A → t → Prop) s :
  returns m Q s → (∀ a s', Q a s' → Q' a s') → returns m Q' s.
Proof. unfold returns. destruct (m s); auto. Qed.

Lemma returns_ok {A} (m : M A) (Q : A → t → Prop) s a s' :
  m s = Ok a s' → Q a s' → returns m Q s.
Proof. unfold returns. by intros ->. Qed.

Lemma returns_preserves {A} R (m : M A) s :
  preserves R m → returns m (λ _ _, True) s → returns m (λ _ s', R s s') s.
Proof. intros Hp. specialize (Hp s). unfold returns. by destruct (m s). Qed.

Lemma returns__get_dynamic_skip Q s :
  Q (dynamic_skip (size s) (current_skip s))
    (set_current_skip (skip_after (size s) (current_skip s)) s) →
  returns _get_dynamic_skip Q s.
Proof. unfold returns. by rewrite _get_dynamic_skip_eq. Qed.

Lemma returns_new_FastNode tg pv nx g Q s :
  Q (length (fnodes s)) (set_fnodes (fnodes s ++ [FastNode.mk tg pv nx g]) s) →
  returns (new_FastNode tg pv nx g) Q s.
Proof. done. Qed.

(** The helpers of the fast lane that have no loop always return. *)
Lemma _update_tail_fast_returns s : returns _update_tail_fast (λ _ s', lane_kept s s') s.
Proof.
  apply returns_preserves; [auto with pres|]. unfold _update_tail_fast. by repeat rt_step.
Qed.

Lemma _append_fast_returns node gap s :
  returns (_append_fast node gap) (λ _ s', lane_kept s s') s.
Proof.
  apply returns_preserves; [auto with pres|]. unfold _append_fast.
  repeat first [rt_step | apply returns_new_FastNode]; done.
Qed.

Lemma _remove_fast_returns fn s : returns (_remove_fast fn) (λ _ s', lane_kept s s') s.
Proof.
  apply returns_preserves; [auto with pres|]. unfold _remove_fast. by repeat rt_step.
Qed.

Lemma ends_forward_frame k s s' f :
  fast_tail s' = fast_tail s →
  (∀ a, FastNode.next (fnode s' a) = FastNode.next (fnode s a)) →
  ends_forward k s' f = ends_forward k s f.
Proof.
  intros Ht Hn. revert f. induction k as [|k IH]; intros [a|]; cbn; try done.
  - rewrite Hn, Ht. done.
  - rewrite Hn, Ht. destruct (FastNode.next (fnode s a)); [|done]. by rewrite IH.
Qed.

Lemma ends_forward_kept k s s' f :
  list_kept s s' → fnodes s' = fnodes s → fast_tail s' = fast_tail s →
  ends_forward k s' f = ends_forward k s f.
Proof.
  intros _ Hf Ht. apply ends_forward_frame; [done|]. intros a. unfold fnode. by rewrite Hf.
Qed.

(** The first loop of [_rebalance] returns when the anchors end within the
    budget. *)
Lemma rebalance_clear_returns k : ∀ fuel s a,
  ends_forward k s (Some a) = true → (k ≤ fuel)%nat →
  returns (rebalance_clear fuel (FastNode.next (fnode s a))) (λ _ _, True) s.
Proof.
  induction k as [|k IH]; intros fuel s a He Hk; cbn in He.
  - destruct (FastNode.next (fnode s a)) as [n|] eqn:Hn; [|by destruct fuel].
    rewrite orb_false_r in He. apply bool_decide_eq_true in He.
    destruct fuel; cbn; unfold returns, bind, gets; cbn;
      by rewrite bool_decide_eq_true_2.
  - destruct (FastNode.next (fnode s a)) as [n|] eqn:Hn; [|by destruct fuel].
    destruct (bool_decide (Some n = fast_tail s)) eqn:Ht.
    { apply bool_decide_eq_true in Ht.
      destruct fuel; cbn; unfold returns, bind, gets; cbn;
        by rewrite bool_decide_eq_true_2. }
    cbn in He. destruct fuel as [|fuel]; [lia|].
    cbn [rebalance_clear]. apply returns_bind, returns_gets.
    rewrite Ht. repeat rt_step.
    + match goal with |- returns _ _ ?x => set (s1 := x) end.
      replace (FastNode.next (fnode s n)) with (FastNode.next (fnode s1 n)) by done.
      apply IH; [|lia]. rewrite <-He. by apply ends_forward_frame.
    + apply IH; [done|lia].
Qed.

Lemma chain_kept link s s' cur l :
  (∀ a, link (lnode s' a) = link (lnode s a)) →
  chain link s cur l → chain link s' cur l.
Proof. intros H. apply chain_frame. intros a _. apply H. Qed.

(** The second loop of [_rebalance] returns when the budget covers the
    list. *)
Lemma rebalance_build_returns skip l : ∀ fuel s cur counter gap,
  chain ListNode.next s cur l → (length l ≤ fuel)%nat →
  returns (rebalance_build fuel skip cur counter gap) (λ _ _, True) s.
Proof.
  induction l as [|a l IH]; intros fuel s cur counter gap Hc Hf; cbn in Hc.
  - subst cur. by destruct fuel.
  - destruct Hc as [-> Hc]. destruct fuel as [|fuel]; [cbn in Hf; lia|].
    cbn [rebalance_build]. apply returns_bind, returns_gets.
    destruct (bool_decide (Some a = tail s)); [done|].
    apply returns_bind, returns_gets. apply returns_bind.
    destruct (_ && _).
    + apply returns_bind. eapply returns_mono; [apply _append_fast_returns|].
      intros [] s1 Hk. apply returns_ret. apply returns_bind, returns_gets.
      apply lane_list in Hk. cbv beta. rewrite (lk_next _ _ Hk).
      apply IH; [|cbn in Hf; lia]. revert Hc. apply chain_kept. apply (lk_next _ _ Hk).
    + apply returns_ret. apply returns_bind, returns_gets.
      apply IH; [done|cbn in Hf; lia].
Qed.

Lemma _rebalance_returns k l fuel s :
  ends_forward k s (fast_head s) = true → chain ListNode.next s (head s) l →
  0 ≤ size s → (k ≤ fuel)%nat → (length l ≤ fuel)%nat →
  returns (_rebalance fuel) (λ _ s', lane_kept s s') s.
Proof.
  intros He Hc Hsz Hk Hl. apply returns_preserves; [auto with pres|].
  unfold _rebalance. do 3 (apply returns_bind, returns_gets).
  destruct (fast_head s) as [fh|] eqn:Hfh; [|done].
  destruct (fast_tail s) as [ft|] eqn:Hft; [|done].
  destruct (head s) as [h|] eqn:Hh; [|done].
  apply returns_bind.
  assert (Hadj : returns
    (let! fc := gets fast_count in
     let! sz := gets size in
     let! sparse := below_half_sqrt fc sz in
     if sparse
     then let! cs := gets current_skip in
          modify (set_current_skip (Z.max MIN_SKIP (cs / 2)))
     else ret tt) (λ _ s1, ∃ v, s1 = set_current_skip v s) s).
  { do 2 (apply returns_bind, returns_gets). apply returns_bind.
    unfold below_half_sqrt. replace (size s <? 0) with false by lia.
    apply returns_ret. destruct (_ || _).
    - apply returns_bind, returns_gets. apply returns_modify. eauto.
    - apply returns_ret. exists (current_skip s). by destruct s. }
  eapply returns_mono; [exact Hadj|]. intros [] s1 [v ->]. cbv beta.
  apply returns_bind. apply returns_bind, returns_gets.
  eapply returns_mono.
  { apply (returns_preserves lane_kept); [apply lane_kept_rebalance_clear|].
    apply (rebalance_clear_returns k fuel (set_current_skip v s) fh); [|done].
    by rewrite ends_forward_skip. }
  intros [] s2 Hk2. cbv beta.
  pose proof (lane_list _ _ Hk2) as Hl2.
  repeat rt_step. apply returns__get_dynamic_skip. repeat rt_step.
  eapply returns_mono.
  { apply (returns_preserves lane_kept); [apply lane_kept_rebalance_build|].
    apply (rebalance_build_returns _ l); [|done].
    rewrite (lk_head _ _ Hl2). cbn. rewrite Hh.
    revert Hc. apply chain_kept. intros a.
    change (ListNode.next (lnode s2 a) = ListNode.next (lnode (set_current_skip v s) a)).
    apply (lk_next _ _ Hl2). }
  intros [] s3 _. cbv beta.
  eapply returns_mono; [apply _update_tail_fast_returns|]. done.
Qed.

Lemma _check_and_rebalance_returns k l fuel s :
  ends_forward k s (fast_head s) = true → chain ListNode.next s (head s) l →
  0 ≤ size s → (k ≤ fuel)%nat → (length l ≤ fuel)%nat →
  returns (_check_and_rebalance fuel) (λ _ s', lane_kept s s') s.
Proof.
  intros He Hc Hsz Hk Hl. apply returns_preserves; [auto with pres|].
  unfold _check_and_rebalance.
  apply returns_bind. apply returns_bind, returns_gets. apply returns_modify.
  do 3 (apply returns_bind, returns_gets).
  set (s1 := set_ops_since_rebalance _ s).
  apply returns_bind. apply (returns_mono _ (λ _ s', s' = s1)).
  { destruct (_ >=? _); [done|]. destruct (_ >? _); [|done].
    unfold below_half_sqrt. change (size s1) with (size s).
    by replace (size s <? 0) with false by lia. }
  intros due ? ->. destruct due; [|done]. apply returns_bind. eapply returns_mono.
  { apply (_rebalance_returns k l); try done.
    - rewrite <-He. by apply ends_forward_frame.
    - revert Hc. by apply chain_kept. }
  intros [] s2 _. done.
Qed.


(** ** Anchors in a row *)

Lemma spaced_rpath s x bl : spaced s (x :: bl) → rpath s x.1 bl.*1.
Proof.
  revert x. induction bl as [|y bl IH]; intros x; [done|].
  intros [(Hn & _ & _) Hsp]. split; [done|]. by apply IH.
Qed.

Lemma ends_forward_once k s a n :
  FastNode.next (fnode s a) = Some n → ends_forward k s (Some n) = true →
  ends_forward (S k) s (Some a) = true.
Proof. intros Hn He. cbn. rewrite Hn, He. apply orb_true_r. Qed.

Lemma rpath_ends_forward s l : ∀ b k a,
  rpath s b l → ends_forward k s (Some b) = true → last l = Some a →
  ends_forward (k + length l) s (Some a) = true.
Proof.
  induction l as [|a0 l IH]; intros b k a Hp He Hlast; [done|].
  destruct Hp as [Hn Hp].
  pose proof (ends_forward_once k s a0 b Hn He) as He'.
  destruct l as [|a1 l].
  - injection Hlast as <-. by replace (k + length [a0])%nat with (S k) by (cbn; lia).
  - rewrite last_cons_cons in Hlast.
    replace (k + length (a0 :: a1 :: l))%nat with (S k + length (a1 :: l))%nat
      by (cbn; lia).
    by apply (IH a0).
Qed.

(** The anchors of an indexed lane end within their number. *)
Lemma indexed_lane_ends s l ft bl :
  indexed_lane s l ft bl → ends_forward (length bl) s (fast_head s) = true.
Proof.
  intros [Htail (fh & Hfh & Hlast) Hsp _ _ _ _ _ Hopen _]. rewrite Hfh.
  apply spaced_rpath in Hsp. cbn [fst] in Hsp.
  replace (length bl) with (0 + length bl.*1)%nat by by rewrite length_fmap.
  apply (rpath_ends_forward s _ ft); [done| |].
  - cbn. by rewrite Hopen.
  - by rewrite fmap_last, Hlast.
Qed.

(** The loop that looks for the anchor to update returns, without a
    change, when the anchors end within the budget. *)
Lemma find_update_fast_returns ft index k : ∀ fuel s a traversed,
  fast_tail s = Some ft → FastNode.next (fnode s ft) = None →
  ends_forward k s (Some a) = true → (k < fuel)%nat →
  returns (find_update_fast fuel index (Some a) traversed) (λ _ s', s' = s) s.
Proof.
  induction k as [|k IH]; intros fuel s a traversed Hft Hopen He Hk; cbn in He.
  all: destruct fuel as [|fuel]; [lia|]; cbn [find_update_fast].
  all: apply returns_bind, returns_gets.
  all: destruct (FastNode.next (fnode s a)) as [n|] eqn:Hn; [|done].
  all: apply returns_bind, returns_gets; destruct (_ >? _); [done|].
  - rewrite orb_false_r in He. apply bool_decide_eq_true in He.
    rewrite Hft in He. injection He as ->.
    destruct fuel; cbn; unfold returns, bind, fget, gets; by rewrite Hopen.
  - destruct (bool_decide (Some n = fast_tail s)) eqn:Hd.
    + apply bool_decide_eq_true in Hd. rewrite Hft in Hd. injection Hd as ->.
      destruct fuel; cbn; unfold returns, bind, fget, gets; by rewrite Hopen.
    + cbn in He. apply IH; try done. lia.
Qed.

(** ** The linked list under an interior insertion or removal *)

Section splice.
Context (link : ListNode.t → option nat).

Lemma chain_insert s s' cur l1 a b l2 x :
  chain link s cur (l1 ++ a :: b :: l2) →
  NoDup (l1 ++ a :: b :: l2) → x ∉ l1 ++ a :: b :: l2 →
  link (lnode s' a) = Some x → link (lnode s' x) = Some b →
  (∀ y, y ≠ a → y ≠ x → link (lnode s' y) = link (lnode s y)) →
  chain link s' cur (l1 ++ a :: x :: b :: l2).
Proof.
  intros Hc Hnd Hx Ha Hxb Hfr. revert cur Hc Hnd Hx.
  induction l1 as [|y l1 IH]; intros cur Hc Hnd Hx; cbn in *.
  - destruct Hc as (-> & Hab & Hc). rewrite Ha, Hxb. repeat split.
    apply NoDup_cons in Hnd as [Hna Hnd]. apply NoDup_cons in Hnd as [Hnb Hnd].
    rewrite Hfr.
    + revert Hc. apply chain_frame. intros z Hz. apply Hfr.
      * intros ->. apply Hna. by right.
      * intros ->. apply Hx. by do 2 right.
    + intros ->. apply Hna. left.
    + intros ->. apply Hx. right. left.
  - destruct Hc as [-> Hc]. split; [done|].
    apply NoDup_cons in Hnd as [Hny Hnd].
    rewrite Hfr.
    + apply IH; [done..|]. intros Hin. apply Hx. by right.
    + intros ->. apply Hny. apply elem_of_app. right. left.
    + intros ->. apply Hx. left.
Qed.

Lemma chain_delete s s' cur l1 a c l2 :
  chain link s cur (l1 ++ a :: c :: l2) →
  NoDup (l1 ++ a :: c :: l2) →
  link (lnode s' a) = link (lnode s c) →
  (∀ y, y ≠ a → link (lnode s' y) = link (lnode s y)) →
  chain link s' cur (l1 ++ a :: l2).
Proof.
  intros Hc Hnd Ha Hfr. revert cur Hc Hnd.
  induction l1 as [|y l1 IH]; intros cur Hc Hnd; cbn in *.
  - destruct Hc as (-> & Hab & Hc). split; [done|]. rewrite Ha.
    apply NoDup_cons in Hnd as [Hna Hnd].
    revert Hc. apply chain_frame. intros z Hz. apply Hfr.
    intros ->. apply Hna. by right.
  - destruct Hc as [-> Hc]. split; [done|].
    apply NoDup_cons in Hnd as [Hny Hnd].
    rewrite Hfr; [by apply IH|].
    intros ->. apply Hny. apply elem_of_app. right. left.
Qed.
End splice.

Lemma split_interior {A} (l : list A) (i : nat) :
  (0 < i < length l)%nat →
  ∃ l1 p c l2, l = l1 ++ p :: c :: l2 ∧ length l1 = (i - 1)%nat.
Proof.
  intros Hi.
  destruct (lookup_lt_is_Some_2 l (i - 1)) as [p Hp]; [lia|].
  destruct (lookup_lt_is_Some_2 l i) as [c Hc]; [lia|].
  exists (take (i - 1) l), p, c, (drop (S i) l). split.
  - rewrite <-(take_drop (i - 1) l) at 1. f_equal.
    rewrite (drop_S _ p) by done. f_equal.
    replace (S (i - 1)) with i by lia. by apply drop_S.
  - rewrite length_take. lia.
Qed.

Lemma listed_kept s s' vs l : list_kept s s' → listed s vs l → listed s' vs l.
Proof.
  intros Hk [Hn Hp Hnd Hv Hvs Hsz]. constructor.
  - rewrite (lk_head _ _ Hk). revert Hn. apply chain_frame. intros a _. apply (lk_next _ _ Hk).
  - rewrite (lk_tail _ _ Hk). revert Hp. apply chain_frame. intros a _. apply (lk_prev _ _ Hk).
  - done.
  - by rewrite (lk_length _ _ Hk).
  - rewrite <-Hvs. apply list_fmap_ext. intros _ a _. apply (lk_data _ _ Hk).
  - by rewrite (lk_size _ _ Hk).
Qed.

Lemma listed_spliced_in s s' vs v l1 p c l2 :
  listed s vs (l1 ++ p :: c :: l2) → spliced_in s v p c s' →
  listed s' (take (S (length l1)) vs ++ v :: drop (S (length l1)) vs)
            (l1 ++ p :: length (nodes s) :: c :: l2).
Proof.
  intros [Hn Hp Hnd Hv Hvs Hsz]
    (Hh & Ht & Hsz' & Hlen & Hd & Hnp & Hnn & Hpn & Hcp & Hfd & Hfn & Hfp).
  assert (Hfresh : length (nodes s) ∉ l1 ++ p :: c :: l2).
  { intros Hin. rewrite Forall_forall in Hv. specialize (Hv _ Hin). cbn in Hv. lia. }
  constructor.
  - rewrite Hh. apply (chain_insert _ s); try done. intros y ? ?. by apply Hfn.
  - rewrite Ht.
    replace (reverse (l1 ++ p :: length (nodes s) :: c :: l2))
      with (reverse l2 ++ c :: length (nodes s) :: p :: reverse l1)
      by (rewrite !reverse_app, !reverse_cons, <-!app_assoc; done).
    replace (reverse (l1 ++ p :: c :: l2)) with (reverse l2 ++ c :: p :: reverse l1) in Hp
      by (rewrite !reverse_app, !reverse_cons, <-!app_assoc; done).
    assert (Hperm : reverse l2 ++ c :: p :: reverse l1 ≡ₚ l1 ++ p :: c :: l2).
    { rewrite <-(reverse_Permutation (l1 ++ p :: c :: l2)).
      by rewrite !reverse_app, !reverse_cons, <-!app_assoc. }
    apply (chain_insert _ s); try done.
    + by rewrite Hperm.
    + by rewrite Hperm.
    + intros y ? ?. by apply Hfp.
  - apply NoDup_app in Hnd as (Hnd1 & Hnd12 & Hnd2).
    apply NoDup_app. split; [done|]. split.
    + intros x Hx1 Hx2. apply elem_of_cons in Hx2 as [->|Hx2]; [by apply (Hnd12 p); [|left]|].
      apply elem_of_cons in Hx2 as [->|Hx2].
      * apply Hfresh. apply elem_of_app. by left.
      * apply (Hnd12 x Hx1). by right.
    + apply NoDup_cons in Hnd2 as [Hp2 Hnd2]. apply NoDup_cons. split.
      * intros Hin. apply elem_of_cons in Hin as [->|Hin]; [|done].
        apply Hfresh. apply elem_of_app. right. left.
      * apply NoDup_cons. split; [|done].
        intros Hin. apply Hfresh. apply elem_of_app. right. by right.
  - rewrite Hlen. rewrite Forall_forall in Hv |- *. intros a Ha.
    assert (a = length (nodes s) ∨ a ∈ l1 ++ p :: c :: l2) as [->|Hin].
    { revert Ha. rewrite !elem_of_app, !elem_of_cons. tauto. }
    + lia.
    + specialize (Hv _ Hin). cbn in Hv. lia.
  - assert (Hold : ∀ l' : list nat, (∀ a, a ∈ l' → a ∈ l1 ++ p :: c :: l2) →
              (λ a, ListNode.data (lnode s' a)) <$> l' = (λ a, ListNode.data (lnode s a)) <$> l').
    { intros l' Hl'. apply list_fmap_ext. intros k a Ha. apply Hfd.
      intros ->. apply Hfresh, Hl'. by eapply list_elem_of_lookup_2. }
    rewrite <-Hvs, <-fmap_take, <-fmap_drop.
    replace (l1 ++ p :: c :: l2) with ((l1 ++ [p]) ++ c :: l2) by by rewrite <-app_assoc.
    rewrite take_app_length', drop_app_length' by (rewrite length_app; cbn; lia).
    replace (l1 ++ p :: length (nodes s) :: c :: l2)
      with ((l1 ++ [p]) ++ length (nodes s) :: c :: l2) by by rewrite <-app_assoc.
    rewrite fmap_app, fmap_cons, Hd. f_equal.
    + apply Hold. intros a Ha.
      revert Ha. rewrite !elem_of_app, !elem_of_cons, elem_of_nil. tauto.
    + f_equal. apply Hold. intros a Ha. apply elem_of_app. right. by right.
  - rewrite Hsz', Hsz. rewrite !length_app. cbn. lia.
Qed.

Lemma listed_spliced_out s s' vs l1 p c n l2 :
  listed s vs (l1 ++ p :: c :: n :: l2) → spliced_out s p n s' →
  listed s' (delete (S (length l1)) vs) (l1 ++ p :: n :: l2).
Proof.
  intros Hl (Hh & Ht & Hsz' & Hlen & Hfd & Hpn & Hnp & Hfn & Hfp).
  destruct (listed_links _ _ _ Hl) as [Hnext Hprev].
  destruct Hl as [Hn Hp Hnd Hv Hvs Hsz].
  assert (Hc : (l1 ++ p :: c :: n :: l2) !! S (length l1) = Some c).
  { rewrite lookup_app_r by lia. by replace (S (length l1) - length l1)%nat with 1%nat by lia. }
  assert (Hdel : delete (S (length l1)) (l1 ++ p :: c :: n :: l2) = l1 ++ p :: n :: l2).
  { replace (l1 ++ p :: c :: n :: l2) with ((l1 ++ [p]) ++ c :: n :: l2)
      by by rewrite <-app_assoc.
    replace (S (length l1)) with (length (l1 ++ [p])) by (rewrite length_app; cbn; lia).
    by rewrite delete_middle, <-app_assoc. }
  constructor.
  - rewrite Hh. apply (chain_delete _ s _ _ _ _ c); try done.
    rewrite Hpn. rewrite (Hnext _ _ Hc).
    rewrite lookup_app_r by lia. by replace (S (S (length l1)) - length l1)%nat with 2%nat by lia.
  - rewrite Ht.
    replace (reverse (l1 ++ p :: n :: l2)) with (reverse l2 ++ n :: p :: reverse l1)
      by (rewrite !reverse_app, !reverse_cons, <-!app_assoc; done).
    replace (reverse (l1 ++ p :: c :: n :: l2))
      with (reverse l2 ++ n :: c :: p :: reverse l1) in Hp
      by (rewrite !reverse_app, !reverse_cons, <-!app_assoc; done).
    apply (chain_delete _ s _ _ _ _ c); try done.
    + replace (reverse l2 ++ n :: c :: p :: reverse l1)
        with (reverse (l1 ++ p :: c :: n :: l2))
        by (rewrite !reverse_app, !reverse_cons, <-!app_assoc; done).
      by rewrite reverse_Permutation.
    + rewrite Hnp. rewrite (Hprev (length l1) c Hc).
      by rewrite list_lookup_middle.
  - rewrite <-Hdel. eapply sublist_NoDup; [|apply sublist_delete]. done.
  - rewrite Hlen, <-Hdel. by apply Forall_delete.
  - rewrite <-Hvs, <-list_fmap_delete, Hdel. apply list_fmap_ext. intros k a _. apply Hfd.
  - rewrite Hsz', Hsz. rewrite !length_app. cbn. lia.
Qed.

(** Reads of the two stores, pushed through the updates. *)
Ltac reads_norm :=
  unfold lnode, fnode; fields;
  repeat first
    [ rewrite (read_alter_same FastNode.prev) by done
    | rewrite (read_alter_same FastNode.next) by done
    | rewrite (read_alter_same FastNode.target) by done
    | rewrite (read_alter_same FastNode.gap) by done
    | rewrite (read_alter_same ListNode.prev) by done
    | rewrite (read_alter_same ListNode.next) by done
    | rewrite (read_alter_same ListNode.data) by done
    | rewrite (read_alter_same ListNode.fast) by done
    | rewrite read_alter
    | rewrite read_snoc
    | rewrite length_alter
    | rewrite length_snoc
    | rewrite decide_True by first [lia | split; [reflexivity|lia]]
    | rewrite decide_False by lia ];
  cbn [FastNode.prev FastNode.next FastNode.target FastNode.gap FastNode.set_prev
       FastNode.set_next FastNode.set_target FastNode.set_gap
       ListNode.prev ListNode.next ListNode.data ListNode.fast ListNode.set_prev
       ListNode.set_next ListNode.set_fast ListNode.init].

Lemma skip_only_set s s' : skip_only s s' → s' = set_current_skip (current_skip s') s.
Proof. intros []. destruct s, s'. cbn in *. by subst. Qed.

Lemma insert_interior fuel s vs l ft bl v i l1 p c l2 :
  listed s vs l → indexed_lane s l ft bl →
  l = l1 ++ p :: c :: l2 → i = Z.of_nat (S (length l1)) →
  (length bl < fuel)%nat → (length l < fuel)%nat →
  returns (insert fuel i v) (λ _ s', ∃ s1, spliced_in s v p c s1 ∧ list_kept s1 s') s.
Proof.
  intros Hl Hlane -> Hi Hfb Hfl.
  pose proof (ls_size _ _ _ Hl) as Hsz. rewrite length_app in Hsz. cbn [length] in Hsz.
  pose proof (indexed_lane_ends _ _ _ _ Hlane) as Hends.
  destruct (get_node_indexed fuel s vs _ ft bl i Hl Hlane)
    as (s1 & Hg & Hsk); [lia|lia|].
  replace (Z.to_nat i) with (S (length l1)) in Hg by lia.
  replace ((l1 ++ p :: c :: l2) !! S (length l1)) with (Some c) in Hg.
  2:{ rewrite lookup_app_r by lia. by replace (S (length l1) - length l1)%nat with 1%nat by lia. }
  unfold insert. apply returns_bind, returns_gets.
  replace (_ <? 0) with false by lia. replace (_ >? size s) with false by lia. cbn [orb].
  replace (_ =? size s) with false by lia.
  replace (_ =? 0) with false by lia.
  apply returns_bind, returns_gets.
  destruct Hlane as [Htail (fh & Hfh & Hlast) Hsp Htg Hnd Hval Hgap Hcnt Hopen Hback].
  rewrite Hfh in Hends |- *.
  apply returns_bind. eapply returns_mono.
  { apply (find_update_fast_returns ft _ (length bl)); try done. }
  intros u ? ->. cbv beta.
  apply returns_bind. eapply returns_ok; [exact Hg|]. cbv beta iota.
  rewrite (skip_only_set _ _ Hsk). clear Hg Hsk. generalize (current_skip s1). clear s1.
  intros cs.
  destruct (listed_links _ _ _ Hl) as [Hnext Hprev].
  assert (Hcp : ListNode.prev (lnode s c) = Some p).
  { rewrite (Hprev (length l1) c); [by rewrite list_lookup_middle|].
    rewrite lookup_app_r by lia. by replace (S (length l1) - length l1)%nat with 1%nat by lia. }
  pose proof (ls_valid _ _ _ Hl) as Hv. rewrite Forall_app, !Forall_cons in Hv.
  destruct Hv as (_ & Hpv & Hcv & _).
  assert (Hpc : p ≠ c).
  { pose proof (ls_nodup _ _ _ Hl) as Hnd'. apply NoDup_app in Hnd' as (_ & _ & Hnd').
    apply NoDup_cons in Hnd' as [Hnd' _]. intros ->. apply Hnd'. left. }
  unfold lnode in Hcp.
  repeat (tryif (lazymatch goal with
                 | |- returns (if_some ?u _) _ _ => is_var u
                 end) then fail else (rt_step; reads_norm; rewrite ?Hcp)).
  match goal with |- returns _ _ ?S => set (s2 := S) end.
  assert (Hsp2 : spliced_in s v p c s2).
  { unfold spliced_in, s2. repeat split; intros; reads_norm; try done; try lia.
    all: repeat case_decide; destruct_and?; simplify_eq/=; try done; try lia. }
  assert (Hlane2 : fast_head s2 = fast_head s ∧ fast_tail s2 = fast_tail s ∧
                   fnodes s2 = fnodes s) by done.
  clearbody s2. destruct Hlane2 as (Hfh2 & Hft2 & Hfn2).
  pose proof (listed_spliced_in _ _ _ _ _ _ _ _ Hl Hsp2) as Hl2.
  apply (returns_mono _ (λ _ s3, list_kept s2 s3 ∧ fast_head s3 = fast_head s2 ∧
           fast_tail s3 = fast_tail s2 ∧
           ∀ a, FastNode.next (fnode s3 a) = FastNode.next (fnode s2 a))).
  { destruct u as [u0|]; [|by apply returns_ret].
    apply returns_bind, returns_gets. apply returns_modify.
    split; [by constructor|]. split; [done|]. split; [done|].
    intros a. unfold fnode. fields. by rewrite (read_alter_same FastNode.next). }
  intros [] s3 (Hk3 & Hfh3 & Hft3 & Hn3). cbv beta.
  apply returns_bind, returns_gets.
  destruct (_ && _); [|apply returns_ret; by exists s2].
  apply returns_bind, returns__get_dynamic_skip.
  set (s4 := set_current_skip _ s3).
  assert (Hk4 : list_kept s2 s4) by (etrans; [exact Hk3|by constructor]).
  destruct (_ =? 0); [|apply returns_ret; by exists s2].
  eapply returns_mono.
  { apply (_check_and_rebalance_returns (length bl) (l1 ++ p :: length (nodes s) :: c :: l2)).
    - change (fast_head s4) with (fast_head s3). rewrite Hfh3, Hfh2, Hfh, <-Hends.
      apply ends_forward_frame; [by rewrite <-Hft2, <-Hft3|].
      intros a. change (fnode s4 a) with (fnode s3 a). rewrite Hn3.
      unfold fnode. by rewrite Hfn2.
    - apply (ls_next _ _ _ (listed_kept _ _ _ _ Hk4 Hl2)).
    - rewrite (lk_size _ _ Hk4). destruct Hsp2 as (_ & _ & -> & _). lia.
    - lia.
    - rewrite length_app in Hfl |- *. cbn in Hfl |- *. lia. }
  intros [] s5 Hk5. exists s2. split; [done|]. etrans; [exact Hk4|]. by apply lane_list.
Qed.

Lemma returns_and {A} (m : M A) (Q1 Q2 : A → t → Prop) s :
  returns m Q1 s → returns m Q2 s → returns m (λ a s', Q1 a s' ∧ Q2 a s') s.
Proof. unfold returns. by destruct (m s). Qed.

Lemma rpath_next_frame s s' b l :
  (∀ a, a ∈ l → FastNode.next (fnode s' a) = FastNode.next (fnode s a)) →
  rpath s b l → rpath s' b l.
Proof.
  revert b. induction l as [|a l IH]; intros b Hfr; [done|]. intros [Hn Hp]. split.
  - rewrite Hfr; [done|left].
  - apply IH; [|done]. intros x Hx. apply Hfr. by right.
Qed.

Lemma rpath_delete s s' b l1 f q l2 :
  rpath s b (l1 ++ f :: q :: l2) → NoDup (l1 ++ f :: q :: l2) →
  FastNode.next (fnode s' q) = FastNode.next (fnode s f) →
  (∀ a, a ≠ q → a ≠ f → FastNode.next (fnode s' a) = FastNode.next (fnode s a)) →
  rpath s' b (l1 ++ q :: l2).
Proof.
  intros Hp Hnd Hq Hfr. revert b Hp Hnd.
  induction l1 as [|a l1 IH]; intros b Hp Hnd; cbn in *.
  - destruct Hp as (Hf & Hqf & Hp). split; [by rewrite Hq|].
    apply NoDup_cons in Hnd as [Hnf Hnd]. apply NoDup_cons in Hnd as [Hnq Hnd].
    revert Hp. apply rpath_next_frame. intros a Ha. apply Hfr.
    + intros ->. done.
    + intros ->. apply Hnf. by right.
  - destruct Hp as [Ha Hp]. apply NoDup_cons in Hnd as [Hna Hnd]. split.
    + rewrite Hfr; [done| |].
      * intros ->. apply Hna. apply elem_of_app. right. right. left.
      * intros ->. apply Hna. apply elem_of_app. right. left.
    + by apply IH.
Qed.

(** What removing an anchor that has a predecessor [q] and a successor
    does to the [next] links. *)
Lemma _remove_fast_links s f q x :
  Some f ≠ fast_head s → Some f ≠ fast_tail s →
  FastNode.prev (fnode s f) = Some q → FastNode.next (fnode s f) = Some x →
  (q < length (fnodes s))%nat → q ≠ f → x ≠ f →
  returns (_remove_fast (Some f))
    (λ _ s', lane_kept s s' ∧ (FastNode.next (fnode s' q) = Some x ∧
             ∀ a, a ≠ q → a ≠ f →
               FastNode.next (fnode s' a) = FastNode.next (fnode s a))) s.
Proof.
  intros Hfh Hft Hp Hn Hq Hqf Hxf. apply returns_and; [apply _remove_fast_returns|].
  unfold _remove_fast.
  do 2 (apply returns_bind, returns_gets).
  rewrite !bool_decide_eq_false_2 by done. cbn [orb].
  unfold fnode in Hp, Hn.
  repeat (rt_step; reads_norm; rewrite ?Hp, ?Hn).
  all: split; [|intros a ? ?]; reads_norm.
  all: repeat case_decide; destruct_and?; simplify_eq/=; try done; try lia.
Qed.

Lemma spaced_at s X : spaced s X → ∀ B1 f q B2,
  X.*1 = B1 ++ f :: q :: B2 →
  FastNode.next (fnode s q) = Some f ∧ FastNode.prev (fnode s f) = Some q.
Proof.
  induction X as [|x X IH]; intros Hsp B1 f q B2 HX; [by destruct B1|].
  destruct Hsp as [Hx Hsp]. destruct B1 as [|b B1]; cbn in HX.
  - destruct X as [|y X]; [done|]. cbn in HX. injection HX as <- <- _.
    by destruct Hx as (? & ? & _).
  - injection HX as _ HX. by apply (IH Hsp B1 f q B2).
Qed.

Lemma lane_ends s ft fh L :
  fast_tail s = Some ft → FastNode.next (fnode s ft) = None →
  rpath s ft L → last L = Some fh →
  ends_forward (length L) s (Some fh) = true.
Proof.
  intros Hft Hopen Hp Hlast.
  apply (rpath_ends_forward s L ft 0 fh); [done| |done]. cbn. by rewrite Hopen.
Qed.

(** An anchor between the sentinels, with the anchor [q] before it. *)
Lemma anchor_split s ft fh bl z f :
  last bl = Some (fh, 0) → spaced s ((ft, z) :: bl) →
  f ∈ bl.*1 → f ≠ fh →
  ∃ B1 q B2, bl.*1 = B1 ++ f :: q :: B2 ∧ FastNode.prev (fnode s f) = Some q ∧
             FastNode.next (fnode s f) = Some (default ft (last B1)).
Proof.
  intros Hlast Hsp Hin Hne.
  apply list_elem_of_split in Hin as (B1 & B2' & HL).
  destruct B2' as [|q B2].
  { apply (f_equal last) in HL. rewrite fmap_last, Hlast, last_snoc in HL. cbn in HL. congruence. }
  exists B1, q, B2. split; [done|]. split.
  - apply (spaced_at _ _ Hsp (ft :: B1) f q B2). cbn. by rewrite HL.
  - destruct B1 as [|b B1 _] using rev_ind.
    + apply (spaced_at _ _ Hsp [] ft f (q :: B2)). cbn. by rewrite HL.
    + rewrite last_snoc. cbn.
      apply (spaced_at _ _ Hsp (ft :: B1) b f (q :: B2)). cbn. rewrite HL.
      by rewrite <-app_assoc.
Qed.

(** Removing an anchor between the sentinels leaves anchors that end. *)
Lemma _remove_fast_middle s ft fh B1 f q B2 :
  fast_tail s = Some ft → fast_head s = Some fh →
  rpath s ft (B1 ++ f :: q :: B2) → NoDup (ft :: B1 ++ f :: q :: B2) →
  last (B1 ++ f :: q :: B2) = Some fh →
  FastNode.next (fnode s ft) = None →
  FastNode.prev (fnode s f) = Some q →
  FastNode.next (fnode s f) = Some (default ft (last B1)) →
  (q < length (fnodes s))%nat → f ≠ fh →
  returns (_remove_fast (Some f))
    (λ _ s', lane_kept s s' ∧
             ends_forward (length (B1 ++ q :: B2)) s' (fast_head s') = true) s.
Proof.
  intros Hft Hfh Hp Hnd Hlast Hopen Hq Hx Hqv Hne.
  set (x := default ft (last B1)) in *.
  assert (Hxf : x ≠ f ∧ q ≠ f ∧ ft ≠ f ∧ ft ≠ q).
  { pose proof Hnd as Hnd0. apply NoDup_cons in Hnd0 as [Hnft Hnd0].
    apply NoDup_app in Hnd0 as (_ & Hd & Hnd0). apply NoDup_cons in Hnd0 as [Hnf _].
    repeat split.
    - unfold x. destruct (last B1) as [b|] eqn:Hb; cbn.
      + intros ->. apply (Hd f); [|left]. apply last_Some in Hb as [B ->].
        apply elem_of_app. right. left.
      + intros ->. apply Hnft. apply elem_of_app. right. left.
    - intros ->. apply Hnf. left.
    - intros ->. apply Hnft. apply elem_of_app. right. left.
    - intros ->. apply Hnft. apply elem_of_app. right. right. left. }
  destruct Hxf as (Hxf & Hqf & Hftf & Hftq).
  eapply returns_mono.
  { apply (_remove_fast_links s f q x); try done; congruence. }
  intros [] s2 (Hk2 & Hq2 & Hfr2). split; [done|].
  rewrite (lane_head _ _ Hk2), Hfh.
  apply (lane_ends s2 ft).
  - by rewrite (lane_tail _ _ Hk2).
  - by rewrite Hfr2.
  - apply (rpath_delete s _ _ _ f); try done.
    + by apply NoDup_cons in Hnd as [_ Hnd].
    + by rewrite Hq2.
  - rewrite <-Hlast. by rewrite !last_app.
Qed.

(** The fast-lane step of an interior [remove_at]: whatever back-reference
    the removed node carries, the list is kept and the anchors still end. *)
Lemma anchor_update_ends s c (u : option nat) ft fh bl z :
  fast_tail s = Some ft → fast_head s = Some fh → last bl = Some (fh, 0) →
  spaced s ((ft, z) :: bl) → NoDup (ft :: bl.*1) →
  Forall (λ a, (a < length (fnodes s))%nat) (ft :: bl.*1) →
  FastNode.next (fnode s ft) = None →
  (∀ f, ListNode.fast (lnode s c) = Some f → f ∈ ft :: bl.*1) →
  returns
    (let! tf := lget ListNode.fast c in
     let! fh := gets fast_head in
     let! ft := gets fast_tail in
     match tf with
     | Some fast_node =>
       if bool_decide (tf ≠ fh) && bool_decide (tf ≠ ft) then
         (let! fnn := fget FastNode.next fast_node in
          if_some fnn (λ fnn,
            let! ng := fget FastNode.gap fnn in
            let! g := fget FastNode.gap fast_node in
            fset fnn (FastNode.set_gap (ng + (g - 1))))) >>
         _remove_fast tf
       else
         if_some u (λ u,
           let! g := fget FastNode.gap u in
           fset u (FastNode.set_gap (Z.max 1 (g - 1))))
     | None =>
       if_some u (λ u,
         let! g := fget FastNode.gap u in
         fset u (FastNode.set_gap (Z.max 1 (g - 1))))
     end)
    (λ _ s', list_kept s s' ∧
       ∃ k, (k ≤ length bl)%nat ∧ ends_forward k s' (fast_head s') = true) s.
Proof.
  intros Hft Hfh Hlast Hsp Hnd Hval Hopen Hback.
  pose proof (spaced_rpath _ _ _ Hsp) as Hp. cbn [fst] in Hp.
  assert (Hlast' : last bl.*1 = Some fh) by by rewrite fmap_last, Hlast.
  pose proof (lane_ends s ft fh _ Hft Hopen Hp Hlast') as Hends.
  rewrite length_fmap in Hends.
  assert (Hgap : ∀ g, returns
    (if_some u (λ u, let! g0 := fget FastNode.gap u in fset u (FastNode.set_gap (g g0))))
    (λ _ s', list_kept s s' ∧
       ∃ k, (k ≤ length bl)%nat ∧ ends_forward k s' (fast_head s') = true) s).
  { intros g. destruct u as [u0|].
    - apply returns_bind, returns_gets. apply returns_modify.
      split; [by constructor|]. exists (length bl). split; [done|].
      fields. rewrite Hfh, <-Hends. apply ends_forward_frame; [done|].
      intros a. unfold fnode. fields. by rewrite (read_alter_same FastNode.next).
    - apply returns_ret. split; [done|]. exists (length bl). by rewrite Hfh. }
  do 3 (apply returns_bind, returns_gets).
  destruct (ListNode.fast (lnode s c)) as [f|] eqn:Hf; [|apply (Hgap (λ g, Z.max 1 (g - 1)))].
  rewrite Hfh, Hft.
  destruct (bool_decide (Some f ≠ Some fh)) eqn:H1; [|apply (Hgap (λ g, Z.max 1 (g - 1)))].
  destruct (bool_decide (Some f ≠ Some ft)) eqn:H2; [|apply (Hgap (λ g, Z.max 1 (g - 1)))].
  cbn [andb]. apply bool_decide_eq_true in H1, H2.
  specialize (Hback f eq_refl). apply elem_of_cons in Hback as [->|Hin]; [done|].
  destruct (anchor_split s ft fh bl z f Hlast Hsp Hin) as (B1 & q & B2 & HL & Hq & Hx);
    [congruence|].
  rewrite HL in Hnd, Hval, Hp, Hlast'.
  apply returns_bind. apply returns_bind, returns_gets. rewrite Hx. unfold if_some.
  do 2 (apply returns_bind, returns_gets). apply returns_modify.
  set (s1 := upd_fnode _ _ s).
  assert (Hs1 : ∀ a, FastNode.next (fnode s1 a) = FastNode.next (fnode s a) ∧
                     FastNode.prev (fnode s1 a) = FastNode.prev (fnode s a)).
  { intros a. unfold s1, fnode. fields.
    by rewrite (read_alter_same FastNode.next), (read_alter_same FastNode.prev). }
  assert (Hk1 : list_kept s s1) by by constructor.
  eapply returns_mono.
  { apply (_remove_fast_middle s1 ft fh B1 f q B2); try done.
    - revert Hp. apply rpath_next_frame. intros a _. apply Hs1.
    - by rewrite (proj1 (Hs1 ft)).
    - by rewrite (proj2 (Hs1 f)).
    - by rewrite (proj1 (Hs1 f)).
    - unfold s1. fields. rewrite length_alter.
      rewrite Forall_cons, Forall_app, !Forall_cons in Hval. tauto.
    - congruence. }
  intros [] s2 [Hk2 He]. split.
  { etrans; [exact Hk1|]. by apply lane_list. }
  exists (length (B1 ++ q :: B2)). split; [|done].
  rewrite <-(length_fmap fst bl), HL, !length_app. cbn. lia.
Qed.

Lemma remove_at_interior fuel s vs l ft bl i l1 p c n l2 :
  listed s vs l → indexed_lane s l ft bl →
  l = l1 ++ p :: c :: n :: l2 → i = Z.of_nat (S (length l1)) →
  (length bl < fuel)%nat → (length l < fuel)%nat →
  returns (remove_at fuel i)
    (λ r s', r = ListNode.data (lnode s c) ∧
             ∃ s1, spliced_out s p n s1 ∧ list_kept s1 s') s.
Proof.
  intros Hl Hlane -> Hi Hfb Hfl.
  pose proof (ls_size _ _ _ Hl) as Hsz. rewrite length_app in Hsz. cbn [length] in Hsz.
  pose proof (indexed_lane_ends _ _ _ _ Hlane) as Hends.
  destruct (get_node_indexed fuel s vs _ ft bl i Hl Hlane)
    as (s1 & Hg & Hsk); [lia|lia|].
  replace (Z.to_nat i) with (S (length l1)) in Hg by lia.
  assert (Hc : (l1 ++ p :: c :: n :: l2) !! S (length l1) = Some c).
  { rewrite lookup_app_r by lia. by replace (S (length l1) - length l1)%nat with 1%nat by lia. }
  rewrite Hc in Hg.
  unfold remove_at. apply returns_bind, returns_gets.
  replace (_ <? 0) with false by lia. replace (_ >=? size s) with false by lia. cbn [orb].
  replace (_ =? 0) with false by lia.
  replace (_ =? size s - 1) with false by lia.
  apply returns_bind, returns_gets.
  destruct Hlane as [Htail (fh & Hfh & Hlast) Hsp Htg Hnd Hval Hgap Hcnt Hopen Hback].
  rewrite Hfh in Hends |- *.
  apply returns_bind. eapply returns_mono.
  { apply (find_update_fast_returns ft _ (length bl)); try done. }
  intros u ? ->. cbv beta.
  apply returns_bind. eapply returns_ok; [exact Hg|]. cbv beta iota.
  rewrite (skip_only_set _ _ Hsk). clear Hg Hsk. generalize (current_skip s1). clear s1.
  intros cs.
  destruct (listed_links _ _ _ Hl) as [Hnext Hprev].
  assert (Hcp : ListNode.prev (lnode s c) = Some p).
  { rewrite (Hprev (length l1) c Hc). by rewrite list_lookup_middle. }
  assert (Hcn : ListNode.next (lnode s c) = Some n).
  { rewrite (Hnext _ c Hc). rewrite lookup_app_r by lia.
    by replace (S (S (length l1)) - length l1)%nat with 2%nat by lia. }
  pose proof (ls_valid _ _ _ Hl) as Hv. rewrite Forall_app, !Forall_cons in Hv.
  destruct Hv as (_ & Hpv & Hcv & Hnv & _).
  assert (Hne : p ≠ c ∧ p ≠ n ∧ c ≠ n).
  { pose proof (ls_nodup _ _ _ Hl) as Hnd'. apply NoDup_app in Hnd' as (_ & _ & Hnd').
    apply NoDup_cons in Hnd' as [Hnp Hnd']. apply NoDup_cons in Hnd' as [Hnc _].
    repeat split; intros ->.
    - apply Hnp. left.
    - apply Hnp. right. left.
    - apply Hnc. left. }
  destruct Hne as (Hpc & Hpn & Hcn').
  unfold lnode in Hcp, Hcn.
  apply returns_bind, returns_gets. apply returns_bind.
  repeat (tryif (lazymatch goal with
                 | |- returns (bind (lget ListNode.fast _) _) _ _ => idtac
                 end) then fail else (rt_step; reads_norm; rewrite ?Hcp, ?Hcn)).
  match goal with |- returns _ _ ?S => set (s2 := S) end.
  assert (Hsp2 : spliced_out s p n s2).
  { unfold spliced_out, s2. repeat split; intros; reads_norm; try done; try lia.
    all: repeat case_decide; destruct_and?; simplify_eq/=; try done; try lia. }
  assert (Hlane2 : fast_head s2 = fast_head s ∧ fast_tail s2 = fast_tail s ∧
                   fnodes s2 = fnodes s ∧
                   ListNode.fast (lnode s2 c) = ListNode.fast (lnode s c)).
  { repeat split. unfold s2. reads_norm. done. }
  clearbody s2. destruct Hlane2 as (Hfh2 & Hft2 & Hfn2 & Hfc2).
  pose proof (listed_spliced_out _ _ _ _ _ _ _ _ Hl Hsp2) as Hl2.
  assert (Hf2 : ∀ a, fnode s2 a = fnode s a) by (intros a; unfold fnode; by rewrite Hfn2).
  eapply returns_mono.
  { apply (anchor_update_ends s2 c u ft fh bl (size s - 1)).
    - congruence.
    - congruence.
    - done.
    - revert Hsp. apply spaced_frame; intros x _; by rewrite Hf2.
    - done.
    - by rewrite Hfn2.
    - by rewrite Hf2.
    - intros f Hf. rewrite Hfc2 in Hf. apply (Hback c f); [|done].
      by eapply list_elem_of_lookup_2. }
  intros [] s3 (Hk3 & k & Hk & He3). cbv beta.
  apply returns_bind. apply returns_bind, returns_gets.
  assert (Hdone : ∀ s', list_kept s3 s' →
    returns (ret (ListNode.data (default (ListNode.init None) (nodes s !! c))))
         (λ (r : value) (s'0 : t),
            r = ListNode.data (lnode s c)
            ∧ ∃ s1 : t, spliced_out s p n s1 ∧ list_kept s1 s'0) s').
  { intros s' Hk'. apply returns_ret. split; [done|]. exists s2. split; [done|].
    by etrans. }
  destruct (_ && _); [|by apply returns_ret, Hdone].
  eapply returns_mono.
  { apply (_check_and_rebalance_returns k (l1 ++ p :: n :: l2)).
    - done.
    - apply (ls_next _ _ _ (listed_kept _ _ _ _ Hk3 Hl2)).
    - rewrite (lk_size _ _ Hk3). destruct Hsp2 as (_ & _ & -> & _). lia.
    - lia.
    - rewrite length_app in Hfl |- *. cbn in Hfl |- *. lia. }
  intros [] s4 Hk4. apply Hdone. by apply lane_list.
Qed.

Lemma listed_size s vs l : listed s vs l → size s = Z.of_nat (length vs).
Proof. intros [_ _ _ _ <- ->]. by rewrite length_fmap. Qed.

Lemma indexed_deque s vs : indexed s vs → deque s vs.
Proof.
  intros [H|(l & ft & bl & Hne & Hl & Hlane)]; [by left|]. right.
  exists l. split; [done|]. split; [done|].
  destruct Hlane as [Htail (fh & Hfh & Hlast) Hsp _ _ Hval _ _ _ _].
  destruct bl as [|[p pp] bl]; [done|].
  destruct Hsp as [(_ & Hp & _) _]. cbn in Hp.
  cbn [fmap list_fmap fst] in Hval.
  rewrite !Forall_cons in Hval. destruct Hval as (Hftv & Hpv & _).
  by exists fh, ft, p.
Qed.


(** ** Removal by value after appends *)

(** Removing whatever anchor a node of the list refers to, a sentinel
    included, keeps the list and leaves anchors that end. *)
Lemma _remove_fast_ends s ft fh bl z f :
  fast_tail s = Some ft → fast_head s = Some fh → last bl = Some (fh, 0) →
  spaced s ((ft, z) :: bl) → NoDup (ft :: bl.*1) →
  Forall (λ a, (a < length (fnodes s))%nat) (ft :: bl.*1) →
  FastNode.next (fnode s ft) = None → f ∈ ft :: bl.*1 →
  returns (_remove_fast (Some f))
    (λ _ s', list_kept s s' ∧
       ∃ k, (k ≤ length bl)%nat ∧ ends_forward k s' (fast_head s') = true) s.
Proof.
  intros Hft Hfh Hlast Hsp Hnd Hval Hopen Hin.
  pose proof (spaced_rpath _ _ _ Hsp) as Hp. cbn [fst] in Hp.
  assert (Hlast' : last bl.*1 = Some fh) by by rewrite fmap_last, Hlast.
  pose proof (lane_ends s ft fh _ Hft Hopen Hp Hlast') as Hends.
  rewrite length_fmap in Hends.
  destruct (decide (f = fh ∨ f = ft)) as [Hs|Hs].
  { unfold _remove_fast. do 2 (apply returns_bind, returns_gets). rewrite Hfh, Hft.
    replace (bool_decide (Some f = Some fh) || bool_decide (Some f = Some ft)) with true.
    - apply returns_ret. split; [done|]. exists (length bl). by rewrite Hfh.
    - symmetry. apply orb_true_iff. rewrite !bool_decide_eq_true.
      destruct Hs as [->| ->]; auto. }
  apply elem_of_cons in Hin as [->|Hin]; [tauto|].
  destruct (anchor_split s ft fh bl z f Hlast Hsp Hin) as (B1 & q & B2 & HL & Hq & Hx);
    [tauto|].
  rewrite HL in Hnd, Hval, Hp, Hlast'.
  eapply returns_mono.
  { apply (_remove_fast_middle s ft fh B1 f q B2); try done; [|tauto].
    rewrite Forall_cons, Forall_app, !Forall_cons in Hval. tauto. }
  intros [] s' [Hk He]. split; [by apply lane_list|].
  exists (length (B1 ++ q :: B2)). split; [|done].
  rewrite <-(length_fmap fst bl), HL, !length_app. cbn. lia.
Qed.

Lemma list_kept_set_size s s' :
  list_kept s s' → list_kept (set_size (size s - 1) s) (set_size (size s' - 1) s').
Proof. intros [? ? Hsz ? ? ? ?]. constructor; try done. cbn. by rewrite Hsz. Qed.

Lemma _remove_node_and_update_listed fuel s vs ft bl l1 p c n l2 x :
  listed s vs (l1 ++ p :: c :: n :: l2) →
  indexed_lane s (l1 ++ p :: c :: n :: l2) ft bl →
  (length bl ≤ fuel)%nat → (length (l1 ++ p :: c :: n :: l2) ≤ S fuel)%nat →
  returns (_remove_node_and_update fuel c x)
    (λ _ s', ∃ s1, spliced_out s p n s1 ∧ list_kept s1 s') s.
Proof.
  intros Hl Hlane Hfb Hfl.
  pose proof (ls_size _ _ _ Hl) as Hsz. rewrite length_app in Hsz. cbn [length] in Hsz.
  assert (Hc : (l1 ++ p :: c :: n :: l2) !! S (length l1) = Some c).
  { rewrite lookup_app_r by lia. by replace (S (length l1) - length l1)%nat with 1%nat by lia. }
  destruct Hlane as [Htail (fh & Hfh & Hlast) Hsp Htg Hnd Hval Hgap Hcnt Hopen Hback].
  destruct (listed_links _ _ _ Hl) as [Hnext Hprev].
  assert (Hcp : ListNode.prev (lnode s c) = Some p).
  { rewrite (Hprev (length l1) c Hc). by rewrite list_lookup_middle. }
  assert (Hcn : ListNode.next (lnode s c) = Some n).
  { rewrite (Hnext _ c Hc). rewrite lookup_app_r by lia.
    by replace (S (S (length l1)) - length l1)%nat with 2%nat by lia. }
  pose proof (ls_valid _ _ _ Hl) as Hv. rewrite Forall_app, !Forall_cons in Hv.
  destruct Hv as (_ & Hpv & Hcv & Hnv & _).
  assert (Hne : p ≠ c ∧ p ≠ n ∧ c ≠ n).
  { pose proof (ls_nodup _ _ _ Hl) as Hnd'. apply NoDup_app in Hnd' as (_ & _ & Hnd').
    apply NoDup_cons in Hnd' as [Hnp Hnd']. apply NoDup_cons in Hnd' as [Hnc _].
    repeat split; intros ->.
    - apply Hnp. left.
    - apply Hnp. right. left.
    - apply Hnc. left. }
  destruct Hne as (Hpc & Hpn & Hcn').
  unfold lnode in Hcp, Hcn. unfold _remove_node_and_update.
  repeat (tryif (lazymatch goal with
                 | |- returns (bind (lget ListNode.fast _) _) _ _ => idtac
                 end) then fail else (rt_step; reads_norm; rewrite ?Hcp, ?Hcn)).
  match goal with |- returns _ _ ?S => set (s2 := S) end.
  assert (Hsp2 : spliced_out s p n (set_size (size s - 1) s2)).
  { unfold spliced_out, s2. repeat split; intros; reads_norm; try done; try lia.
    all: repeat case_decide; destruct_and?; simplify_eq/=; try done; try lia. }
  assert (Hlane2 : fast_head s2 = fast_head s ∧ fast_tail s2 = fast_tail s ∧
                   fnodes s2 = fnodes s ∧ size s2 = size s ∧
                   ListNode.fast (lnode s2 c) = ListNode.fast (lnode s c)).
  { repeat split. unfold s2. reads_norm. done. }
  clearbody s2. destruct Hlane2 as (Hfh2 & Hft2 & Hfn2 & Hsz2 & Hfc2).
  assert (Hf2 : ∀ a, fnode s2 a = fnode s a) by (intros a; unfold fnode; by rewrite Hfn2).
  assert (Hsp' : spaced s2 ((ft, size s - 1) :: bl)).
  { revert Hsp. apply spaced_frame; intros y _; by rewrite Hf2. }
  pose proof (spaced_rpath _ _ _ Hsp') as Hp. cbn [fst] in Hp.
  assert (Hlast' : last bl.*1 = Some fh) by by rewrite fmap_last, Hlast.
  assert (Hends : ends_forward (length bl) s2 (Some fh) = true).
  { rewrite <-(length_fmap fst bl). apply (lane_ends s2 ft); try done; [congruence|].
    by rewrite Hf2. }
  apply (returns_mono _ (λ _ s3, list_kept s2 s3 ∧
           ∃ k, (k ≤ length bl)%nat ∧ ends_forward k s3 (fast_head s3) = true)).
  { apply returns_bind, returns_gets. rewrite Hfc2.
    destruct (ListNode.fast (lnode s c)) as [f|] eqn:Hf.
    - apply (_remove_fast_ends s2 ft fh bl (size s - 1)); try done; try congruence.
      + by rewrite Hfn2.
      + apply (Hback c f); [|done]. by eapply list_elem_of_lookup_2.
    - apply returns_bind, returns_gets.
      destruct (FastNode.next (fnode s2 x)) as [y|]; unfold if_some.
      + apply returns_bind, returns_gets. apply returns_modify.
        split; [by constructor|]. exists (length bl). split; [done|].
        fields. rewrite Hfh2, Hfh, <-Hends. apply ends_forward_frame; [done|].
        intros a. unfold fnode. fields. by rewrite (read_alter_same FastNode.next).
      + apply returns_ret. split; [done|]. exists (length bl). split; [done|].
        by rewrite Hfh2, Hfh. }
  intros [] s3 (Hk3 & k & Hk & He3). cbv beta.
  apply returns_bind. apply returns_bind, returns_gets. apply returns_modify.
  pose proof (list_kept_set_size _ _ Hk3) as Hk4. rewrite Hsz2 in Hk4.
  set (s4 := set_size (size s3 - 1) s3) in *.
  pose proof (listed_kept _ _ _ _ Hk4 (listed_spliced_out _ _ _ _ _ _ _ _ Hl Hsp2)) as Hl4.
  eapply returns_mono.
  { apply (_check_and_rebalance_returns k (l1 ++ p :: n :: l2)).
    - rewrite <-He3. apply ends_forward_frame; done.
    - apply (ls_next _ _ _ Hl4).
    - rewrite (ls_size _ _ _ Hl4). lia.
    - lia.
    - rewrite length_app in Hfl |- *. cbn in Hfl |- *. lia. }
  intros [] s5 Hk5. exists (set_size (size s - 1) s2). split; [done|].
  etrans; [exact Hk4|]. by apply lane_list.
Qed.

Lemma split_inside {A} (l : list A) (j : nat) :
  (0 < j)%nat → (S j < length l)%nat →
  ∃ l1 p c n l2, l = l1 ++ p :: c :: n :: l2 ∧ S (length l1) = j.
Proof.
  intros H0 Hj. destruct (split_interior l j) as (l1 & p & c & l2 & -> & Hl1); [lia|].
  destruct l2 as [|n l2]; [rewrite length_app in Hj; cbn in Hj; lia|].
  exists l1, p, c, n, l2. split; [done|lia].
Qed.

(** Removing the node at an interior index [j] through
    [_remove_node_and_update]. *)
Lemma _remove_node_and_update_dropped fuel s vs l ft bl v x j c :
  listed s vs l → indexed_lane s l ft bl →
  (length bl ≤ fuel)%nat → (length l ≤ S fuel)%nat →
  (0 < j)%nat → (S j < length l)%nat →
  l !! j = Some c → ListNode.data (lnode s c) = Some v →
  returns (_remove_node_and_update fuel c x) (λ _ s', dropped vs l v j s') s.
Proof.
  intros Hl Hlane Hfb Hfl H0 Hj Hc Hd.
  destruct (split_inside l j H0 Hj) as (l1 & p & c' & n & l2 & -> & Hl1).
  assert (c' = c) as ->.
  { rewrite lookup_app_r in Hc by lia.
    replace (j - length l1)%nat with 1%nat in Hc by lia. cbn in Hc. congruence. }
  eapply returns_mono.
  { by apply (_remove_node_and_update_listed fuel s vs ft bl l1 p c n l2 x). }
  intros [] s' (s1 & Hsp & Hk). split.
  - rewrite <-(ls_values _ _ _ Hl), list_lookup_fmap, Hc. cbn. by rewrite Hd.
  - pose proof (listed_kept _ _ _ _ Hk (listed_spliced_out _ _ _ _ _ _ _ _ Hl Hsp)) as Hl'.
    rewrite Hl1 in Hl'.
    replace (delete j (l1 ++ p :: c :: n :: l2)) with (l1 ++ p :: n :: l2); [done|].
    replace (l1 ++ p :: c :: n :: l2) with ((l1 ++ [p]) ++ c :: n :: l2)
      by by rewrite <-app_assoc.
    replace j with (length (l1 ++ [p])) by (rewrite length_app; cbn; lia).
    by rewrite delete_middle, <-app_assoc.
Qed.

(** The scan of the plain nodes of a chunk, from index [j] for at most [r]
    nodes and up to the node at index [E]: it drops the first node that
    holds [v], or reports that none does and changes nothing. *)
Lemma search_plain_spec fuel s vs l ft bl v x E e :
  listed s vs l → indexed_lane s l ft bl →
  (length bl ≤ fuel)%nat → (length l ≤ S fuel)%nat →
  l !! E = Some e →
  ∀ r j, (0 < j)%nat → ((0 < r)%nat → (j + r ≤ E)%nat) →
  returns (search_plain fuel r (l !! j) (Some e) x v)
    (λ b s', if b then ∃ m, dropped vs l v m s'
             else s' = s ∧ ∀ m, (j ≤ m < j + r)%nat → vs !! m ≠ Some (Some v)) s.
Proof.
  intros Hl Hlane Hfb Hfl HE.
  destruct (listed_links _ _ _ Hl) as [Hnext _].
  induction r as [|r IH]; intros j H0 Hr.
  { apply returns_ret. split; [done|]. intros m ?. lia. }
  specialize (Hr ltac:(lia)).
  pose proof (lookup_lt_Some _ _ _ HE) as HEl.
  destruct (lookup_lt_is_Some_2 l j) as [c Hc]; [lia|].
  cbn [search_plain]. rewrite Hc.
  rewrite bool_decide_eq_false_2.
  2:{ intros [= ->]. pose proof (NoDup_lookup _ _ _ _ (ls_nodup _ _ _ Hl) Hc HE). lia. }
  apply returns_bind, returns_ret. apply returns_bind, returns_gets.
  assert (Hvj : vs !! j = Some (ListNode.data (lnode s c))).
  { by rewrite <-(ls_values _ _ _ Hl), list_lookup_fmap, Hc. }
  destruct (bool_decide (ListNode.data (lnode s c) = Some v)) eqn:Hd.
  - apply bool_decide_eq_true in Hd. apply returns_bind. eapply returns_mono.
    { apply (_remove_node_and_update_dropped fuel s vs l ft bl v x j c); try done. lia. }
    intros [] s' Hdr. apply returns_ret. by exists j.
  - apply bool_decide_eq_false in Hd. apply returns_bind, returns_gets.
    rewrite (Hnext j c Hc). eapply returns_mono.
    { apply (IH (S j)); lia. }
    intros [] s'; [done|]. intros [-> Hm]. split; [done|].
    intros m Hmr. destruct (decide (m = j)) as [Hmj|]; [|apply Hm; lia].
    subst m. intros Heq. apply Hd.
    assert (Some (ListNode.data (lnode s c)) = Some (Some v)) as [= ?]
      by (etrans; [symmetry; exact Hvj|exact Heq]).
    done.
Qed.

(** The search of the chunk between the anchor [x] and the next anchor
    [y]: it drops the first node of the chunk that holds [v], or reports
    that none does and changes nothing. *)
Lemma _search_chunk_spec fuel s vs l ft bl v (x y : nat * Z) :
  listed s vs l → indexed_lane s l ft bl →
  (length bl ≤ fuel)%nat → (length l ≤ S fuel)%nat →
  FastNode.next (fnode s x.1) = Some y.1 →
  FastNode.gap (fnode s y.1) = y.2 - x.2 →
  on_target s l x → on_target s l y →
  vs !! 0%nat ≠ Some (Some v) → last vs ≠ Some (Some v) →
  returns (_search_chunk fuel (Some x.1) v)
    (λ b s', if b then ∃ m, dropped vs l v m s'
             else s' = s ∧
                  ∀ m, (Z.to_nat x.2 ≤ m)%nat → Z.of_nat m < y.2 →
                       vs !! m ≠ Some (Some v)) s.
Proof.
  intros Hl Hlane Hfb Hfl Hn Hg [Hx0 (a & Ha & Hta)] [Hy0 (e & He & Hte)] Hhead Htail.
  destruct (listed_links _ _ _ Hl) as [Hnext _].
  set (px := Z.to_nat x.2) in *.
  assert (Hvp : vs !! px = Some (ListNode.data (lnode s a))).
  { by rewrite <-(ls_values _ _ _ Hl), list_lookup_fmap, Ha. }
  assert (Hlen : length vs = length l).
  { by rewrite <-(ls_values _ _ _ Hl), length_fmap. }
  unfold _search_chunk. apply returns_bind, returns_gets. rewrite Hn.
  apply returns_bind, returns_gets. rewrite Hta.
  apply returns_bind. apply returns_bind, returns_gets. apply returns_ret.
  destruct (bool_decide (ListNode.data (lnode s a) = Some v)) eqn:Hd.
  - apply bool_decide_eq_true in Hd. rewrite Hd in Hvp.
    apply returns_bind. apply returns_bind, returns_ret.
    eapply returns_mono.
    { apply (_remove_node_and_update_dropped fuel s vs l ft bl v x.1 px a); try done.
      - destruct px; [|lia]. exfalso. apply Hhead. exact Hvp.
      - pose proof (lookup_lt_Some _ _ _ Ha) as Hlt.
        destruct (decide (S px = length l)) as [Heq|]; [|lia].
        exfalso. apply Htail. rewrite last_lookup.
        replace (pred (length vs)) with px by lia. exact Hvp. }
    intros [] s' Hdr. apply returns_ret. by exists px.
  - apply bool_decide_eq_false in Hd.
    assert (Hpx : vs !! px ≠ Some (Some v)).
    { intros Heq. apply Hd.
      assert (Some (ListNode.data (lnode s a)) = Some (Some v)) as [= ?]
        by (etrans; [symmetry; exact Hvp|exact Heq]).
      done. }
    apply returns_bind, returns_gets. rewrite (Hnext px a Ha).
    apply returns_bind, returns_gets. rewrite Hte.
    pose proof (lookup_lt_Some _ _ _ He) as Hey.
    destruct (l !! S px) as [c|] eqn:Hc.
    + rewrite !bool_decide_eq_false_2 by done. cbn [orb].
      apply returns_bind, returns_gets. rewrite Hg. rewrite <-Hc.
      eapply returns_mono.
      { apply (search_plain_spec fuel s vs l ft bl v x.1 (Z.to_nat y.2) e); try done; lia. }
      intros [] s'; [done|]. intros [-> Hm]. split; [done|].
      intros m Hm1 Hm2. destruct (decide (m = px)) as [->|]; [done|].
      apply Hm. lia.
    + rewrite bool_decide_eq_true_2 by done. cbn [orb]. apply returns_ret.
      split; [done|]. intros m Hm1 Hm2. destruct (decide (m = px)) as [->|]; [done|].
      apply lookup_ge_None_1 in Hc. lia.
Qed.

Lemma fspaced_at s AL : fspaced s AL → ∀ a x y,
  AL !! a = Some x → AL !! S a = Some y →
  FastNode.next (fnode s x.1) = Some y.1 ∧ FastNode.prev (fnode s y.1) = Some x.1 ∧
  FastNode.gap (fnode s y.1) = y.2 - x.2.
Proof.
  induction AL as [|x0 AL IH]; intros Hsp a x y Hx Hy; [done|].
  destruct Hsp as [H0 Hsp]. destruct a as [|a]; cbn in Hx, Hy.
  - injection Hx as ->. destruct AL as [|y0 AL]; [done|]. cbn in Hy. by injection Hy as ->.
  - by apply (IH Hsp a).
Qed.

(** The two-sided loop of [remove]: between the anchors it has reached it
    drops the first node it meets that holds [v], or reports that none
    holds it and changes nothing. *)
Lemma remove_loop_spec s vs l ft bl v AL size_1 :
  listed s vs l → indexed_lane s l ft bl →
  fspaced s AL → Forall (on_target s l) AL →
  (∀ x, AL !! 0%nat = Some x → x.2 = 0) →
  (∀ x, last AL = Some x → x.2 = size_1) → size_1 = size s - 1 →
  vs !! 0%nat ≠ Some (Some v) → last vs ≠ Some (Some v) →
  ∀ fuel a b x y, AL !! a = Some x → AL !! b = Some y →
    (∀ m, Z.of_nat m < x.2 ∨ y.2 ≤ Z.of_nat m → vs !! m ≠ Some (Some v)) →
    (length AL - a + length bl + length l ≤ fuel)%nat →
    returns (remove_loop fuel v (Some x.1) (Some y.1) x.2 y.2)
      (λ r s', if r then ∃ m, dropped vs l v m s'
               else s' = s ∧ ∀ m, vs !! m ≠ Some (Some v)) s.
Proof.
  intros Hl Hlane Hfs Hat Hfirst Hlast Hs1 Hhead Htail.
  pose proof (ls_size _ _ _ Hl) as Hsz.
  induction fuel as [|fuel IH]; intros a b x y Hx Hy Hcov Hfuel.
  { pose proof (lookup_lt_Some _ _ _ Hx). lia. }
  pose proof (lookup_lt_Some _ _ _ Hx) as Hax.
  assert (Hxt : on_target s l x).
  { rewrite Forall_forall in Hat. apply Hat. by eapply list_elem_of_lookup_2. }
  assert (Hyt : on_target s l y).
  { rewrite Forall_forall in Hat. apply Hat. by eapply list_elem_of_lookup_2. }
  cbn [remove_loop]. do 2 (apply returns_bind, returns_gets).
  destruct (decide (x.2 < y.2)) as [Hlt|Hge].
  2:{ replace (x.2 <? y.2) with false by lia. rewrite andb_false_r.
      apply returns_ret. split; [done|]. intros m. apply Hcov. lia. }
  replace (x.2 <? y.2) with true by lia.
  destruct (AL !! S a) as [x'|] eqn:Hx'.
  2:{ exfalso. apply lookup_ge_None_1 in Hx'.
      assert (Hl' : last AL = Some x).
      { rewrite last_lookup. rewrite <-Hx. f_equal. lia. }
      specialize (Hlast x Hl'). destruct Hyt as [_ (e & He & _)].
      apply lookup_lt_Some in He. lia. }
  destruct b as [|b].
  { exfalso. specialize (Hfirst y Hy). destruct Hxt as [? _]. lia. }
  destruct (AL !! b) as [y'|] eqn:Hy'.
  2:{ exfalso. apply lookup_ge_None_1 in Hy'. apply lookup_lt_Some in Hy. lia. }
  destruct (fspaced_at s AL Hfs a x x' Hx Hx') as (Hxn & _ & Hxg).
  destruct (fspaced_at s AL Hfs b y' y Hy' Hy) as (Hyn & Hyp & Hyg).
  assert (Hx't : on_target s l x').
  { rewrite Forall_forall in Hat. apply Hat. by eapply list_elem_of_lookup_2. }
  assert (Hy't : on_target s l y').
  { rewrite Forall_forall in Hat. apply Hat. by eapply list_elem_of_lookup_2. }
  rewrite Hxn, Hyp. rewrite !bool_decide_eq_true_2 by done. cbn [andb].
  pose proof (il_count _ _ _ _ Hlane) as Hcnt.
  apply returns_bind. eapply returns_mono.
  { apply (_search_chunk_spec fuel s vs l ft bl v x x'); try done; lia. }
  intros [] s'; [intros Hdr; by apply returns_ret|]. intros [-> Hm1].
  apply returns_bind, returns_gets. rewrite Hxn.
  apply returns_bind, returns_ret. apply returns_bind, returns_gets. rewrite Hxg.
  replace (x.2 + (x'.2 - x.2)) with x'.2 by lia.
  assert (Hcov1 : ∀ m, Z.of_nat m < x'.2 → vs !! m ≠ Some (Some v)).
  { intros m Hm. destruct (decide (Z.of_nat m < x.2)); [apply Hcov; lia|].
    apply Hm1; [|done]. destruct Hxt as [? _]. lia. }
  destruct (x'.2 <? y.2) eqn:Hlt'.
  - apply returns_bind, returns_gets. rewrite Hyp.
    apply returns_bind. eapply returns_mono.
    { apply (_search_chunk_spec fuel s vs l ft bl v y' y); try done; lia. }
    intros [] s'; [intros Hdr; by apply returns_ret|]. intros [-> Hm2].
    do 2 (apply returns_bind, returns_gets). rewrite Hyg, Hyp.
    replace (y.2 - (y.2 - y'.2)) with y'.2 by lia.
    apply (IH (S a) b); try done; [|lia].
    intros m [Hm|Hm]; [by apply Hcov1|].
    destruct (decide (y.2 ≤ Z.of_nat m)); [apply Hcov; lia|].
    apply Hm2; [|lia]. destruct Hy't as [? _]. lia.
  - apply (IH (S a) (S b)); try done; [|lia].
    intros m [Hm|Hm]; [by apply Hcov1|apply Hcov; lia].
Qed.

Lemma remove_first_delete (x : value) vs : ∀ m,
  vs !! m = Some x → (∀ k, (k < m)%nat → vs !! k ≠ Some x) →
  remove_first x vs = delete m vs.
Proof.
  induction vs as [|y vs IH]; intros m Hm Hfirst; [done|]. cbn.
  destruct m as [|m]; cbn in Hm.
  - injection Hm as ->. by rewrite decide_True.
  - rewrite decide_False.
    + cbn. f_equal. apply IH; [done|]. intros k Hk. apply (Hfirst (S k)). lia.
    + intros ->. by apply (Hfirst 0%nat); [lia|].
Qed.

Lemma dropped_removed_one vs l v m s' : dropped vs l v m s' → removed_one vs v s'.
Proof.
  intros [Hm Hl]. exists m. split; [done|].
  split; [by eapply listed_size|]. split; [by eapply listed_to_list|].
  intros Hu. symmetry. apply remove_first_delete; [done|].
  intros k Hk Hv. specialize (Hu k Hv). lia.
Qed.

Lemma deque_removed_one vs v m s' :
  vs !! m = Some (Some v) → deque s' (delete m vs) → removed_one vs v s'.
Proof.
  intros Hm Hd. exists m. split; [done|].
  split; [by apply deque_size|]. split; [by apply deque_to_list|].
  intros Hu. symmetry. apply remove_first_delete; [done|].
  intros k Hk Hv. specialize (Hu k Hv). lia.
Qed.

Lemma remove_indexed fuel s vs v :
  indexed s vs → (Z.to_nat (size s + 2 * fast_count s) ≤ fuel)%nat →
  returns (remove fuel (Some v))
    (λ r s', if r then removed_one vs v s'
             else s' = s ∧ ∀ m, vs !! m ≠ Some (Some v)) s.
Proof.
  intros Hs Hfuel. pose proof (indexed_deque _ _ Hs) as Hd.
  destruct Hs as [(Hh & _ & _ & ->)|(l & ft & bl & Hne & Hl & Hlane)].
  { unfold remove. apply returns_bind, returns_gets. rewrite Hh. by apply returns_ret. }
  destruct (decide (vs !! 0%nat = Some (Some v))) as [Hv0|Hv0].
  { destruct vs as [|x vs]; [done|]. injection Hv0 as ->.
    destruct (deque_remove_first fuel s v vs Hd) as (s' & Hr & Hd').
    eapply returns_ok; [exact Hr|]. by apply (deque_removed_one _ _ 0%nat). }
  destruct (decide (last vs = Some (Some v))) as [Hvl|Hvl].
  { destruct vs as [|x vs]; [done|].
    destruct vs as [|y vs _] using rev_ind.
    { cbn in Hvl. exfalso. apply Hv0. exact Hvl. }
    rewrite last_cons, last_snoc in Hvl. injection Hvl as ->.
    destruct (deque_remove_last fuel s v x vs) as (s' & Hr & Hd'); [|done|].
    { intros ->. by apply Hv0. }
    eapply returns_ok; [exact Hr|].
    apply (deque_removed_one _ _ (length (x :: vs))).
    - by apply (list_lookup_middle (x :: vs) []).
    - change (x :: vs ++ [Some v]) with ((x :: vs) ++ [Some v]).
      by rewrite delete_middle, app_nil_r. }
  destruct (listed_ends _ _ _ Hl) as [Hh Ht].
  pose proof (ls_size _ _ _ Hl) as Hsz.
  pose proof (ls_values _ _ _ Hl) as Hvs.
  destruct (l !! 0%nat) as [h|] eqn:Hl0; [|by destruct l].
  destruct (last l) as [tl|] eqn:Hll; [|by destruct l using rev_ind; [|rewrite last_snoc in Hll]].
  assert (Hhd : ListNode.data (lnode s h) ≠ Some v).
  { intros Heq. apply Hv0. rewrite <-Hvs, list_lookup_fmap, Hl0. cbn. by rewrite Heq. }
  assert (Htd : ListNode.data (lnode s tl) ≠ Some v).
  { intros Heq. apply Hvl. rewrite <-Hvs, fmap_last, Hll. cbn. by rewrite Heq. }
  unfold remove. apply returns_bind, returns_gets. rewrite Hh.
  apply returns_bind, returns_gets. rewrite bool_decide_eq_false_2 by done.
  apply returns_bind, returns_gets. rewrite Ht.
  apply returns_bind, returns_ret. apply returns_bind, returns_gets.
  rewrite bool_decide_eq_false_2 by done.
  do 3 (apply returns_bind, returns_gets).
  pose proof Hlane as [Htail (fh & Hfh & Hlast) Hsp Htg Hnd Hval Hgap Hcnt Hopen Hback].
  rewrite Hfh, Htail.
  set (AL := reverse ((ft, size s - 1) :: bl)).
  assert (HAL0 : AL !! 0%nat = Some (fh, 0)).
  { unfold AL. rewrite reverse_cons.
    destruct bl as [|b bl _] using rev_ind; [done|].
    rewrite last_snoc in Hlast. injection Hlast as ->.
    by rewrite reverse_app. }
  assert (HALl : last AL = Some (ft, size s - 1)).
  { unfold AL. by rewrite reverse_cons, last_snoc. }
  assert (HALn : length AL = S (length bl)).
  { unfold AL. by rewrite length_reverse. }
  eapply returns_mono.
  { apply (remove_loop_spec s vs l ft bl v AL (size s - 1) Hl Hlane) with
      (a := 0%nat) (b := length bl) (x := (fh, 0)) (y := (ft, size s - 1)); try done.
    - by apply spaced_reverse.
    - unfold AL. by apply Forall_reverse.
    - intros x Hx. rewrite HAL0 in Hx. by injection Hx as <-.
    - intros x Hx. rewrite HALl in Hx. by injection Hx as <-.
    - rewrite <-HALl, last_lookup. f_equal. lia.
    - cbn [fst snd]. intros m [Hm|Hm]; [lia|].
      assert (Hlen : length vs = length l) by by rewrite <-Hvs, length_fmap.
      destruct (decide (m = pred (length vs))) as [->|].
      + by rewrite <-last_lookup.
      + rewrite lookup_ge_None_2; [done|]. unfold value in *. lia.
    - lia. }
  intros [] s'; [|done]. intros [m Hdr]. by eapply dropped_removed_one.
Qed.


(** ** The properties at example inputs *)

Ltac ends_auto :=
  vm_compute; repeat split; first [reflexivity | left; reflexivity | right; reflexivity].

Lemma add_clear_sequences_witness :
  Forall add_or_clear append_ops ∧
  ∃ s, run 0 append_ops __init__ = Some s ∧
       let vs := ref_run append_ops [] in
       size s = Z.of_nat (length vs) ∧
       to_list (length vs) s = vs ∧
       (fast_count s = 0 ↔ size s = 0) ∧
       (1 ≤ size s →
        2 ≤ fast_count s ∧ gap_sum (Z.to_nat (fast_count s)) s = size s - 1).
Proof.
  split; [by repeat constructor|].
  apply (add_clear_sequences 0 append_ops). by repeat constructor.
Defined.

Lemma get_after_appends_witness :
  Forall add_or_clear append_ops ∧
  ∃ s, run 0 append_ops __init__ = Some s ∧
       ∀ i x, ref_run append_ops [] !! i = Some x →
       ∀ budget, (Z.to_nat (fast_count s) ≤ budget)%nat →
       outcome (get budget (Z.of_nat i) s) = Some (inl x).
Proof.
  split; [by repeat constructor|].
  apply (get_after_appends 0 append_ops). by repeat constructor.
Defined.

Lemma end_operations_match_reference_witness :
  end_ops [] deque_ops ∧
  ∃ s, run 0 deque_ops __init__ = Some s ∧
       let vs := ref_run deque_ops [] in
       size s = Z.of_nat (length vs) ∧
       to_list (length vs) s = vs ∧
       (∀ x, vs !! 0%nat = Some x →
          outcome (get 0 0 s) = Some (inl x) ∧
          outcome (remove_at 0 0 s) = Some (inl x)) ∧
       (∀ x, last vs = Some x →
          outcome (get 0 (size s - 1) s) = Some (inl x) ∧
          outcome (remove_at 0 (size s - 1) s) = Some (inl x)).
Proof.
  assert (H : end_ops [] deque_ops) by ends_auto.
  split; [exact H|]. apply (end_operations_match_reference 0 deque_ops H).
Defined.

Lemma counts_after_returning_calls_witness :
  run 10 mixed_ops __init__ = Some after_mixed_ops ∧
  0 ≤ size after_mixed_ops ∧ (fast_count after_mixed_ops = 0 ↔ size after_mixed_ops = 0) ∧
  (1 ≤ size after_mixed_ops → 2 ≤ fast_count after_mixed_ops).
Proof.
  assert (H : run 10 mixed_ops __init__ = Some after_mixed_ops) by (vm_compute; reflexivity).
  split; [exact H|]. apply (counts_after_returning_calls 10 mixed_ops after_mixed_ops H).
Defined.


Lemma remove_unheld_witness :
  unheld three_appended 7 ∧ misses three_appended (remove 5 (Some 7) three_appended).
Proof.
  assert (H : unheld three_appended 7).
  { intros [|[|[|a]]]; vm_compute; discriminate. }
  split; [exact H|]. apply (remove_unheld 5 three_appended 7 H).
Defined.

Lemma remove_tries_the_ends_first_witness :
  end_ops [] ends_ops ∧
  ∃ s, run 5 ends_ops __init__ = Some s ∧
       (∀ vs, ref_run ends_ops [] = Some 1 :: vs →
          ∃ s', remove 5 (Some 1) s = Ok true s' ∧
                size s' = Z.of_nat (length vs) ∧ to_list (length vs) s' = vs) ∧
       (∀ x vs, ref_run ends_ops [] = x :: vs ++ [Some 1] → x ≠ Some 1 →
          ∃ s', remove 5 (Some 1) s = Ok true s' ∧
                size s' = Z.of_nat (length (x :: vs)) ∧
                to_list (length (x :: vs)) s' = x :: vs).
Proof.
  assert (H : end_ops [] ends_ops) by ends_auto.
  split; [exact H|]. apply (remove_tries_the_ends_first 5 ends_ops 1 H).
Defined.

Lemma clear_recovers_witness :
  end_ops [] deque_ops ∧
  ∃ s, run 0 (Clear :: deque_ops) stale_container = Some s ∧
       let vs := ref_run deque_ops [] in
       size s = Z.of_nat (length vs) ∧ to_list (length vs) s = vs ∧
       (fast_count s = 0 ↔ size s = 0).
Proof.
  assert (H : end_ops [] deque_ops) by ends_auto.
  split; [exact H|]. apply (clear_recovers 0 deque_ops stale_container H).
Defined.

(** The last element goes, not the first occurrence. *)
Example remove_takes_the_last_occurrence :
  (λ s, (to_list 10 s, outcome (remove 5 (Some 1) s),
         (λ s', to_list 10 s') <$> after (remove 5 (Some 1) s)))
    <$> run 5 ends_ops __init__
  = Some ([Some 0; Some 1; Some 2; Some 1], Some (inl true),
          Some [Some 0; Some 1; Some 2]) ∧
  ref_run (ends_ops ++ [Remove (Some 1)]) [] = [Some 0; Some 2; Some 1].
Proof. vm_compute. auto. Qed.




Lemma skip_distance_bounds_witness :
  float_exact (size stale_container) (current_skip stale_container) ∧
  ∃ r s', _get_dynamic_skip stale_container = Ok r s' ∧
    skip_only stale_container s' ∧
    MIN_SKIP ≤ r ∧
    2 * r ≤ Z.max (2 * MIN_SKIP) (3 * current_skip stale_container) ∧
    (r = MIN_SKIP ∨ r = current_skip stale_container ∨ r * r ≤ size stale_container).
Proof.
  assert (Hx : float_exact (size stale_container) (current_skip stale_container))
    by (vm_compute; repeat split; intros H; discriminate H).
  split; [exact Hx|]. exact (skip_distance_bounds stale_container Hx).
Defined.

End SkipList.
